(** * tweet_torch: a shallow embedding of the virality training script

    The script [research/modelling/tweet_torch.py] bins retweet counts into
    four ordinal classes, weights every training example by the inverse of
    its class frequency, trains a BERT encoder with a fusion head under a
    weighted sampler and logs one checkpoint directory as the best model.

    Conventions of the embedding:
    - Python exceptions are values of [exn]; a computation that may raise
      has type [result A].
    - Floating-point numbers (weights, logits, accuracies) are idealised as
      rationals [Q]; tensors whose values are never inspected by the script
      are represented by their shape.
    - A Python [int] is a [Z]; a [list] is a [list]; the characters of a
      [str] are code points below 256. *)

From Stdlib Require Import String Ascii ZArith QArith Qfield Lqa List Bool Lia.
From Stdlib Require Import Sorting.Sorted DecimalString DecimalPos DecimalN.
Import ListNotations.

Local Open Scope Z_scope.

(** ** Exceptions *)

Inductive exn : Type :=
| IndexError
| ValueError (msg : string)
| TypeError
| RuntimeError.

Inductive result (A : Type) : Type :=
| Ok (a : A)
| Raise (e : exn).

Arguments Ok {A} a.
Arguments Raise {A} e.

Definition bind {A B : Type} (m : result A) (f : A -> result B) : result B :=
  match m with
  | Ok a => f a
  | Raise e => Raise e
  end.

Notation "x <- m ;; k" := (bind m (fun x => k))
  (at level 61, m at next level, right associativity).

Fixpoint mapM {A B : Type} (f : A -> result B) (l : list A) : result (list B) :=
  match l with
  | [] => Ok []
  | a :: l' => b <- f a ;; bs <- mapM f l' ;; Ok (b :: bs)
  end.

(** ** Label derivation (lines 72-73)

    [pd.cut(x, bins, include_lowest=True, right=False)] followed by
    [rename_categories([0,1,2,3])]. *)

Module Pandas.

(** A bin edge: a finite number or [float("inf")]. *)
Inductive edge : Type :=
| Fin (z : Z)
| PosInf.

Definition edge_leb (e : edge) (x : Z) : bool :=
  match e with
  | Fin z => z <=? x
  | PosInf => false
  end.

Definition edge_ltb (e : edge) (x : Z) : bool :=
  match e with
  | Fin z => z <? x
  | PosInf => false
  end.

Definition edge_eqb (e : edge) (x : Z) : bool :=
  match e with
  | Fin z => z =? x
  | PosInf => false
  end.

(** [bins.searchsorted(x, side=...)] on an increasing array of edges: the
    number of leading edges that are [<= x] (side "right") or [< x]
    (side "left"). *)
Fixpoint searchsorted (below : edge -> Z -> bool) (bins : list edge) (x : Z)
  : nat :=
  match bins with
  | [] => 0%nat
  | b :: rest => if below b x then S (searchsorted below rest x) else 0%nat
  end.

(** [pd.cut] for one value: the code of the bin [x] falls in, or [None]
    for the missing value (NaN) pandas assigns outside of all bins. *)
Definition cut (bins : list edge) (include_lowest right : bool) (x : Z)
  : option nat :=
  let side := if right then edge_ltb else edge_leb in
  let ids := searchsorted side bins x in
  let ids :=
    if include_lowest && (match bins with
                          | b0 :: _ => edge_eqb b0 x
                          | [] => false
                          end)
    then 1%nat else ids in
  if (ids =? length bins)%nat || (ids =? 0)%nat then None
  else Some (ids - 1)%nat.

(** [Series.cat.rename_categories(new)]: code [i] becomes [new[i]]. *)
Definition rename_categories (new : list Z) (code : option nat) : option Z :=
  match code with
  | Some i => nth_error new i
  | None => None
  end.

End Pandas.

Definition bins : list Pandas.edge :=
  [Pandas.Fin 0; Pandas.Fin 1; Pandas.Fin 10; Pandas.Fin 100; Pandas.PosInf].

(** [df["label"]] for a row whose [retweets_count] is [r]. *)
Definition label (retweets_count : Z) : option Z :=
  Pandas.rename_categories [0; 1; 2; 3]
    (Pandas.cut bins true false retweets_count).

(** ** The numpy operations the script calls *)

Module Numpy.

(** Insertion into a strictly increasing list, keeping it free of
    duplicates. *)
Fixpoint insert (x : Z) (l : list Z) : list Z :=
  match l with
  | [] => [x]
  | y :: l' =>
      if x <? y then x :: l
      else if x =? y then l
      else y :: insert x l'
  end.

(** [np.unique(a)]: the sorted distinct values of [a]. *)
Definition unique (a : list Z) : list Z := fold_right insert [] a.

(** Number of occurrences of [x] in [a]. *)
Definition count (a : list Z) (x : Z) : Z :=
  Z.of_nat (count_occ Z.eq_dec a x).

(** [np.unique(a, return_counts=True)]: the sorted distinct values and, at
    the same positions, how often each occurs. *)
Definition unique_counts (a : list Z) : list Z * list Z :=
  let u := unique a in (u, map (count a) u).

(** [a[i]] for an integer [i]: a negative index counts from the end, an
    index outside of [-len(a) .. len(a)-1] raises [IndexError]. *)
Definition item {A : Type} (a : list A) (i : Z) : result A :=
  let n := Z.of_nat (length a) in
  let j := if i <? 0 then i + n else i in
  if (0 <=? j) && (j <? n) then
    match nth_error a (Z.to_nat j) with
    | Some v => Ok v
    | None => Raise IndexError
    end
  else Raise IndexError.

(** [a[idx]] for a list of integers [idx] (integer array indexing). *)
Definition take {A : Type} (a : list A) (idx : list Z) : result (list A) :=
  mapM (item a) idx.

(** The values an int64 holds. *)
Definition fits_int64 (z : Z) : Prop := - 2 ^ 63 <= z < 2 ^ 63.

(** [np.min(a)] of a list of Python ints; the minimum of an empty array
    is a [ValueError]. numpy stores a list whose entries all fit 64 bits
    as an array of int64, and the minimum is exact. A list with an entry
    from [2^63] on is stored as an array of uint64, float64 or objects,
    whose minimum may be a float; such lists are outside of the embedding,
    and the properties of [best_ckpt] on arbitrary steps are stated for
    steps that fit. *)
Definition min (a : list Z) : result Z :=
  match a with
  | [] => Raise (ValueError "zero-size array to reduction operation minimum which has no identity")
  | x :: xs => Ok (fold_left Z.min xs x)
  end.

(** [row.argmax()]: the position of the first maximal entry. *)
Fixpoint argmax_from (best : Q) (best_pos pos : nat) (row : list Q) : nat :=
  match row with
  | [] => best_pos
  | x :: row' =>
      if Qlt_le_dec best x
      then argmax_from x pos (S pos) row'
      else argmax_from best best_pos (S pos) row'
  end.

Definition argmax (row : list Q) : result nat :=
  match row with
  | [] => Raise (ValueError "attempt to get argmax of an empty sequence")
  | x :: row' => Ok (argmax_from x 0%nat 1%nat row')
  end.

(** [a.argmax(-1)] of a two-dimensional array given by its rows. *)
Definition argmax_last (a : list (list Q)) : result (list nat) :=
  mapM argmax a.

(** [a == b] for one-dimensional integer arrays, with broadcasting of an
    array of length one. *)
Definition equal (a b : list Z) : result (list bool) :=
  match a, b with
  | [x], _ => Ok (map (fun y => x =? y) b)
  | _, [y] => Ok (map (fun x => x =? y) a)
  | _, _ =>
      if (length a =? length b)%nat
      then Ok (map (fun xy => fst xy =? snd xy) (combine a b))
      else Raise (ValueError "operands could not be broadcast together")
  end.

(** A floating-point result: a number or NaN. *)
Inductive float : Type :=
| Finite (q : Q)
| NaN.

(** [a.mean()] of a boolean array; the mean of an empty array is NaN. *)
Definition mean (a : list bool) : float :=
  match a with
  | [] => NaN
  | _ => Finite (inject_Z (Z.of_nat (count_occ bool_dec a true))
                 / inject_Z (Z.of_nat (length a)))
  end.

End Numpy.

(** ** TweetDataset.compute_sample_weights (lines 115-119) *)

Definition compute_sample_weights (labels : list Z) : result (list Q) :=
  let class_sample_counts := snd (Numpy.unique_counts labels) in
  let class_weights := map (fun c => 1 / inject_Z c)%Q class_sample_counts in
  let sample_weights := Numpy.take class_weights labels in
  sample_weights.

(** The toy training split of the specification: eight examples with label
    counts 0:4, 1:2, 2:1, 3:1. *)
Definition toy_labels : list Z := [0; 1; 0; 2; 0; 3; 1; 0].

(** ** The Python string operations the script calls *)

Module Python.

(** [s.split(sep)] for a separator of one character: the pieces between
    the occurrences of [sep]; there is always at least one piece. *)
Fixpoint split (sep : ascii) (s : string) : list string :=
  match s with
  | EmptyString => [EmptyString]
  | String c s' =>
      if Ascii.eqb c sep then EmptyString :: split sep s'
      else match split sep s' with
           | p :: ps => String c p :: ps
           | [] => [String c EmptyString]
           end
  end.

(** [l[i]] for a list and a natural index. *)
Definition getitem {A : Type} (l : list A) (i : nat) : result A :=
  match nth_error l i with
  | Some v => Ok v
  | None => Raise IndexError
  end.

(** The white space [int] strips from both ends of a string: the
    characters 9 to 13 and the blank, and of the characters above 127 the
    two that are spaces (next line, no-break space). The separators 28 to
    31 are not stripped. *)
Definition is_space (c : ascii) : bool :=
  let n := nat_of_ascii c in
  ((9 <=? n) && (n <=? 13) || (n =? 32) || (n =? 133) || (n =? 160))%nat.

Fixpoint lstrip (s : list ascii) : list ascii :=
  match s with
  | c :: s' => if is_space c then lstrip s' else s
  | [] => []
  end.

Definition strip (s : list ascii) : list ascii :=
  rev (lstrip (rev (lstrip s))).

Definition digit_of (c : ascii) : option Z :=
  let n := nat_of_ascii c in
  if ((48 <=? n) && (n <=? 57))%nat then Some (Z.of_nat n - 48) else None.

(** The digits of a decimal literal: groups of digits separated by single
    underscores. [after_digit] tells whether the previous character was a
    digit, which an underscore and the end of the literal both require. *)
Fixpoint int_digits (acc : Z) (after_digit : bool) (s : list ascii)
  : option Z :=
  match s with
  | [] => if after_digit then Some acc else None
  | c :: s' =>
      match digit_of c with
      | Some d => int_digits (10 * acc + d) true s'
      | None =>
          if Ascii.eqb c "_" && after_digit then int_digits acc false s'
          else None
      end
  end.

(** [repr(s)] of a string, as the message of [int] shows it: in single
    quotes, or in double quotes when the string has a single quote and no
    double one; the quote and the backslash are escaped, and so is every
    character that is not printable. *)
Definition hex_digit (n : nat) : ascii :=
  if (n <? 10)%nat then ascii_of_nat (48 + n) else ascii_of_nat (87 + n).

Definition is_printable (c : ascii) : bool :=
  let n := nat_of_ascii c in
  ((32 <=? n) && (n <=? 126) || (161 <=? n) && negb (n =? 173))%nat.

Definition escape (quote c : ascii) : list ascii :=
  let n := nat_of_ascii c in
  if Ascii.eqb c quote || Ascii.eqb c "\" then ["\"; c]%char
  else if (n =? 9)%nat then ["\"; "t"]%char
  else if (n =? 10)%nat then ["\"; "n"]%char
  else if (n =? 13)%nat then ["\"; "r"]%char
  else if is_printable c then [c]
  else ["\"%char; "x"%char; hex_digit (n / 16); hex_digit (n mod 16)].

Definition repr (s : string) : list ascii :=
  let cs := list_ascii_of_string s in
  let quote :=
    if existsb (Ascii.eqb "'") cs && negb (existsb (Ascii.eqb "034") cs)
    then "034"%char else "'"%char in
  quote :: flat_map (escape quote) cs ++ [quote].

(** The message of the [ValueError] of [int(s)]: it shows at most 200
    characters of [repr(s)]. *)
Definition invalid_literal (s : string) : string :=
  ("invalid literal for int() with base 10: "
   ++ string_of_list_ascii (firstn 200 (repr s)))%string.

(** [int(s)] in base ten. The characters of a string are code points below
    256. Recent versions of Python refuse numerals of more than 4300
    digits; a file name has 255 characters at most, and that limit is not
    part of the embedding. *)
Definition int (s : string) : result Z :=
  let invalid := Raise (ValueError (invalid_literal s)) in
  let body := strip (list_ascii_of_string s) in
  let signed :=
    match body with
    | "-"%char :: ds => option_map Z.opp (int_digits 0 false ds)
    | "+"%char :: ds => int_digits 0 false ds
    | ds => int_digits 0 false ds
    end in
  match signed with
  | Some z => Ok z
  | None => invalid
  end.

(** [str(z)], as an f-string formats an integer. *)
Definition str (z : Z) : string :=
  NilZero.string_of_int (Z.to_int z).

End Python.

(** ** Choice of the logged checkpoint (lines 263-270)

    [listing] is what [os.listdir] returns for the output directory. *)

Definition best_ckpt (listing : list string) : result Z :=
  steps <- mapM (fun fol =>
                   part <- Python.getitem (Python.split "-" fol) 1 ;;
                   Python.int part) listing ;;
  Numpy.min steps.

(** The directory name handed to [best_model_artifact.add_dir], relative
    to the output directory. *)
Definition best_model_dir (listing : list string) : result string :=
  k <- best_ckpt listing ;;
  Ok ("checkpoint-" ++ Python.str k)%string.

(** The directory the trainer saves at global step [step]. *)
Definition checkpoint_dir (step : N) : string :=
  ("checkpoint-" ++ Python.str (Z.of_N step))%string.

(** A saved checkpoint with the validation accuracy recorded for it. *)
Record checkpoint : Type := {
  ckpt_step : N;
  ckpt_accuracy : Q
}.

(** The step of the checkpoint with the greatest recorded accuracy, the
    earliest one among equals. *)
Fixpoint best_by_accuracy (ckpts : list checkpoint) : option checkpoint :=
  match ckpts with
  | [] => None
  | c :: rest =>
      match best_by_accuracy rest with
      | Some b => if Qlt_le_dec (ckpt_accuracy c) (ckpt_accuracy b)
                  then Some b else Some c
      | None => Some c
      end
  end.

(** ** Tensors, by shape and element type

    The script never looks at the entries of a tensor that flows through
    the model; what decides whether [forward] is defined, and what it
    returns, is the shape and the element type. *)

Module Torch.

Inductive dtype : Type := float32 | int32 | int64.

Record tensor : Type := {
  shape : list nat;
  elt : dtype
}.

Definition numel (t : tensor) : nat := fold_right Nat.mul 1%nat (shape t).

Definition is_floating (d : dtype) : bool :=
  match d with float32 => true | _ => false end.

(** Type promotion of two element types. *)
Definition promote (a b : dtype) : dtype :=
  match a, b with
  | float32, _ | _, float32 => float32
  | int64, _ | _, int64 => int64
  | int32, int32 => int32
  end.

(** [t.float()]. *)
Definition to_float (t : tensor) : tensor :=
  {| shape := shape t; elt := float32 |}.

(** [t.view(-1)]. Tensors are taken to be contiguous, as the ones the
    script views are, so that a view depends on the number of entries
    only. *)
Definition view_flat (t : tensor) : tensor :=
  {| shape := [numel t]; elt := elt t |}.

(** [t.view(-1, k)]: the first dimension is inferred, which needs [k] to be
    positive and to divide the number of elements. *)
Definition view_rows (t : tensor) (k : Z) : result tensor :=
  if (0 <? k) && (Z.of_nat (numel t) mod k =? 0)
  then Ok {| shape := [Z.to_nat (Z.of_nat (numel t) / k); Z.to_nat k];
             elt := elt t |}
  else Raise RuntimeError.

(** [t[:, 0, :]]: the tensor needs three dimensions at least and an entry
    0 along the second one, which is removed. *)
Definition select_first (t : tensor) : result tensor :=
  match shape t with
  | b :: S _ :: h :: rest => Ok {| shape := b :: h :: rest; elt := elt t |}
  | _ => Raise IndexError
  end.

(** The shape of a one-dimensional empty tensor. *)
Definition is_empty_1d (s : list nat) : bool :=
  match s with
  | [O] => true
  | _ => false
  end.

(** [torch.cat([a, b], dim=1)]. A one-dimensional empty tensor is skipped;
    otherwise both tensors need at least two dimensions and the same sizes
    outside of dimension 1. [None] is not a tensor. *)
Definition cat_dim1 (a : tensor) (b : option tensor) : result tensor :=
  match b with
  | None => Raise TypeError
  | Some b =>
      let out := promote (elt a) (elt b) in
      if is_empty_1d (shape b) then Ok {| shape := shape a; elt := out |}
      else if is_empty_1d (shape a) then Ok {| shape := shape b; elt := out |}
      else
        match shape a, shape b with
        | a0 :: a1 :: ar, b0 :: b1 :: br =>
            if (a0 =? b0)%nat
               && (if list_eq_dec Nat.eq_dec ar br then true else false)
            then Ok {| shape := a0 :: (a1 + b1)%nat :: ar; elt := out |}
            else Raise RuntimeError
        | _, _ => Raise IndexError
        end
  end.

(** The layers the model is built from. *)
Inductive layer : Type :=
| Dropout (p : Q)
| Linear (in_features out_features : nat)
| ReLU.

(** A linear layer acts on the last dimension, which has to be its
    [in_features], of a floating-point tensor; dropout and ReLU keep the
    shape. *)
Definition apply_layer (l : layer) (t : tensor) : result tensor :=
  match l with
  | Dropout _ => Ok t
  | ReLU => Ok t
  | Linear i o =>
      match rev (shape t) with
      | d :: ds =>
          if (d =? i)%nat && is_floating (elt t)
          then Ok {| shape := rev (o :: ds); elt := elt t |}
          else Raise RuntimeError
      | [] => Raise RuntimeError
      end
  end.

(** [torch.nn.Sequential]. *)
Fixpoint Sequential (layers : list layer) (t : tensor) : result tensor :=
  match layers with
  | [] => Ok t
  | l :: ls => t' <- apply_layer l t ;; Sequential ls t'
  end.

(** The value of one of the three loss functionals of
    [torch.nn.functional] the script may call, on the tensors it was
    computed from. The value is a floating point computation of the
    library and stays symbolic. *)
Inductive loss : Type :=
| mse_loss (input target : tensor)
| binary_cross_entropy_with_logits (input target : tensor)
| cross_entropy (input target : tensor).

(** [str(t.size())], as the messages of the functionals show a shape. *)
Definition Size_str (s : list nat) : string :=
  ("torch.Size(["
   ++ String.concat ", " (map (fun d => Python.str (Z.of_nat d)) s)
   ++ "])")%string.

(** Two shapes broadcast when, read from the last dimension, the sizes
    are equal or one of them is 1. *)
Fixpoint broadcast_rev (a b : list nat) : bool :=
  match a, b with
  | x :: a', y :: b' =>
      ((x =? y) || (x =? 1) || (y =? 1))%nat && broadcast_rev a' b'
  | _, _ => true
  end.

Definition broadcastable (a b : list nat) : bool :=
  broadcast_rev (rev a) (rev b).

(** The functionals of [torch.nn.functional], with the checks they make
    on the shapes and element types of their arguments before they
    compute a value. The entries of the tensors are not part of the
    embedding: a target of class indices is taken to hold indices of
    classes that exist. *)
Module F.

(** [mse_loss(input, target)] broadcasts its arguments (with a warning
    when the sizes differ) and takes the mean, which wants a floating
    point type after promotion. *)
Definition mse_loss (input target : tensor) : result loss :=
  if broadcastable (shape input) (shape target) then
    if is_floating (promote (elt input) (elt target))
    then Ok (mse_loss input target)
    else Raise RuntimeError
  else Raise RuntimeError.

(** [binary_cross_entropy_with_logits(input, target)] wants a target of
    the size of the input, and then floating point entries. *)
Definition binary_cross_entropy_with_logits (input target : tensor)
  : result loss :=
  if list_eq_dec Nat.eq_dec (shape target) (shape input) then
    if is_floating (elt input) && is_floating (elt target)
    then Ok (binary_cross_entropy_with_logits input target)
    else Raise RuntimeError
  else
    Raise (ValueError ("Target size (" ++ Size_str (shape target)
                       ++ ") must be the same as input size ("
                       ++ Size_str (shape input) ++ ")")).

(** [cross_entropy(input, target)] on an input of two dimensions, one row
    of scores per example, and a target of one dimension, which is how
    the script calls it: the log-softmax wants floating point scores,
    there has to be one target per row, and the targets are class indices
    of type int64. The other ways of calling it (class probabilities,
    more dimensions) do not occur in the script and are not told apart
    here. *)
Definition cross_entropy (input target : tensor) : result loss :=
  match shape input, shape target with
  | [m; _], [n] =>
      if negb (is_floating (elt input)) then Raise RuntimeError
      else if negb (m =? n)%nat then
        Raise (ValueError ("Expected input batch_size ("
                           ++ Python.str (Z.of_nat m)
                           ++ ") to match target batch_size ("
                           ++ Python.str (Z.of_nat n) ++ ")."))
      else
        match elt target with
        | int64 => Ok (cross_entropy input target)
        | _ => Raise RuntimeError
        end
  | _, _ => Raise RuntimeError
  end.

End F.

End Torch.

(** ** ViralityClassifier (lines 130-206) *)

(** The pretrained encoder: its hidden size and, for the shapes of
    [input_ids], [attention_mask] and [token_type_ids], the
    [last_hidden_state] it returns. *)
Record encoder : Type := {
  hidden_size : nat;
  encode : Torch.tensor -> Torch.tensor -> Torch.tensor -> result Torch.tensor
}.

(** What the script relies on: for a batch of [b] sequences of [n] tokens
    the encoder returns a floating-point tensor of shape
    [b, n, hidden_size]. *)
Definition encoder_contract (bert : encoder) : Prop :=
  forall b n ids mask types,
    Torch.shape ids = [b; n] ->
    Torch.shape mask = [b; n] ->
    Torch.shape types = [b; n] ->
    encode bert ids mask types =
    Ok {| Torch.shape := [b; n; hidden_size bert]; Torch.elt := Torch.float32 |}.

Record ViralityClassifier : Type := {
  bert : encoder;
  n_labels : Z;
  classifier : option (list Torch.layer);
  bert_processor : list Torch.layer
}.

(** [torch.nn.Linear(in_features, out_features)] refuses a negative
    size. *)
Definition Linear_init (in_features : nat) (out_features : Z)
  : result Torch.layer :=
  if out_features <? 0 then Raise RuntimeError
  else Ok (Torch.Linear in_features (Z.to_nat out_features)).

(** [torch.nn.Dropout(p)] refuses a probability outside of [0, 1]. The
    message of the library goes on with the value it was given, which is a
    float and is not rendered here. *)
Definition Dropout_init (p : Q) : result Torch.layer :=
  if Qle_bool 0 p && Qle_bool p 1 then Ok (Torch.Dropout p)
  else Raise (ValueError "dropout probability has to be between 0 and 1").

(** [__init__]; freezing the encoder changes no shape and is left out. *)
Definition ViralityClassifier_init (checkpoint : encoder)
           (n_features : nat) (n_labels : Z) (dropout : Q)
  : result ViralityClassifier :=
  let bert_hdim := hidden_size checkpoint in
  nc <- (if (n_features =? 0)%nat
         then Ok (n_labels, None)
         else
           last <- Linear_init n_features n_labels ;;
           Ok (Z.of_nat n_features,
               Some [Torch.Linear (n_features * 2) n_features;
                     Torch.ReLU;
                     last])) ;;
  let '(n_features, classifier) := nc in
  drop <- Dropout_init dropout ;;
  down <- Linear_init (bert_hdim / 3) n_features ;;
  Ok {| bert := checkpoint;
        n_labels := n_labels;
        classifier := classifier;
        bert_processor :=
          [drop; Torch.Linear bert_hdim (bert_hdim / 3); Torch.ReLU; down] |}.

(** [compute_loss] (lines 192-202). *)
Definition compute_loss (self : ViralityClassifier)
           (logits labels : Torch.tensor) : result Torch.loss :=
  logits <- Torch.view_rows logits (n_labels self) ;;
  let labels := Torch.view_flat labels in
  if n_labels self =? 1 then
    Torch.F.mse_loss (Torch.view_flat logits) (Torch.to_float labels)
  else if n_labels self =? 2 then
    Torch.F.binary_cross_entropy_with_logits logits labels
  else
    Torch.F.cross_entropy logits labels.

(** The [SequenceClassifierOutput] of [forward], without the hidden states
    and attentions that are passed through from the encoder. *)
Record SequenceClassifierOutput : Type := {
  out_loss : Torch.loss;
  out_logits : Torch.tensor
}.

(** The logits [forward] computes before it takes the loss
    (lines 175-183). *)
Definition forward_logits (self : ViralityClassifier)
           (input_ids token_type_ids attention_mask : Torch.tensor)
           (features : option Torch.tensor) : result Torch.tensor :=
  last_hidden_state <- encode (bert self) input_ids attention_mask token_type_ids ;;
  cls <- Torch.select_first last_hidden_state ;;
  logits <- Torch.Sequential (bert_processor self) cls ;;
  match classifier self with
  | Some layers =>
      fused <- Torch.cat_dim1 logits features ;;
      Torch.Sequential layers fused
  | None => Ok logits
  end.

Definition forward (self : ViralityClassifier)
           (input_ids token_type_ids attention_mask labels : Torch.tensor)
           (features : option Torch.tensor)
  : result SequenceClassifierOutput :=
  logits <- forward_logits self input_ids token_type_ids attention_mask features ;;
  loss <- compute_loss self logits labels ;;
  Ok {| out_loss := loss; out_logits := logits |}.

(** ** compute_metric (lines 209-212) *)

Record EvalPrediction : Type := {
  predictions : list (list Q);
  label_ids : list Z
}.

(** The returned dict, as its list of items. *)
Definition compute_metric (eval_pred : EvalPrediction)
  : result (list (string * Numpy.float)) :=
  predicted <- Numpy.argmax_last (predictions eval_pred) ;;
  hits <- Numpy.equal (label_ids eval_pred) (map Z.of_nat predicted) ;;
  Ok [("accuracy"%string, Numpy.mean hits)].

(** ** Training arguments (lines 45-64); the fields used below *)

Record TrainingArguments : Type := {
  num_train_epochs : nat;
  train_batch_size : nat;
  eval_batch_size : nat;
  dataloader_drop_last : bool;
  dataloader_pin_memory : bool;
  save_total_limit : nat;
  load_best_model_at_end : bool;
  metric_for_best_model : string;
  greater_is_better : bool
}.

Definition training_args : TrainingArguments := {|
  num_train_epochs := 20;
  train_batch_size := 128;
  eval_batch_size := 128;
  dataloader_drop_last := false;
  dataloader_pin_memory := true;
  save_total_limit := 1;
  load_best_model_at_end := true;
  metric_for_best_model := "accuracy";
  greater_is_better := true
|}.

(** How the trainer of the transformers library compares the metric of a
    new checkpoint with the best one so far: with [np.greater] when
    [greater_is_better] is set and with [np.less] otherwise. *)
Definition improves (args : TrainingArguments) (metric best : Q) : bool :=
  if greater_is_better args
  then (if Qlt_le_dec best metric then true else false)
  else (if Qlt_le_dec metric best then true else false).

(** ** TweetDataset (lines 82-119) *)

Record TweetDataset : Type := {
  texts : list string;
  features : option (list (list Z));
  labels : list Z;
  sample_weights : list Q
}.

Definition TweetDataset_init (texts : list string) (labels : list Z)
           (features : option (list (list Z))) : result TweetDataset :=
  w <- compute_sample_weights labels ;;
  Ok {| texts := texts; features := features; labels := labels;
        sample_weights := w |}.

(** ** Finite distributions, for the sampler *)

(** A finite distribution: outcomes with their probabilities. *)
Definition dist (A : Type) : Type := list (A * Q).

Fixpoint Qsum (l : list Q) : Q :=
  match l with
  | [] => 0%Q
  | x :: l' => (x + Qsum l')%Q
  end.

(** Probability of an event. *)
Definition Pr {A : Type} (d : dist A) (event : A -> bool) : Q :=
  Qsum (map (fun ap => if event (fst ap) then snd ap else 0%Q) d).

(** ** torch.multinomial and WeightedRandomSampler *)

(** [torch.multinomial(weights, n, replacement=True)]: [n] independent
    draws of an index, index [i] with probability [weights[i]] over the
    sum of the weights. *)
Fixpoint multinomial_with_replacement (weights : list Q) (n : nat)
  : dist (list nat) :=
  match n with
  | O => [([], 1%Q)]
  | S n' =>
      flat_map
        (fun i =>
           map (fun sp => (i :: fst sp,
                           (nth i weights 0 / Qsum weights * snd sp)%Q))
               (multinomial_with_replacement weights n'))
        (seq 0 (length weights))
  end.

(** Setting entry [i] to zero. *)
Fixpoint zero_at (i : nat) (weights : list Q) : list Q :=
  match weights, i with
  | [], _ => []
  | _ :: ws, O => 0%Q :: ws
  | w :: ws, S i' => w :: zero_at i' ws
  end.

(** [torch.multinomial(weights, n, replacement=False)]: a drawn index
    cannot be drawn again. *)
Fixpoint multinomial_without_replacement (weights : list Q) (n : nat)
  : dist (list nat) :=
  match n with
  | O => [([], 1%Q)]
  | S n' =>
      flat_map
        (fun i =>
           map (fun sp => (i :: fst sp,
                           (nth i weights 0 / Qsum weights * snd sp)%Q))
               (multinomial_without_replacement (zero_at i weights) n'))
        (seq 0 (length weights))
  end.

Record WeightedRandomSampler : Type := {
  weights : list Q;
  num_samples : nat;
  replacement : bool
}.

(** The constructor: [replacement] defaults to [True]; the number of
    samples has to be positive. *)
Definition WeightedRandomSampler_init (weights : list Q) (num_samples : nat)
           (replacement : option bool) : result WeightedRandomSampler :=
  if (num_samples =? 0)%nat
  then Raise (ValueError "num_samples should be a positive integer value, but got num_samples=0")
  else Ok {| weights := weights; num_samples := num_samples;
             replacement := match replacement with
                            | Some r => r
                            | None => true
                            end |}.

(** [torch.multinomial] wants weights that are not negative and do not
    sum to zero. *)
Definition valid_weights (weights : list Q) : bool :=
  forallb (Qle_bool 0) weights && negb (Qeq_bool (Qsum weights) 0).

(** One pass over the sampler, which is one epoch of indices. *)
Definition WeightedRandomSampler_iter (s : WeightedRandomSampler)
  : result (dist (list nat)) :=
  if valid_weights (weights s) then
    Ok (if replacement s
        then multinomial_with_replacement (weights s) (num_samples s)
        else multinomial_without_replacement (weights s) (num_samples s))
  else Raise RuntimeError.

Record DataLoader : Type := {
  dataset : TweetDataset;
  batch_size : nat;
  sampler : WeightedRandomSampler;
  drop_last : bool;
  pin_memory : bool
}.

(** ** CustomTrainer (lines 229-257) *)

Record Trainer : Type := {
  args : TrainingArguments;
  train_dataset : option TweetDataset;
  eval_dataset : option TweetDataset
}.

(** [Trainer.__init__] of the transformers library keeps its arguments; a
    missing dataset is accepted, since a trainer may only evaluate. *)
Definition Trainer_init (args : TrainingArguments)
           (train_dataset eval_dataset : option TweetDataset)
  : result Trainer :=
  Ok {| args := args; train_dataset := train_dataset;
        eval_dataset := eval_dataset |}.

(** [CustomTrainer.__init__] only calls the constructor it inherits. *)
Definition CustomTrainer_init (args : TrainingArguments)
           (train_dataset eval_dataset : option TweetDataset)
  : result Trainer :=
  Trainer_init args train_dataset eval_dataset.

Definition get_train_dataloader (self : Trainer) : result DataLoader :=
  match train_dataset self with
  | None => Raise (ValueError "Trainer: training requires a train_dataset.")
  | Some train_dataset =>
      let sample_weights := sample_weights train_dataset in
      sampler <- WeightedRandomSampler_init sample_weights
                   (length sample_weights) None ;;
      Ok {| dataset := train_dataset;
            batch_size := train_batch_size (args self);
            sampler := sampler;
            drop_last := dataloader_drop_last (args self);
            pin_memory := dataloader_pin_memory (args self) |}
  end.

(** [Trainer.train] asks for the train dataloader before its first step
    and runs over it once per epoch; the result here is the sequence of
    epochs of training indices. *)
Definition train (self : Trainer) : result (list (dist (list nat))) :=
  train_dataloader <- get_train_dataloader self ;;
  mapM (fun _ => WeightedRandomSampler_iter (sampler train_dataloader))
       (seq 0 (num_train_epochs (args self))).

(** ** The script from the construction of the trainer on (lines 249-261) *)

(** [Trainer.evaluate] needs the evaluation dataset only. *)
Definition evaluate (self : Trainer) : result unit :=
  match eval_dataset self with
  | Some _ => Ok tt
  | None => Raise (ValueError "Trainer: evaluation requires an eval_dataset.")
  end.

Inductive event : Type :=
| Constructed
| Evaluated
| Trained.

(** The statements [trainer = CustomTrainer(...)], [trainer.evaluate()] and
    [trainer.train()], with the steps completed before the script stops and
    the exception that stopped it, if any. *)
Definition run_trainer (args : TrainingArguments)
           (train_dataset eval_dataset : option TweetDataset)
  : list event * option exn :=
  match CustomTrainer_init args train_dataset eval_dataset with
  | Raise e => ([], Some e)
  | Ok trainer =>
      match evaluate trainer with
      | Raise e => ([Constructed], Some e)
      | Ok _ =>
          match train trainer with
          | Raise e => ([Constructed; Evaluated], Some e)
          | Ok _ => ([Constructed; Evaluated; Trained], None)
          end
      end
  end.

(** ** Notions the properties are stated with *)

(** The weights inverse class frequency asks for: one over the number of
    examples of the example's class. *)
Definition inverse_class_frequency (labels : list Z) : list Q :=
  map (fun l => 1 / inject_Z (Numpy.count labels l))%Q labels.

(** Class [c] is counted: the array of counts, read at [c], holds the
    number of examples of class [c]. *)
Definition class_counted (labels : list Z) (c : Z) : Prop :=
  Numpy.item (snd (Numpy.unique_counts labels)) c = Ok (Numpy.count labels c).

(** The classes that occur are exactly [0, ..., k-1] for some [k]. *)
Definition classes_contiguous (labels : list Z) : Prop :=
  exists k, forall c, In c labels <-> 0 <= c < k.

(** Total weight of the examples of class [c]. *)
Definition class_mass (labels : list Z) (w : list Q) (c : Z) : Q :=
  Qsum (map snd (filter (fun lw => fst lw =? c) (combine labels w))).

(** Three saved checkpoints; the second has the best validation
    accuracy. *)
Definition three_checkpoints : list checkpoint :=
  [ {| ckpt_step := 500; ckpt_accuracy := 3 # 5 |};
    {| ckpt_step := 1000; ckpt_accuracy := 9 # 10 |};
    {| ckpt_step := 1500; ckpt_accuracy := 4 # 5 |} ].

(** Which functional a loss is computed by. *)
Inductive functional : Type :=
| MeanSquaredError
| BinaryCrossEntropyWithLogits
| CrossEntropy.

Definition functional_of (l : Torch.loss) : functional :=
  match l with
  | Torch.mse_loss _ _ => MeanSquaredError
  | Torch.binary_cross_entropy_with_logits _ _ => BinaryCrossEntropyWithLogits
  | Torch.cross_entropy _ _ => CrossEntropy
  end.

(** An encoder with the shape behaviour of the checkpoint the script loads
    (hidden size 128): it wants three tensors of one two-dimensional
    shape. *)
Definition tiny_bert : encoder := {|
  hidden_size := 128;
  encode := fun ids mask types =>
    match Torch.shape ids with
    | [b; n] =>
        if (if list_eq_dec Nat.eq_dec (Torch.shape mask) [b; n] then true else false)
           && (if list_eq_dec Nat.eq_dec (Torch.shape types) [b; n] then true else false)
        then Ok {| Torch.shape := [b; n; 128%nat]; Torch.elt := Torch.float32 |}
        else Raise RuntimeError
    | _ => Raise RuntimeError
    end
|}.

(** A tensor of 64-bit integers of a given shape. *)
Definition int_tensor (shape : list nat) : Torch.tensor :=
  {| Torch.shape := shape; Torch.elt := Torch.int64 |}.

(** A tensor of floats of a given shape. *)
Definition float_tensor (shape : list nat) : Torch.tensor :=
  {| Torch.shape := shape; Torch.elt := Torch.float32 |}.

(** The model the script builds: six auxiliary features, four labels,
    dropout 0.2. *)
Definition model : ViralityClassifier := {|
  bert := tiny_bert;
  n_labels := 4;
  classifier := Some [Torch.Linear 12 6; Torch.ReLU; Torch.Linear 6 4];
  bert_processor := [Torch.Dropout (1 # 5); Torch.Linear 128 42; Torch.ReLU;
                     Torch.Linear 42 6]
|}.

(** The same model built for two labels. *)
Definition two_label_model : ViralityClassifier := {|
  bert := tiny_bert;
  n_labels := 2;
  classifier := Some [Torch.Linear 12 6; Torch.ReLU; Torch.Linear 6 2];
  bert_processor := [Torch.Dropout (1 # 5); Torch.Linear 128 42; Torch.ReLU;
                     Torch.Linear 42 6]
|}.

(** Position [j] holds the first greatest entry of [row]. *)
Definition is_argmax (row : list Q) (j : nat) : Prop :=
  (j < length row)%nat /\
  (forall i, (i < length row)%nat -> (nth i row 0 <= nth j row 0)%Q) /\
  (forall i, (i < j)%nat -> (nth i row 0 < nth j row 0)%Q).

(** The top-1 prediction for the logits [row] is the class [label]. *)
Definition top1_hit (row : list Q) (label : Z) : Prop :=
  exists j, is_argmax row j /\ Z.of_nat j = label.

(** Product of a list of rationals. *)
Fixpoint Qprod (l : list Q) : Q :=
  match l with
  | [] => 1%Q
  | x :: l' => (x * Qprod l')%Q
  end.

(** Probability of drawing index [i] once: its weight over the sum of all
    weights. *)
Definition draw_probability (w : list Q) (i : nat) : Q :=
  (nth i w 0 / Qsum w)%Q.

(** The event that the epoch is exactly the index sequence [s]. *)
Definition is_epoch (s : list nat) (t : list nat) : bool :=
  if list_eq_dec Nat.eq_dec s t then true else false.

(** The event that draw number [j] of the epoch is index [i]. *)
Definition draw_is (j i : nat) (t : list nat) : bool :=
  match nth_error t j with
  | Some i' => (i' =? i)%nat
  | None => false
  end.

(** The toy training split as a dataset. *)
Definition toy_dataset : TweetDataset := {|
  texts := ["a"; "b"; "c"; "d"; "e"; "f"; "g"; "h"]%string;
  features := None;
  labels := toy_labels;
  sample_weights := [1 # 4; 1 # 2; 1 # 4; 1; 1 # 4; 1; 1 # 2; 1 # 4]%Q
|}.

(** A decimal digit, and the characters of a decimal numeral. *)
Definition is_digit (c : ascii) : bool :=
  match Python.digit_of c with
  | Some _ => true
  | None => false
  end.

Definition digits (d : Decimal.uint) : list ascii :=
  list_ascii_of_string (NilEmpty.string_of_uint d).

(** The event that draw number [j] of the epoch is an example of class
    [c] of the training labels. *)
Definition draw_in_class (labels : list Z) (j : nat) (c : Z) (s : list nat)
  : bool :=
  match nth_error s j with
  | Some i =>
      match nth_error labels i with
      | Some l => l =? c
      | None => false
      end
  | None => false
  end.

(** ** TweetDataset.__getitem__ and __len__ (lines 97-113) *)

(** [l[i]] for a Python list and an integer [i]: as for an array, a
    negative index counts from the end and an index out of range raises
    [IndexError]. *)
Definition list_getitem {A : Type} (l : list A) (i : Z) : result A :=
  Numpy.item l i.

(** A Python dict with string keys, as its items in insertion order. *)
Definition dict (V : Type) : Type := list (string * V).

Fixpoint dict_get {V : Type} (k : string) (d : dict V) : option V :=
  match d with
  | [] => None
  | (k', v) :: d' => if String.eqb k' k then Some v else dict_get k d'
  end.

(** [d[k] = v]: the value of an existing key is replaced, a new key goes
    to the end. *)
Fixpoint dict_set {V : Type} (k : string) (v : V) (d : dict V) : dict V :=
  match d with
  | [] => [(k, v)]
  | (k', v') :: d' =>
      if String.eqb k' k then (k, v) :: d' else (k', v') :: dict_set k v d'
  end.

(** What [torch.tensor] is applied to in [__getitem__]: a list of integers
    or one integer, with the element type of the resulting tensor. *)
Inductive item_value : Type :=
| IntTensor (elt : Torch.dtype) (data : list Z)
| IntScalar (elt : Torch.dtype) (z : Z).

(** [__getitem__]. [tokenizer text] stands for the call
    [self.tokenizer(text, max_length=128, padding='max_length',
    truncation=True)] and returns the encodings as a dict of integer
    lists. *)
Definition TweetDataset_getitem (tokenizer : string -> dict (list Z))
           (self : TweetDataset) (idx : Z) : result (dict item_value) :=
  text <- list_getitem (texts self) idx ;;
  let encodings := tokenizer text in
  let item := map (fun kv => (fst kv, IntTensor Torch.int64 (snd kv)))
                  encodings in
  lab <- list_getitem (labels self) idx ;;
  let item := dict_set "labels" (IntScalar Torch.int64 lab) item in
  match features self with
  | Some rows =>
      row <- Numpy.item rows idx ;;
      Ok (dict_set "features" (IntTensor Torch.int32 row) item)
  | None => Ok item
  end.

(** [__len__]. *)
Definition TweetDataset_len (self : TweetDataset) : nat :=
  length (labels self).

(** The texts, the labels and the feature rows of a dataset belong to the
    same examples. *)
Definition aligned (self : TweetDataset) : Prop :=
  length (texts self) = length (labels self) /\
  match features self with
  | Some rows => length rows = length (labels self)
  | None => True
  end.

(** A stand-in tokenizer: the character codes of the text, truncated and
    padded with zeros to 128 entries, with the mask of the real entries. *)
Definition pad_to (n : nat) (l : list Z) : list Z :=
  firstn n l ++ repeat 0 (n - length (firstn n l)).

Definition char_tokenizer (text : string) : dict (list Z) :=
  let ids := map (fun c => Z.of_nat (nat_of_ascii c))
                 (list_ascii_of_string text) in
  [("input_ids"%string, pad_to 128 ids);
   ("token_type_ids"%string, repeat 0 128);
   ("attention_mask"%string, pad_to 128 (map (fun _ => 1) ids))].

(** The step number read off one directory name, as in the list
    comprehension of [best_ckpt]. *)
Definition checkpoint_step (fol : string) : result Z :=
  part <- Python.getitem (Python.split "-" fol) 1 ;;
  Python.int part.

(** A name [os.listdir] can return: a file name has 255 characters at
    most. *)
Definition file_name (fol : string) : Prop :=
  (String.length fol <= 255)%nat.

(** ** The datasets and the model as the script builds them
    (lines 121-128 and 215-221) *)

(** [a.astype("int32")] on one entry: the value wraps around into 32
    bits. *)
Definition astype_int32 (z : Z) : Z :=
  (z + 2 ^ 31) mod 2 ^ 32 - 2 ^ 31.

(** The body of the loop over the splits. [matrix] is
    [splits[split_name][features].values], one row per example with one
    entry per feature name; the cast is the one [__init__] applies to the
    features it is given (line 92). *)
Definition make_dataset (features : list string) (texts : list string)
           (labels : list Z) (matrix : list (list Z)) : result TweetDataset :=
  TweetDataset_init texts labels
    (if (length features =? 0)%nat then None
     else Some (map (map astype_int32) matrix)).





(** The feature names of the script (lines 21-25) and a toy feature
    matrix for the toy split, one row per example. *)
Definition script_features : list string :=
  ["created_at_dayofweek"; "created_at_hour"; "hashtags_count";
   "mentions_count"; "cashtags_count"; "is_quote_tweet"]%string.


(** The values an [int32] holds. *)
Definition in_int32 (z : Z) : Prop := - 2 ^ 31 <= z < 2 ^ 31.

(** * Properties *)

(** ** Sequencing of computations that may raise *)

Lemma mapM_Ok_map {A B : Type} (f : A -> result B) (g : A -> B) (l : list A) :
  (forall a, In a l -> f a = Ok (g a)) -> mapM f l = Ok (map g l).
Proof.
  induction l as [|a l IH]; intros Hf; simpl.
  - reflexivity.
  - rewrite (Hf a (or_introl eq_refl)). simpl.
    rewrite IH by (intros b Hb; apply Hf; now right).
    reflexivity.
Qed.

Lemma mapM_Ok_inv {A B : Type} (f : A -> result B) (l : list A) (bs : list B) :
  mapM f l = Ok bs ->
  length bs = length l /\
  forall a, In a l -> exists b, f a = Ok b.
Proof.
  revert bs. induction l as [|a l IH]; intros bs H; simpl in H.
  - inversion H. split; [reflexivity | intros a []].
  - destruct (f a) as [b|e] eqn:Ea; simpl in H; [|discriminate].
    destruct (mapM f l) as [bs'|e] eqn:El; simpl in H; [|discriminate].
    inversion H; subst. destruct (IH bs' eq_refl) as [Hlen Hall].
    split; [simpl; now rewrite Hlen|].
    intros a' [<-|Hin]; [now exists b | now apply Hall].
Qed.

(** ** Label derivation *)

Example label_0 : label 0 = Some 0.
Proof. reflexivity. Qed.

Example label_9 : label 9 = Some 1.
Proof. reflexivity. Qed.

Example label_10 : label 10 = Some 2.
Proof. reflexivity. Qed.

Example label_100 : label 100 = Some 3.
Proof. reflexivity. Qed.

Example label_negative : label (-1) = None.
Proof. reflexivity. Qed.

(** C5. Every non-negative retweet count [r] gets a label, and the label is
    the ordinal of the half-open interval among [0,1), [1,10), [10,100),
    [100,inf) that contains [r]. *)
Theorem label_is_interval_class (r : Z) :
  0 <= r ->
  exists l, label r = Some l /\
            (l = 0 <-> 0 <= r < 1) /\
            (l = 1 <-> 1 <= r < 10) /\
            (l = 2 <-> 10 <= r < 100) /\
            (l = 3 <-> 100 <= r).
Proof.
  intros Hr. unfold label, Pandas.cut, bins.
  cbn -[Z.leb Z.eqb].
  destruct (Z.eqb_spec 0 r) as [E0|N0].
  - subst r. exists 0. cbn. repeat split; intros; lia.
  - cbn -[Z.leb].
    destruct (Z.leb_spec 0 r); [|lia].
    destruct (Z.leb_spec 1 r); [|lia].
    destruct (Z.leb_spec 10 r);
      [|exists 1; cbn; repeat split; intros; lia].
    destruct (Z.leb_spec 100 r);
      [exists 3|exists 2]; cbn; repeat split; intros; lia.
Qed.

Lemma label_is_interval_class_witness :
  0 <= 42 /\
  exists l, label 42 = Some l /\
            (l = 0 <-> 0 <= 42 < 1) /\
            (l = 1 <-> 1 <= 42 < 10) /\
            (l = 2 <-> 10 <= 42 < 100) /\
            (l = 3 <-> 100 <= 42).
Proof.
  split; [lia | apply (label_is_interval_class 42); lia].
Defined.

(** ** Sorted distinct values *)

Lemma insert_In (x y : Z) (l : list Z) :
  In y (Numpy.insert x l) <-> y = x \/ In y l.
Proof.
  induction l as [|z l IH]; simpl.
  - intuition.
  - destruct (Z.ltb_spec x z); [simpl; intuition|].
    destruct (Z.eqb_spec x z); simpl; [subst; intuition|].
    rewrite IH. intuition.
Qed.

Lemma insert_sorted (x : Z) (l : list Z) :
  StronglySorted Z.lt l -> StronglySorted Z.lt (Numpy.insert x l).
Proof.
  induction 1 as [|z l Hs IH Hall]; simpl.
  - repeat constructor.
  - destruct (Z.ltb_spec x z) as [Hlt|Hge].
    + constructor; [now constructor|].
      constructor; [exact Hlt|].
      eapply Forall_impl; [|exact Hall]. intros; lia.
    + destruct (Z.eqb_spec x z) as [->|Hne]; [now constructor|].
      constructor; [exact IH|].
      rewrite Forall_forall in *. intros y Hy.
      apply insert_In in Hy as [->|Hy]; [lia | now apply Hall].
Qed.

Lemma unique_In (a : list Z) (x : Z) : In x (Numpy.unique a) <-> In x a.
Proof.
  unfold Numpy.unique. induction a as [|y a IH]; simpl; [tauto|].
  rewrite insert_In, IH. intuition.
Qed.

Lemma unique_sorted (a : list Z) : StronglySorted Z.lt (Numpy.unique a).
Proof.
  unfold Numpy.unique. induction a; simpl; [constructor | now apply insert_sorted].
Qed.

Lemma sorted_NoDup (l : list Z) : StronglySorted Z.lt l -> NoDup l.
Proof.
  induction 1 as [|x l Hs IH Hall]; constructor; [|exact IH].
  intros Hin. rewrite Forall_forall in Hall. specialize (Hall x Hin). lia.
Qed.

(** An increasing list of [n] integers that all lie in [a, a+n) is the
    list [a, a+1, ..., a+n-1]. *)
Lemma sorted_dense (l : list Z) :
  StronglySorted Z.lt l ->
  forall a : nat,
    (forall y, In y l -> Z.of_nat a <= y < Z.of_nat (a + length l)) ->
    l = map Z.of_nat (seq a (length l)).
Proof.
  induction 1 as [|x l Hs IH Hall]; intros a Hin; [reflexivity|].
  rewrite Forall_forall in Hall.
  assert (Hl : l = map Z.of_nat (seq (S a) (length l))).
  { apply IH. intros y Hy.
    pose proof (Hall y Hy). pose proof (Hin y (or_intror Hy)).
    pose proof (Hin x (or_introl eq_refl)). simpl in *. lia. }
  assert (Hx : x = Z.of_nat a).
  { pose proof (Hin x (or_introl eq_refl)) as Hb. simpl in Hb.
    destruct l as [|y l'].
    - simpl in Hb. lia.
    - simpl in Hl. injection Hl as Hy _.
      pose proof (Hall y (or_introl eq_refl)). lia. }
  simpl. now rewrite Hx, <- Hl.
Qed.

Lemma classes_contiguous_unique (labels : list Z) (k : Z) :
  (forall c, In c labels <-> 0 <= c < k) ->
  Numpy.unique labels = map Z.of_nat (seq 0 (Z.to_nat k)).
Proof.
  intros Hk.
  assert (Hlen : length (Numpy.unique labels) = Z.to_nat k).
  { apply Nat.le_antisymm.
    - rewrite <- (length_seq (Z.to_nat k) 0), <- (length_map Z.of_nat).
      apply NoDup_incl_length; [apply sorted_NoDup, unique_sorted|].
      intros c Hc. apply unique_In, Hk in Hc.
      apply in_map_iff. exists (Z.to_nat c). split; [lia|].
      apply in_seq. lia.
    - rewrite <- (length_seq (Z.to_nat k) 0), <- (length_map Z.of_nat).
      apply NoDup_incl_length.
      + apply sorted_NoDup.
        clear. generalize 0%nat. induction (Z.to_nat k) as [|n IH]; intros a; simpl.
        * constructor.
        * constructor; [apply IH|].
          apply Forall_forall. intros y Hy.
          apply in_map_iff in Hy as (i & <- & Hi). apply in_seq in Hi. lia.
      + intros c Hc. apply in_map_iff in Hc as (i & <- & Hi).
        apply in_seq in Hi. apply unique_In, Hk. lia. }
  rewrite <- Hlen. apply sorted_dense; [apply unique_sorted|].
  intros c Hc. apply unique_In, Hk in Hc. lia.
Qed.

(** ** Integer indexing *)

Lemma item_map {A B : Type} (f : A -> B) (a : list A) (i : Z) :
  Numpy.item (map f a) i =
  match Numpy.item a i with
  | Ok v => Ok (f v)
  | Raise e => Raise e
  end.
Proof.
  unfold Numpy.item. rewrite length_map.
  destruct (_ && _); [|reflexivity].
  rewrite nth_error_map. now destruct (nth_error a _).
Qed.

Lemma item_range (n : nat) (c : Z) :
  0 <= c < Z.of_nat n ->
  Numpy.item (map Z.of_nat (seq 0 n)) c = Ok c.
Proof.
  intros Hc. unfold Numpy.item. rewrite length_map, length_seq.
  destruct (Z.ltb_spec c 0); [lia|].
  destruct (Z.leb_spec 0 c); [|lia].
  destruct (Z.ltb_spec c (Z.of_nat n)); [|lia]. simpl.
  rewrite nth_error_map, nth_error_seq.
  destruct (Nat.ltb_spec (Z.to_nat c) n); [|lia].
  simpl. f_equal. lia.
Qed.

Lemma item_Ok_nonneg {A : Type} (a : list A) (i : Z) (v : A) :
  0 <= i -> Numpy.item a i = Ok v -> i < Z.of_nat (length a).
Proof.
  unfold Numpy.item. intros Hi.
  destruct (Z.ltb_spec i 0); [lia|].
  destruct (Z.leb_spec 0 i); [|lia].
  destruct (Z.ltb_spec i (Z.of_nat (length a))); [lia | discriminate].
Qed.

(** ** Sample weights *)

Lemma count_pos (labels : list Z) (c : Z) :
  In c labels -> 0 < Numpy.count labels c.
Proof.
  intros Hin. unfold Numpy.count.
  apply (count_occ_In Z.eq_dec) in Hin. lia.
Qed.

Lemma classes_contiguous_counted (labels : list Z) :
  classes_contiguous labels ->
  forall c, In c labels -> class_counted labels c.
Proof.
  intros [k Hk] c Hc. unfold class_counted, Numpy.unique_counts. simpl.
  rewrite (classes_contiguous_unique labels k Hk), item_map, item_range.
  - reflexivity.
  - apply Hk in Hc. lia.
Qed.

Lemma counted_sample_weights (labels : list Z) :
  (forall c, In c labels -> class_counted labels c) ->
  compute_sample_weights labels = Ok (inverse_class_frequency labels).
Proof.
  intros Hcounted. unfold compute_sample_weights, Numpy.take.
  apply mapM_Ok_map. intros c Hc.
  rewrite item_map. now rewrite (Hcounted c Hc).
Qed.

Lemma mass_of_constant_weight (f : Z -> Q) (c : Z) (l : list Z) :
  class_mass l (map f l) c ==
  inject_Z (Z.of_nat (count_occ Z.eq_dec l c)) * f c.
Proof.
  unfold class_mass.
  induction l as [|x l IH]; cbn [combine map filter fst snd count_occ].
  - cbn. ring.
  - destruct (Z.eq_dec x c) as [->|Hne].
    + rewrite Z.eqb_refl. cbn [map snd Qsum]. rewrite IH.
      rewrite Nat2Z.inj_succ. unfold Z.succ. rewrite inject_Z_plus. ring.
    + destruct (Z.eqb_spec x c); [contradiction | exact IH].
Qed.

Lemma inverse_class_frequency_mass (labels : list Z) (c : Z) :
  In c labels ->
  class_mass labels (inverse_class_frequency labels) c == 1.
Proof.
  intros Hc. unfold inverse_class_frequency.
  rewrite mass_of_constant_weight. fold (Numpy.count labels c).
  pose proof (count_pos labels c Hc) as Hpos.
  field. intros H0.
  assert (inject_Z 0 < inject_Z (Numpy.count labels c))%Q as Hlt
      by (rewrite <- Zlt_Qlt; exact Hpos).
  rewrite H0 in Hlt. now apply Qlt_irrefl in Hlt.
Qed.

(** C1. When every class that occurs in the label list is counted,
    [compute_sample_weights] gives example [i] the weight one over the
    number of examples of its class, so the weights of every class add up
    to 1; the eight labels with counts 0:4, 1:2, 2:1, 3:1 get the weights
    1/4, 1/2, 1 and 1 by class. *)
Theorem sample_weights_inverse_class_count :
  (forall labels,
      (forall c, In c labels -> class_counted labels c) ->
      exists w,
        compute_sample_weights labels = Ok w /\
        length w = length labels /\
        (forall i, (i < length labels)%nat ->
                   nth i w 0%Q =
                   (1 / inject_Z (Numpy.count labels (nth i labels 0%Z)))%Q) /\
        (forall c, In c labels -> class_mass labels w c == 1)) /\
  (forall c, In c toy_labels -> class_counted toy_labels c) /\
  map (Numpy.count toy_labels) [0; 1; 2; 3] = [4; 2; 1; 1] /\
  compute_sample_weights toy_labels =
  Ok [1 # 4; 1 # 2; 1 # 4; 1; 1 # 4; 1; 1 # 2; 1 # 4]%Q.
Proof.
  split; [|split; [|split; reflexivity]].
  - intros labels Hcounted. exists (inverse_class_frequency labels).
    split; [now apply counted_sample_weights|].
    split; [apply length_map|].
    split; [|intros c Hc; now apply inverse_class_frequency_mass].
    intros i Hi. unfold inverse_class_frequency.
    etransitivity;
      [|apply (map_nth (fun l => (1 / inject_Z (Numpy.count labels l))%Q)
                       labels 0%Z i)].
    apply nth_indep. now rewrite length_map.
  - intros c Hc. simpl in Hc.
    repeat (destruct Hc as [<-|Hc]; [reflexivity|]). destruct Hc.
Qed.

Lemma sample_weights_inverse_class_count_witness :
  (forall c, In c toy_labels -> class_counted toy_labels c) /\
  exists w,
    compute_sample_weights toy_labels = Ok w /\
    length w = length toy_labels /\
    (forall c, In c toy_labels -> class_mass toy_labels w c == 1).
Proof.
  split.
  - exact (proj1 (proj2 sample_weights_inverse_class_count)).
  - destruct (proj1 sample_weights_inverse_class_count toy_labels
                (proj1 (proj2 sample_weights_inverse_class_count)))
      as (w & Hw & Hlen & _ & Hmass).
    exists w. repeat split; assumption.
Defined.

(** With negative labels the indexing wraps around, so a list such as
    [-1] is weighted correctly although its classes are not [0 .. k-1],
    and [0, 0, -1] is weighted wrongly without any error. *)
Example negative_label_wraps_around :
  compute_sample_weights [-1] = Ok (inverse_class_frequency [-1]) /\
  compute_sample_weights [0; 0; -1] = Ok [1; 1; 1 # 2]%Q /\
  inverse_class_frequency [0; 0; -1] = [1 # 2; 1 # 2; 1]%Q.
Proof. repeat split. Qed.

Lemma sample_weights_Ok_contiguous (labels : list Z) (w : list Q) :
  Forall (fun l => 0 <= l) labels ->
  compute_sample_weights labels = Ok w ->
  classes_contiguous labels.
Proof.
  intros Hnn Hok. unfold compute_sample_weights, Numpy.take in Hok.
  apply mapM_Ok_inv in Hok as [_ Hitems].
  set (u := Numpy.unique labels).
  assert (Hbound : forall c, In c labels -> 0 <= c < Z.of_nat (length u)).
  { intros c Hc. rewrite Forall_forall in Hnn. pose proof (Hnn c Hc) as H0.
    destruct (Hitems c Hc) as [b Hb].
    apply item_Ok_nonneg in Hb; [|exact H0].
    cbn [Numpy.unique_counts snd] in Hb. rewrite !length_map in Hb.
    fold u in Hb. lia. }
  assert (Hu : u = map Z.of_nat (seq 0 (length u))).
  { apply sorted_dense; [apply unique_sorted|].
    intros c Hc. apply (proj1 (unique_In labels c)) in Hc.
    apply Hbound in Hc. lia. }
  exists (Z.of_nat (length u)). intros c. split; [apply Hbound|].
  intros Hc. apply (proj1 (unique_In labels c)). fold u. rewrite Hu.
  apply in_map_iff. exists (Z.to_nat c). split; [lia|].
  apply in_seq. lia.
Qed.

(** C10, as the claim words it, fails on negative labels: the one-element
    list [-1] is weighted with its inverse class frequency although its
    set of labels is not [0 .. k-1]. *)
Lemma negative_labels_need_no_contiguous_classes :
  compute_sample_weights [-1] = Ok (inverse_class_frequency [-1]) /\
  ~ classes_contiguous [-1].
Proof.
  split; [reflexivity|].
  intros [k Hk].
  assert (H : 0 <= -1 < k) by (apply Hk; simpl; auto).
  lia.
Qed.

(** C10. The per-class weights are indexed by the raw label. For labels
    that are not negative, [compute_sample_weights] returns at all exactly
    when the labels that occur are [0, ..., k-1], and then it returns the
    inverse class frequencies; the label list [0, 2] makes the indexing
    run out of range. A negative label is read from the end of the
    per-class weights: the list [0, 0, -1] is given the weights of the
    other class without any error. *)
Theorem sample_weights_need_contiguous_classes :
  (forall labels,
      Forall (fun l => 0 <= l) labels ->
      ((exists w, compute_sample_weights labels = Ok w) <->
       classes_contiguous labels) /\
      (compute_sample_weights labels = Ok (inverse_class_frequency labels) <->
       classes_contiguous labels)) /\
  ~ classes_contiguous [0; 2] /\
  compute_sample_weights [0; 2] = Raise IndexError /\
  compute_sample_weights [0; 0; -1] = Ok [1; 1; 1 # 2]%Q /\
  inverse_class_frequency [0; 0; -1] = [1 # 2; 1 # 2; 1]%Q.
Proof.
  split; [|split; [|repeat split]].
  - intros labels Hnn.
    assert (Hfwd : classes_contiguous labels ->
                   compute_sample_weights labels =
                   Ok (inverse_class_frequency labels)).
    { intros Hc. apply counted_sample_weights.
      now apply classes_contiguous_counted. }
    split; split.
    + intros [w Hw]. eapply sample_weights_Ok_contiguous; eassumption.
    + intros Hc. eexists. now apply Hfwd.
    + intros Hw. eapply sample_weights_Ok_contiguous; eassumption.
    + exact Hfwd.
  - intros [k Hk].
    assert (H2 : 0 <= 2 < k) by (apply Hk; simpl; auto).
    assert (H1 : In 1 [0; 2]) by (apply Hk; lia).
    simpl in H1. intuition lia.
Qed.

Lemma sample_weights_need_contiguous_classes_witness :
  Forall (fun l => 0 <= l) toy_labels /\
  ((exists w, compute_sample_weights toy_labels = Ok w) <->
   classes_contiguous toy_labels) /\
  (compute_sample_weights toy_labels = Ok (inverse_class_frequency toy_labels) <->
   classes_contiguous toy_labels).
Proof.
  assert (Hnn : Forall (fun l => 0 <= l) toy_labels)
    by (unfold toy_labels; repeat constructor; lia).
  split; [exact Hnn|].
  exact (proj1 sample_weights_need_contiguous_classes toy_labels Hnn).
Defined.

(** ** Decimal literals *)

Lemma digits_are_digits (d : Decimal.uint) :
  Forall (fun c => is_digit c = true) (digits d).
Proof.
  unfold digits. induction d; simpl; constructor; auto.
Qed.

Ltac eval_digit :=
  match goal with
  | |- context [Python.digit_of ?c] =>
      let v := eval vm_compute in (Python.digit_of c) in
      change (Python.digit_of c) with v; cbv iota
  end.

Lemma int_digits_acc (d : Decimal.uint) (p : positive) :
  Python.int_digits (Z.pos p) true (digits d) =
  Some (Z.pos (Pos.of_uint_acc d p)).
Proof.
  unfold digits. revert p.
  induction d; intros p;
    cbn [NilEmpty.string_of_uint list_ascii_of_string Python.int_digits
         Pos.of_uint_acc];
    [reflexivity|..];
    (eval_digit; rewrite <- IHd; f_equal; lia).
Qed.

Lemma int_digits_value (d : Decimal.uint) :
  d <> Decimal.Nil ->
  forall b, Python.int_digits 0 b (digits d) = Some (Z.of_N (Pos.of_uint d)).
Proof.
  unfold digits.
  induction d; intros Hnil b; [contradiction|..];
    cbn [NilEmpty.string_of_uint list_ascii_of_string Python.int_digits
         Pos.of_uint];
    eval_digit; change (10 * 0) with 0; cbn [Z.add N.of_nat Z.of_N].
  - destruct d; try (apply IHd; discriminate). reflexivity.
  - apply (int_digits_acc d 1).
  - apply (int_digits_acc d 2).
  - apply (int_digits_acc d 3).
  - apply (int_digits_acc d 4).
  - apply (int_digits_acc d 5).
  - apply (int_digits_acc d 6).
  - apply (int_digits_acc d 7).
  - apply (int_digits_acc d 8).
  - apply (int_digits_acc d 9).
Qed.

Lemma digit_facts (c : ascii) :
  is_digit c = true ->
  Python.is_space c = false /\ c <> "-"%char /\ c <> "+"%char.
Proof.
  unfold is_digit, Python.digit_of.
  destruct (((48 <=? nat_of_ascii c) && (nat_of_ascii c <=? 57))%nat) eqn:E;
    [intros _ | discriminate].
  repeat split.
  - apply andb_true_iff in E as [Hlo Hhi].
    apply Nat.leb_le in Hlo, Hhi.
    unfold Python.is_space.
    destruct (Nat.leb_spec 9 (nat_of_ascii c)), (Nat.leb_spec (nat_of_ascii c) 13),
      (Nat.eqb_spec (nat_of_ascii c) 32), (Nat.eqb_spec (nat_of_ascii c) 133),
      (Nat.eqb_spec (nat_of_ascii c) 160);
      simpl; try reflexivity; lia.
  - intros ->. vm_compute in E. discriminate.
  - intros ->. vm_compute in E. discriminate.
Qed.

Lemma lstrip_digits (s : list ascii) :
  Forall (fun c => is_digit c = true) s -> Python.lstrip s = s.
Proof.
  intros H. destruct H as [|c s Hc _]; [reflexivity|].
  simpl. now rewrite (proj1 (digit_facts c Hc)).
Qed.

Lemma strip_digits (s : list ascii) :
  Forall (fun c => is_digit c = true) s -> Python.strip s = s.
Proof.
  intros H. unfold Python.strip.
  rewrite (lstrip_digits s H), lstrip_digits, rev_involutive; [reflexivity|].
  now apply Forall_rev.
Qed.

Lemma str_of_N (n : N) :
  Python.str (Z.of_N n) = NilEmpty.string_of_uint (N.to_uint n).
Proof.
  destruct n as [|p]; [reflexivity|].
  unfold Python.str. simpl.
  pose proof (DecimalPos.Unsigned.to_uint_nonnil p).
  now destruct (Pos.to_uint p).
Qed.

(** [int] reads back the decimal numeral of a natural number. *)
Lemma int_str (n : N) : Python.int (Python.str (Z.of_N n)) = Ok (Z.of_N n).
Proof.
  pose proof (str_of_N n) as Hstr.
  assert (Hnil : N.to_uint n <> Decimal.Nil).
  { destruct n as [|p]; [discriminate|].
    apply DecimalPos.Unsigned.to_uint_nonnil. }
  unfold Python.int. rewrite Hstr.
  fold (digits (N.to_uint n)).
  pose proof (digits_are_digits (N.to_uint n)) as Hd.
  rewrite (strip_digits _ Hd).
  pose proof (int_digits_value (N.to_uint n) Hnil false) as Hv.
  change (Pos.of_uint (N.to_uint n)) with (N.of_uint (N.to_uint n)) in Hv.
  rewrite DecimalN.Unsigned.of_to in Hv.
  destruct (digits (N.to_uint n)) as [|c s] eqn:E.
  - simpl in Hv. discriminate.
  - inversion Hd as [|? ? Hc _]; subst.
    destruct (digit_facts c Hc) as (_ & Hminus & Hplus).
    clear E Hd Hc.
    destruct c as [[] [] [] [] [] [] [] []]; try congruence;
      cbv iota; rewrite Hv; reflexivity.
Qed.

(** ** Choice of the logged checkpoint *)

Lemma split_no_separator (sep : ascii) (s : string) :
  Forall (fun c => c <> sep) (list_ascii_of_string s) ->
  Python.split sep s = [s].
Proof.
  induction s as [|c s IH]; intros H; simpl; [reflexivity|].
  inversion H as [|? ? Hc Hs]; subst.
  destruct (Ascii.eqb_spec c sep); [contradiction|].
  now rewrite (IH Hs).
Qed.

Lemma checkpoint_dir_split (step : N) :
  Python.split "-" (checkpoint_dir step) =
  ["checkpoint"%string; Python.str (Z.of_N step)].
Proof.
  unfold checkpoint_dir.
  assert (Hs : Python.split "-" (Python.str (Z.of_N step)) =
               [Python.str (Z.of_N step)]).
  { apply split_no_separator. rewrite str_of_N.
    eapply Forall_impl; [|apply digits_are_digits].
    intros c Hc. apply digit_facts in Hc. tauto. }
  cbn -[Python.str]. now rewrite Hs.
Qed.

Lemma checkpoint_dir_step (step : N) :
  (part <- Python.getitem (Python.split "-" (checkpoint_dir step)) 1 ;;
   Python.int part) = Ok (Z.of_N step).
Proof.
  rewrite checkpoint_dir_split. cbn [Python.getitem nth_error bind].
  apply int_str.
Qed.

Lemma fold_min_spec (xs : list Z) (x : Z) :
  In (fold_left Z.min xs x) (x :: xs) /\
  forall y, In y (x :: xs) -> fold_left Z.min xs x <= y.
Proof.
  revert x. induction xs as [|z xs IH]; intros x; simpl.
  - split; [now left | intros y [<-|[]]; lia].
  - destruct (IH (Z.min x z)) as [Hin Hle]. split.
    + destruct Hin as [Hin|Hin]; [|now right; right].
      rewrite <- Hin. destruct (Z.min_spec x z) as [[_ ->]|[_ ->]]; auto.
    + intros y Hy.
      assert (Hm : fold_left Z.min xs (Z.min x z) <= Z.min x z)
        by (apply Hle; now left).
      destruct Hy as [<-|[<-|Hy]]; [lia | lia |].
      apply Hle. now right.
Qed.

Lemma best_ckpt_of_steps (steps : list N) :
  steps <> [] ->
  exists best,
    In best steps /\
    (forall s, In s steps -> (best <= s)%N) /\
    best_ckpt (map checkpoint_dir steps) = Ok (Z.of_N best).
Proof.
  intros Hne. unfold best_ckpt.
  assert (Hparse :
            mapM (fun fol => part <- Python.getitem (Python.split "-" fol) 1 ;;
                             Python.int part)
                 (map checkpoint_dir steps) = Ok (map Z.of_N steps)).
  { clear Hne. induction steps as [|s steps IH]; [reflexivity|].
    cbn [map mapM]. rewrite checkpoint_dir_step. cbn [bind].
    rewrite IH. reflexivity. }
  rewrite Hparse. cbn [bind].
  destruct steps as [|s0 steps]; [contradiction|].
  cbn [map Numpy.min].
  destruct (fold_min_spec (map Z.of_N steps) (Z.of_N s0)) as [Hin Hle].
  change (Z.of_N s0 :: map Z.of_N steps) with (map Z.of_N (s0 :: steps)) in *.
  apply in_map_iff in Hin as (best & Hbest & Hin).
  exists best. rewrite <- Hbest. repeat split; [exact Hin|].
  intros s Hs. specialize (Hle (Z.of_N s) (in_map Z.of_N _ _ Hs)). lia.
Qed.

Lemma checkpoint_dir_inj (a b : N) :
  checkpoint_dir a = checkpoint_dir b -> a = b.
Proof.
  intros H. pose proof (checkpoint_dir_step a) as Ha.
  rewrite H, checkpoint_dir_step in Ha. inversion Ha. lia.
Qed.

(** C3. Whatever checkpoint directories the output directory lists, and in
    whatever order, the directory logged as the best model is the listed
    one with the smallest step number (steps are numbers that fit 64
    bits). The recorded accuracy plays no part: whenever a checkpoint was
    saved earlier than the one of best accuracy, the logged directory is
    not the one of best accuracy; of [three_checkpoints] the one of step
    500 is logged although the one of step 1000 has the best accuracy. *)
Theorem best_checkpoint_is_minimum_step :
  (forall steps : list N,
      steps <> [] ->
      Forall (fun s => Numpy.fits_int64 (Z.of_N s)) steps ->
      exists best,
        In best steps /\
        (forall s, In s steps -> (best <= s)%N) /\
        In (checkpoint_dir best) (map checkpoint_dir steps) /\
        best_model_dir (map checkpoint_dir steps) = Ok (checkpoint_dir best)) /\
  (forall ckpts best earlier,
      Forall (fun c => Numpy.fits_int64 (Z.of_N (ckpt_step c))) ckpts ->
      best_by_accuracy ckpts = Some best ->
      In earlier ckpts ->
      (ckpt_step earlier < ckpt_step best)%N ->
      best_model_dir (map (fun c => checkpoint_dir (ckpt_step c)) ckpts)
      <> Ok (checkpoint_dir (ckpt_step best))) /\
  best_model_dir (map (fun c => checkpoint_dir (ckpt_step c)) three_checkpoints)
  = Ok "checkpoint-500"%string /\
  option_map ckpt_step (best_by_accuracy three_checkpoints) = Some 1000%N.
Proof.
  assert (Hmin : forall steps : list N,
             steps <> [] ->
             exists best,
               In best steps /\
               (forall s, In s steps -> (best <= s)%N) /\
               best_model_dir (map checkpoint_dir steps)
               = Ok (checkpoint_dir best)).
  { intros steps Hne.
    destruct (best_ckpt_of_steps steps Hne) as (best & Hin & Hmin & Hbest).
    exists best. repeat split; try assumption.
    unfold best_model_dir. rewrite Hbest. reflexivity. }
  split; [|split; [|split; reflexivity]].
  - intros steps Hne _.
    destruct (Hmin steps Hne) as (best & Hin & Hle & Hdir).
    exists best. repeat split; try assumption. now apply in_map.
  - intros ckpts best earlier _ _ Hin Hlt Hdir.
    assert (Hne : map ckpt_step ckpts <> []).
    { destruct ckpts; [contradiction | discriminate]. }
    destruct (Hmin (map ckpt_step ckpts) Hne) as (least & _ & Hle & Hleast).
    rewrite map_map in Hleast. rewrite Hleast in Hdir.
    assert (Heq : least = ckpt_step best)
      by (apply checkpoint_dir_inj; congruence).
    specialize (Hle (ckpt_step earlier) (in_map ckpt_step _ _ Hin)). lia.
Qed.

Lemma best_checkpoint_is_minimum_step_witness :
  [1500; 500; 1000]%N <> [] /\
  Forall (fun s => Numpy.fits_int64 (Z.of_N s)) [1500; 500; 1000]%N /\
  exists best,
    In best [1500; 500; 1000]%N /\
    (forall s, In s [1500; 500; 1000]%N -> (best <= s)%N) /\
    In (checkpoint_dir best) (map checkpoint_dir [1500; 500; 1000]%N) /\
    best_model_dir (map checkpoint_dir [1500; 500; 1000]%N)
    = Ok (checkpoint_dir best).
Proof.
  assert (Hne : [1500; 500; 1000]%N <> []) by discriminate.
  assert (Hfit : Forall (fun s => Numpy.fits_int64 (Z.of_N s)) [1500; 500; 1000]%N)
    by (repeat constructor; unfold Numpy.fits_int64; simpl; lia).
  split; [exact Hne|]. split; [exact Hfit|].
  exact (proj1 best_checkpoint_is_minimum_step [1500; 500; 1000]%N Hne Hfit).
Defined.

(** ** Loss selection *)

Lemma view_rows_Ok (t : Torch.tensor) (k : Z) :
  0 < k -> Z.of_nat (Torch.numel t) mod k = 0 ->
  Torch.view_rows t k =
  Ok {| Torch.shape := [Z.to_nat (Z.of_nat (Torch.numel t) / k); Z.to_nat k];
        Torch.elt := Torch.elt t |}.
Proof.
  intros Hk Hmod. unfold Torch.view_rows.
  destruct (Z.ltb_spec 0 k); [|lia].
  rewrite Hmod. reflexivity.
Qed.

(** The flattening of the rows of one logit is the flattening of the
    logits. *)
Lemma view_flat_single_column (t : Torch.tensor) :
  Torch.view_flat
    {| Torch.shape := [Z.to_nat (Z.of_nat (Torch.numel t) / 1); Z.to_nat 1];
       Torch.elt := Torch.elt t |} =
  {| Torch.shape := [Torch.numel t]; Torch.elt := Torch.elt t |}.
Proof.
  unfold Torch.view_flat. cbn [Torch.shape Torch.elt]. f_equal. f_equal.
  unfold Torch.numel at 1. cbn [Torch.shape fold_right].
  rewrite Z.div_1_r, Nat2Z.id. change (Z.to_nat 1) with 1%nat. lia.
Qed.

(** [compute_loss] once the logits are viewed as rows of [n_labels]. *)
Lemma compute_loss_of_rows (self : ViralityClassifier)
      (logits labels : Torch.tensor) :
  0 < n_labels self ->
  Z.of_nat (Torch.numel logits) mod n_labels self = 0 ->
  compute_loss self logits labels =
  let rows :=
    {| Torch.shape := [Z.to_nat (Z.of_nat (Torch.numel logits) / n_labels self);
                       Z.to_nat (n_labels self)];
       Torch.elt := Torch.elt logits |} in
  let target :=
    {| Torch.shape := [Torch.numel labels]; Torch.elt := Torch.elt labels |} in
  if n_labels self =? 1 then
    Torch.F.mse_loss (Torch.view_flat rows) (Torch.to_float target)
  else if n_labels self =? 2 then
    Torch.F.binary_cross_entropy_with_logits rows target
  else Torch.F.cross_entropy rows target.
Proof.
  intros Hk Hmod. unfold compute_loss.
  rewrite (view_rows_Ok _ _ Hk Hmod). reflexivity.
Qed.

(** A target of one dimension never has the size of rows of logits. *)
Lemma binary_cross_entropy_of_rows (m k n : nat) (d d' : Torch.dtype) :
  Torch.F.binary_cross_entropy_with_logits
    {| Torch.shape := [m; k]; Torch.elt := d |}
    {| Torch.shape := [n]; Torch.elt := d' |} =
  Raise (ValueError ("Target size (" ++ Torch.Size_str [n]
                     ++ ") must be the same as input size ("
                     ++ Torch.Size_str [m; k] ++ ")")).
Proof.
  unfold Torch.F.binary_cross_entropy_with_logits. cbn [Torch.shape].
  destruct (list_eq_dec Nat.eq_dec [n] [m; k]); [discriminate | reflexivity].
Qed.

(** C2. [compute_loss] picks the functional by the number of labels [k]
    alone, whatever the batch holds: for [k = 1] it calls the mean squared
    error on one logit per example (the flattened logits, floating point
    numbers as a linear layer returns them) and on the flattened labels
    cast to float, for [k = 2] the binary cross entropy
    with logits on the rows of two logits and the flattened labels, for
    [k >= 3] the cross entropy on the rows of [k] logits and the flattened
    labels. The call made for [k = 2] raises [ValueError] on every batch,
    since a target of one dimension never has the size of the rows: with
    two labels [compute_loss] never gives a loss. Two batches that are
    given a loss are given the same functional. *)
Theorem loss_selected_by_cardinality (self : ViralityClassifier) :
  (forall logits labels,
      0 < n_labels self ->
      Z.of_nat (Torch.numel logits) mod n_labels self = 0 ->
      let m := Z.to_nat (Z.of_nat (Torch.numel logits) / n_labels self) in
      let n := Torch.numel labels in
      (n_labels self = 1 ->
       Torch.elt logits = Torch.float32 ->
       compute_loss self logits labels =
       Torch.F.mse_loss
         {| Torch.shape := [Torch.numel logits]; Torch.elt := Torch.float32 |}
         {| Torch.shape := [n]; Torch.elt := Torch.float32 |}) /\
      (n_labels self = 2 ->
       compute_loss self logits labels =
       Torch.F.binary_cross_entropy_with_logits
         {| Torch.shape := [m; 2%nat]; Torch.elt := Torch.elt logits |}
         {| Torch.shape := [n]; Torch.elt := Torch.elt labels |}) /\
      (3 <= n_labels self ->
       compute_loss self logits labels =
       Torch.F.cross_entropy
         {| Torch.shape := [m; Z.to_nat (n_labels self)];
            Torch.elt := Torch.elt logits |}
         {| Torch.shape := [n]; Torch.elt := Torch.elt labels |})) /\
  (n_labels self = 2 ->
   forall logits labels,
     (Z.of_nat (Torch.numel logits) mod 2 = 0 ->
      exists msg, compute_loss self logits labels = Raise (ValueError msg)) /\
     (Z.of_nat (Torch.numel logits) mod 2 <> 0 ->
      compute_loss self logits labels = Raise RuntimeError)) /\
  (forall logits labels logits' labels' l l',
      compute_loss self logits labels = Ok l ->
      compute_loss self logits' labels' = Ok l' ->
      functional_of l = functional_of l').
Proof.
  split; [|split].
  - intros logits labels Hk Hmod m n.
    rewrite (compute_loss_of_rows self logits labels Hk Hmod). cbv zeta.
    repeat split; intros Hn.
    + intros Hfloat. rewrite Hn. change (1 =? 1) with true. cbv iota.
      rewrite view_flat_single_column, Hfloat. reflexivity.
    + subst m. rewrite Hn. reflexivity.
    + destruct (Z.eqb_spec (n_labels self) 1); [lia|].
      destruct (Z.eqb_spec (n_labels self) 2); [lia|]. reflexivity.
  - intros Hn logits labels. split.
    + intros Hmod. rewrite <- Hn in Hmod.
      rewrite (compute_loss_of_rows self logits labels ltac:(lia) Hmod).
      cbv zeta. rewrite Hn. change (2 =? 1) with false.
      change (2 =? 2) with true. cbv iota.
      rewrite binary_cross_entropy_of_rows. eauto.
    + intros Hmod. unfold compute_loss, Torch.view_rows. rewrite Hn.
      change (0 <? 2) with true.
      destruct (Z.eqb_spec (Z.of_nat (Torch.numel logits) mod 2) 0);
        [contradiction | reflexivity].
  - intros logits labels logits' labels' l l'. unfold compute_loss.
    destruct (Torch.view_rows logits _) as [r|]; [|discriminate].
    destruct (Torch.view_rows logits' _) as [r'|]; [|discriminate].
    cbn [bind].
    unfold Torch.F.mse_loss, Torch.F.binary_cross_entropy_with_logits,
      Torch.F.cross_entropy.
    destruct (n_labels self =? 1); [|destruct (n_labels self =? 2)];
      intros H H';
      repeat match type of H with
             | context [if ?c then _ else _] => destruct c
             | context [match ?c with _ => _ end] => destruct c
             end; try discriminate;
      repeat match type of H' with
             | context [if ?c then _ else _] => destruct c
             | context [match ?c with _ => _ end] => destruct c
             end; try discriminate;
      inversion H; inversion H'; reflexivity.
Qed.

Example model_init : ViralityClassifier_init tiny_bert 6 4 (1 # 5) = Ok model.
Proof. reflexivity. Qed.

Example two_label_model_init :
  ViralityClassifier_init tiny_bert 6 2 (1 # 5) = Ok two_label_model.
Proof. reflexivity. Qed.

Lemma loss_selected_by_cardinality_witness :
  n_labels two_label_model = 2 /\
  Z.of_nat (Torch.numel (float_tensor [4; 2]%nat)) mod 2 = 0 /\
  exists msg,
    compute_loss two_label_model (float_tensor [4; 2]%nat) (int_tensor [4%nat])
    = Raise (ValueError msg).
Proof.
  split; [reflexivity|]. split; [reflexivity|].
  exact (proj1 (proj1 (proj2 (loss_selected_by_cardinality two_label_model))
                      eq_refl (float_tensor [4; 2]%nat) (int_tensor [4%nat]))
               eq_refl).
Defined.

(** The branches for one, two and four labels on batches of eight
    examples. *)
Example loss_branches :
  let with_labels k := {| bert := tiny_bert; n_labels := k; classifier := None;
                          bert_processor := [] |} in
  compute_loss (with_labels 1) (float_tensor [8; 1]%nat) (int_tensor [8%nat])
  = Ok (Torch.mse_loss (float_tensor [8%nat]) (float_tensor [8%nat])) /\
  compute_loss (with_labels 2) (float_tensor [8; 2]%nat) (int_tensor [8%nat])
  = Raise (ValueError "Target size (torch.Size([8])) must be the same as input size (torch.Size([8, 2]))") /\
  compute_loss (with_labels 4) (float_tensor [8; 4]%nat) (int_tensor [8%nat])
  = Ok (Torch.cross_entropy (float_tensor [8; 4]%nat) (int_tensor [8%nat])) /\
  compute_loss (with_labels 4) (float_tensor [8; 4]%nat) (int_tensor [5%nat])
  = Raise (ValueError "Expected input batch_size (8) to match target batch_size (5).").
Proof. repeat split. Qed.

(** ** The fusion head *)

Lemma Linear_Ok_inv (i o : nat) (t t' : Torch.tensor) :
  Torch.apply_layer (Torch.Linear i o) t = Ok t' ->
  exists ds,
    Torch.shape t = ds ++ [i] /\
    Torch.shape t' = ds ++ [o] /\
    Torch.elt t = Torch.float32 /\
    Torch.elt t' = Torch.float32.
Proof.
  unfold Torch.apply_layer.
  destruct (rev (Torch.shape t)) as [|d ds] eqn:Hrev; [discriminate|].
  destruct (Nat.eqb_spec d i) as [->|]; [|discriminate].
  destruct (Torch.elt t) eqn:He; simpl; try discriminate.
  intros H. inversion H; subst; clear H. exists (rev ds). simpl.
  rewrite <- (rev_involutive (Torch.shape t)), Hrev. simpl. auto.
Qed.

Lemma Linear_Ok (i o : nat) (ds : list nat) (t : Torch.tensor) :
  Torch.shape t = ds ++ [i] ->
  Torch.elt t = Torch.float32 ->
  Torch.apply_layer (Torch.Linear i o) t =
  Ok {| Torch.shape := ds ++ [o]; Torch.elt := Torch.float32 |}.
Proof.
  intros Hs He. unfold Torch.apply_layer.
  rewrite Hs, rev_app_distr, He. simpl.
  rewrite Nat.eqb_refl, rev_involutive. reflexivity.
Qed.

Lemma init_Ok_inv (checkpoint : encoder) (n_features : nat) (k : Z)
      (dropout : Q) (self : ViralityClassifier) :
  ViralityClassifier_init checkpoint n_features k dropout = Ok self ->
  0 <= k /\
  bert self = checkpoint /\
  n_labels self = k /\
  bert_processor self =
  [Torch.Dropout dropout;
   Torch.Linear (hidden_size checkpoint) (hidden_size checkpoint / 3);
   Torch.ReLU;
   Torch.Linear (hidden_size checkpoint / 3)
                (if (n_features =? 0)%nat then Z.to_nat k else n_features)] /\
  classifier self =
  (if (n_features =? 0)%nat then None
   else Some [Torch.Linear (n_features * 2) n_features;
              Torch.ReLU;
              Torch.Linear n_features (Z.to_nat k)]).
Proof.
  unfold ViralityClassifier_init, Linear_init, Dropout_init.
  destruct (n_features =? 0)%nat; cbn [bind].
  - destruct (Qle_bool 0 dropout && Qle_bool dropout 1); [|discriminate].
    cbn [bind]. destruct (Z.ltb_spec k 0) as [|Hk]; [discriminate|].
    intros Hself; inversion Hself; subst; simpl; repeat split; auto.
  - destruct (Z.ltb_spec k 0) as [|Hk]; [discriminate|]. cbn [bind].
    destruct (Qle_bool 0 dropout && Qle_bool dropout 1); [|discriminate].
    cbn [bind].
    destruct (Z.ltb_spec (Z.of_nat n_features) 0) as [|_]; [lia|].
    intros Hself; inversion Hself; subst; simpl.
    rewrite Nat2Z.id. repeat split; auto.
Qed.

Lemma Sequential_app (pre post : list Torch.layer) (t : Torch.tensor) :
  Torch.Sequential (pre ++ post) t =
  (t' <- Torch.Sequential pre t ;; Torch.Sequential post t').
Proof.
  revert t. induction pre as [|l pre IH]; intros t; simpl; [reflexivity|].
  destruct (Torch.apply_layer l t); simpl; [apply IH | reflexivity].
Qed.

Lemma Sequential_ends_in_Linear (pre : list Torch.layer) (i o : nat)
      (t t' : Torch.tensor) :
  Torch.Sequential (pre ++ [Torch.Linear i o]) t = Ok t' ->
  exists ds, Torch.shape t' = ds ++ [o] /\ Torch.elt t' = Torch.float32.
Proof.
  rewrite Sequential_app.
  destruct (Torch.Sequential pre t) as [t1|]; [|discriminate].
  cbn [bind Torch.Sequential].
  destruct (Torch.apply_layer (Torch.Linear i o) t1) as [t2|] eqn:E;
    [|discriminate].
  cbn [bind]. intros H; inversion H; subst.
  apply Linear_Ok_inv in E as (ds & _ & Hs & _ & He). eauto.
Qed.

(** The down-projection maps a float tensor of shape [b, hidden] to
    [b, out], and accepts nothing else of two dimensions. *)
Lemma bert_processor_shape (p : Q) (h m out : nat) (t : Torch.tensor) :
  Torch.shape t = [m; h] ->
  Torch.elt t = Torch.float32 ->
  Torch.Sequential [Torch.Dropout p; Torch.Linear h (h / 3); Torch.ReLU;
                    Torch.Linear (h / 3) out] t =
  Ok {| Torch.shape := [m; out]; Torch.elt := Torch.float32 |}.
Proof.
  intros Hs He. cbn [Torch.Sequential].
  change (Torch.apply_layer (Torch.Dropout p) t) with (Ok t). cbn [bind].
  rewrite (Linear_Ok h (h / 3) [m] t Hs He). cbn [bind].
  match goal with
  | |- context [Torch.apply_layer Torch.ReLU ?x] =>
      change (Torch.apply_layer Torch.ReLU x) with (Ok x)
  end.
  cbn [bind]. rewrite (Linear_Ok (h / 3) out [m]); reflexivity.
Qed.

Lemma bert_processor_inv (p : Q) (h out : nat) (t t' : Torch.tensor) :
  Torch.Sequential [Torch.Dropout p; Torch.Linear h (h / 3); Torch.ReLU;
                    Torch.Linear (h / 3) out] t = Ok t' ->
  exists ds,
    Torch.shape t = ds ++ [h] /\
    Torch.shape t' = ds ++ [out] /\
    Torch.elt t' = Torch.float32.
Proof.
  cbn [Torch.Sequential].
  change (Torch.apply_layer (Torch.Dropout p) t) with (Ok t). cbn [bind].
  destruct (Torch.apply_layer (Torch.Linear h (h / 3)) t) as [t1|] eqn:E1;
    [|discriminate].
  cbn [bind].
  change (Torch.apply_layer Torch.ReLU t1) with (Ok t1). cbn [bind].
  destruct (Torch.apply_layer (Torch.Linear (h / 3) out) t1) as [t2|] eqn:E2;
    [|discriminate].
  cbn [bind]. intros H; inversion H; subst.
  apply Linear_Ok_inv in E1 as (ds & Hs & Hs1 & _ & _).
  apply Linear_Ok_inv in E2 as (ds' & Hs1' & Hs2 & _ & He).
  rewrite Hs1 in Hs1'. apply app_inj_tail in Hs1' as [-> _].
  exists ds'. auto.
Qed.

Lemma is_empty_1d_two (x y : nat) (l : list nat) :
  Torch.is_empty_1d (x :: y :: l) = false.
Proof. now destruct x. Qed.

(** The fusion classifier, applied to the concatenation of the reduced
    encoder output [a] with the features, returns only for an [a] and
    features of one shape [b, n_features]. *)
Lemma classifier_needs_features (nf out : nat) (a t' : Torch.tensor)
      (features : option Torch.tensor) :
  (0 < nf)%nat ->
  (exists ds, Torch.shape a = ds ++ [nf]) ->
  (fused <- Torch.cat_dim1 a features ;;
   Torch.Sequential [Torch.Linear (nf * 2) nf; Torch.ReLU; Torch.Linear nf out]
                    fused) = Ok t' ->
  exists f b, features = Some f /\
              Torch.shape f = [b; nf] /\
              Torch.shape a = [b; nf] /\
              Torch.shape t' = [b; out].
Proof.
  intros Hnf [ds Ha].
  destruct features as [f|]; [|discriminate].
  destruct (Torch.cat_dim1 a (Some f)) as [fused|] eqn:Hcat; [|discriminate].
  cbn [bind Torch.Sequential].
  destruct (Torch.apply_layer (Torch.Linear (nf * 2) nf) fused) as [t1|] eqn:E1;
    [|discriminate].
  cbn [bind].
  change (Torch.apply_layer Torch.ReLU t1) with (Ok t1). cbn [bind].
  destruct (Torch.apply_layer (Torch.Linear nf out) t1) as [t2|] eqn:E2;
    [|discriminate].
  cbn [bind]. intros H; inversion H; subst.
  apply Linear_Ok_inv in E1 as (ds1 & Hs & Hs1 & _ & _).
  apply Linear_Ok_inv in E2 as (ds' & Hs1' & Hs2 & _ & _).
  rewrite Hs1 in Hs1'. apply app_inj_tail in Hs1' as [-> _].
  assert (Hlast_a : last (Torch.shape a) 0%nat = nf)
    by (rewrite Ha; apply last_last).
  assert (Hlast_fused : last (Torch.shape fused) 0%nat = (nf * 2)%nat)
    by (rewrite Hs; apply last_last).
  unfold Torch.cat_dim1 in Hcat.
  destruct (Torch.is_empty_1d (Torch.shape f)).
  { injection Hcat as Hfused. rewrite <- Hfused in Hlast_fused.
    cbn [Torch.shape] in Hlast_fused. lia. }
  destruct (Torch.is_empty_1d (Torch.shape a)) eqn:Hempty.
  { destruct (Torch.shape a) as [|[|] [|]]; try discriminate.
    simpl in Hlast_a. lia. }
  destruct (Torch.shape a) as [|a0 [|a1 ar]] eqn:Hsa; try discriminate.
  destruct (Torch.shape f) as [|b0 [|b1 br]] eqn:Hsf; try discriminate.
  destruct (Nat.eqb_spec a0 b0) as [<-|]; [|discriminate].
  destruct (list_eq_dec Nat.eq_dec ar br) as [<-|]; [|discriminate].
  simpl in Hcat. injection Hcat as Hfused.
  rewrite <- Hfused in Hlast_fused, Hs.
  cbn [Torch.shape] in Hlast_fused, Hs.
  destruct ar as [|r ar].
  - simpl in Hlast_a, Hlast_fused.
    change [a0; (a1 + b1)%nat] with ([a0] ++ [(a1 + b1)%nat]) in Hs.
    apply app_inj_tail in Hs as [<- _].
    exists f, a0. repeat split; [|f_equal; f_equal; lia | exact Hs2].
    rewrite Hsf. f_equal. f_equal. lia.
  - change (last (a0 :: a1 :: r :: ar) 0%nat) with (last (r :: ar) 0%nat)
      in Hlast_a.
    change (last (a0 :: (a1 + b1)%nat :: r :: ar) 0%nat)
      with (last (r :: ar) 0%nat) in Hlast_fused.
    lia.
Qed.

Lemma forward_logits_width (checkpoint : encoder) (n_features : nat) (k : Z)
      (dropout : Q) (self : ViralityClassifier)
      (ids types mask : Torch.tensor) (features : option Torch.tensor)
      (logits : Torch.tensor) :
  ViralityClassifier_init checkpoint n_features k dropout = Ok self ->
  forward_logits self ids types mask features = Ok logits ->
  exists ds, Torch.shape logits = ds ++ [Z.to_nat k].
Proof.
  intros Hinit. apply init_Ok_inv in Hinit as (_ & _ & _ & Hproc & Hcls).
  unfold forward_logits. rewrite Hproc, Hcls.
  destruct (encode _ _ _ _) as [lhs|]; [|discriminate]. cbn [bind].
  destruct (Torch.select_first lhs) as [cls|]; [|discriminate]. cbn [bind].
  destruct (Torch.Sequential _ cls) as [l1|] eqn:E1; [|discriminate].
  cbn [bind].
  destruct (n_features =? 0)%nat.
  - intros H; inversion H; subst.
    apply bert_processor_inv in E1 as (ds & _ & Hs & _). eauto.
  - destruct (Torch.cat_dim1 l1 features) as [fused|]; [|discriminate].
    cbn [bind]. intros H.
    apply (Sequential_ends_in_Linear
             [Torch.Linear (n_features * 2) n_features; Torch.ReLU]) in H
      as (ds & Hs & _).
    eauto.
Qed.

Lemma forward_logits_needs_features (checkpoint : encoder) (n_features : nat)
      (k : Z) (dropout : Q) (self : ViralityClassifier)
      (ids types mask : Torch.tensor) (features : option Torch.tensor)
      (logits : Torch.tensor) :
  (0 < n_features)%nat ->
  ViralityClassifier_init checkpoint n_features k dropout = Ok self ->
  forward_logits self ids types mask features = Ok logits ->
  exists f b,
    features = Some f /\
    Torch.shape f = [b; n_features] /\
    Torch.shape logits = [b; Z.to_nat k].
Proof.
  intros Hnf Hinit. apply init_Ok_inv in Hinit as (_ & _ & _ & Hproc & Hcls).
  unfold forward_logits. rewrite Hproc, Hcls.
  destruct (Nat.eqb_spec n_features 0) as [|Hne]; [lia|].
  destruct (encode _ _ _ _) as [lhs|]; [|discriminate]. cbn [bind].
  destruct (Torch.select_first lhs) as [cls|] eqn:Esel; [|discriminate].
  cbn [bind].
  destruct (Torch.Sequential _ cls) as [l1|] eqn:E1; [|discriminate].
  cbn [bind]. intros H.
  apply bert_processor_inv in E1 as (ds & Hcs & Hl1 & _).
  destruct (classifier_needs_features n_features (Z.to_nat k) l1 logits
              features Hnf (ex_intro _ ds Hl1) H)
    as (f & b & Hf & Hfs & _ & Hls).
  eauto.
Qed.

Lemma forward_logits_defined (checkpoint : encoder) (n_features : nat) (k : Z)
      (dropout : Q) (self : ViralityClassifier) (b n : nat)
      (ids types mask : Torch.tensor) (features : option Torch.tensor) :
  encoder_contract checkpoint ->
  ViralityClassifier_init checkpoint n_features k dropout = Ok self ->
  Torch.shape ids = [b; S n] ->
  Torch.shape mask = [b; S n] ->
  Torch.shape types = [b; S n] ->
  (n_features = 0%nat \/
   exists f, features = Some f /\ Torch.shape f = [b; n_features]) ->
  forward_logits self ids types mask features =
  Ok {| Torch.shape := [b; Z.to_nat k]; Torch.elt := Torch.float32 |}.
Proof.
  intros Henc Hinit Hids Hmask Htypes Hfeat.
  apply init_Ok_inv in Hinit as (_ & Hbert & _ & Hproc & Hcls).
  unfold forward_logits. rewrite Hproc, Hcls, Hbert.
  rewrite (Henc b (S n) ids mask types Hids Hmask Htypes). cbn [bind].
  unfold Torch.select_first. cbn [Torch.shape Torch.elt bind].
  rewrite (bert_processor_shape dropout (hidden_size checkpoint) b _
             {| Torch.shape := [b; hidden_size checkpoint];
                Torch.elt := Torch.float32 |} eq_refl eq_refl).
  cbn [bind].
  destruct (Nat.eqb_spec n_features 0) as [|Hnf]; [reflexivity|].
  destruct Hfeat as [|(f & -> & Hf)]; [contradiction|].
  unfold Torch.cat_dim1. cbn [Torch.shape Torch.elt].
  rewrite Hf, !is_empty_1d_two, Nat.eqb_refl.
  destruct (list_eq_dec Nat.eq_dec [] []) as [_|]; [|contradiction].
  cbn [andb bind Torch.promote Torch.Sequential].
  rewrite (Linear_Ok (n_features * 2) n_features [b]);
    [|simpl; f_equal; f_equal; lia | reflexivity].
  cbn [bind].
  match goal with
  | |- context [Torch.apply_layer Torch.ReLU ?x] =>
      change (Torch.apply_layer Torch.ReLU x) with (Ok x)
  end.
  cbn [bind]. rewrite (Linear_Ok n_features (Z.to_nat k) [b]); reflexivity.
Qed.

Lemma tiny_bert_contract : encoder_contract tiny_bert.
Proof.
  intros b n ids mask types Hids Hmask Htypes. simpl.
  rewrite Hids, Hmask, Htypes.
  destruct (list_eq_dec Nat.eq_dec [b; n] [b; n]); [reflexivity | contradiction].
Qed.


(** C6. The logits [forward] computes have width [n_labels], with and
    without auxiliary features. Without features the down-projection
    (dropout, linear, ReLU, linear) ends in [n_labels] outputs; with
    [n_features > 0] it ends in [n_features] outputs, which are
    concatenated with the [n_features] auxiliary values and passed through
    linear, ReLU, linear ending in [n_labels] outputs. On a batch of [b]
    token sequences the logits are defined and of shape [b, n_labels], and
    they are the logits [forward] returns whenever it returns. *)
Theorem logits_width_is_n_labels (checkpoint : encoder) (n_features : nat)
        (k : Z) (dropout : Q) (self : ViralityClassifier) :
  ViralityClassifier_init checkpoint n_features k dropout = Ok self ->
  (bert_processor self =
   [Torch.Dropout dropout;
    Torch.Linear (hidden_size checkpoint) (hidden_size checkpoint / 3);
    Torch.ReLU;
    Torch.Linear (hidden_size checkpoint / 3)
                 (if (n_features =? 0)%nat then Z.to_nat k else n_features)]) /\
  (classifier self =
   if (n_features =? 0)%nat then None
   else Some [Torch.Linear (n_features * 2) n_features;
              Torch.ReLU;
              Torch.Linear n_features (Z.to_nat k)]) /\
  (forall ids types mask labels features out,
      forward self ids types mask labels features = Ok out ->
      forward_logits self ids types mask features = Ok (out_logits out) /\
      exists ds, Torch.shape (out_logits out) = ds ++ [Z.to_nat k]) /\
  (encoder_contract checkpoint ->
   forall b n ids types mask features,
     Torch.shape ids = [b; S n] ->
     Torch.shape mask = [b; S n] ->
     Torch.shape types = [b; S n] ->
     (n_features = 0%nat \/
      exists f, features = Some f /\ Torch.shape f = [b; n_features]) ->
     forward_logits self ids types mask features =
     Ok {| Torch.shape := [b; Z.to_nat k]; Torch.elt := Torch.float32 |}).
Proof.
  intros Hinit.
  pose proof (init_Ok_inv _ _ _ _ _ Hinit) as (_ & _ & Hk & Hproc & Hcls).
  split; [exact Hproc|]. split; [exact Hcls|]. split.
  - intros ids types mask labels features out. unfold forward.
    destruct (forward_logits self ids types mask features) as [logits|] eqn:E;
      [|discriminate].
    cbn [bind]. destruct (compute_loss self logits labels); [|discriminate].
    cbn [bind]. intros H; inversion H; subst. cbn [out_logits].
    split; [reflexivity|].
    eapply forward_logits_width; eassumption.
  - intros Henc b n ids types mask features Hids Hmask Htypes Hfeat.
    exact (forward_logits_defined _ _ _ _ _ b n ids types mask features
             Henc Hinit Hids Hmask Htypes Hfeat).
Qed.

Lemma logits_width_is_n_labels_witness :
  ViralityClassifier_init tiny_bert 6 4 (1 # 5) = Ok model /\
  forward_logits model (int_tensor [8; 128]%nat) (int_tensor [8; 128]%nat)
                 (int_tensor [8; 128]%nat)
                 (Some {| Torch.shape := [8; 6]%nat; Torch.elt := Torch.int32 |}) =
  Ok (float_tensor [8; 4]%nat).
Proof.
  split; [reflexivity|].
  refine (proj2 (proj2 (proj2 (logits_width_is_n_labels
                                 tiny_bert 6 4 (1 # 5) model eq_refl)))
                tiny_bert_contract 8%nat 127%nat
                (int_tensor [8; 128]%nat) (int_tensor [8; 128]%nat)
                (int_tensor [8; 128]%nat)
                (Some {| Torch.shape := [8; 6]%nat; Torch.elt := Torch.int32 |})
                eq_refl eq_refl eq_refl _).
  right. eexists. split; reflexivity.
Defined.

(** C9. A model built with [n_features > 0] computes logits only for a
    features tensor of shape [batch, n_features]: whenever [forward]
    returns, such a tensor was passed, and on a batch of [b] token
    sequences the logits are defined exactly for features of shape
    [b, n_features]. With the default [features=None] the concatenation
    raises. *)
Theorem forward_requires_features (checkpoint : encoder) (n_features : nat)
        (k : Z) (dropout : Q) (self : ViralityClassifier) :
  (0 < n_features)%nat ->
  ViralityClassifier_init checkpoint n_features k dropout = Ok self ->
  (forall ids types mask labels features out,
      forward self ids types mask labels features = Ok out ->
      exists f b,
        features = Some f /\
        Torch.shape f = [b; n_features] /\
        Torch.shape (out_logits out) = [b; Z.to_nat k]) /\
  (encoder_contract checkpoint ->
   forall b n ids types mask,
     Torch.shape ids = [b; S n] ->
     Torch.shape mask = [b; S n] ->
     Torch.shape types = [b; S n] ->
     (forall features,
         (exists logits,
             forward_logits self ids types mask features = Ok logits) <->
         (exists f, features = Some f /\ Torch.shape f = [b; n_features])) /\
     (forall labels,
         forward self ids types mask labels None = Raise TypeError)).
Proof.
  intros Hnf Hinit. split.
  - intros ids types mask labels features out. unfold forward.
    destruct (forward_logits self ids types mask features) as [logits|] eqn:E;
      [|discriminate].
    cbn [bind]. destruct (compute_loss self logits labels); [|discriminate].
    cbn [bind]. intros H; inversion H; subst. cbn [out_logits].
    eapply forward_logits_needs_features; eassumption.
  - intros Henc b n ids types mask Hids Hmask Htypes. split.
    + intros features. split.
      * intros [logits Hl].
        destruct (forward_logits_needs_features _ _ _ _ _ _ _ _ _ _
                    Hnf Hinit Hl) as (f & b' & -> & Hf & Hls).
        pose proof (forward_logits_defined _ _ _ _ _ b n ids types mask
                      (Some f) Henc Hinit Hids Hmask Htypes) as Hdef.
        exists f. split; [reflexivity|].
        assert (Hb : b' = b).
        { apply init_Ok_inv in Hinit as (_ & Hbert & _ & Hproc & Hcls).
          revert Hl Hls. unfold forward_logits.
          rewrite Hproc, Hcls, Hbert.
          rewrite (Henc b (S n) ids mask types Hids Hmask Htypes).
          cbn [bind]. unfold Torch.select_first.
          cbn [Torch.shape Torch.elt bind].
          rewrite (bert_processor_shape dropout (hidden_size checkpoint) b _
                     {| Torch.shape := [b; hidden_size checkpoint];
                        Torch.elt := Torch.float32 |} eq_refl eq_refl).
          cbn [bind].
          destruct (Nat.eqb_spec n_features 0) as [|Hne]; [lia|].
          intros Hl Hls. cbv beta iota in Hl.
          destruct (classifier_needs_features n_features (Z.to_nat k)
                      {| Torch.shape := [b; n_features];
                         Torch.elt := Torch.float32 |}
                      logits (Some f) Hnf (ex_intro _ [b] eq_refl) Hl)
            as (f' & b'' & _ & _ & Hsa & Hls').
          cbn [Torch.shape] in Hsa. rewrite Hls in Hls'.
          inversion Hsa. inversion Hls'. congruence. }
        now rewrite <- Hb.
      * intros (f & -> & Hf). eexists.
        apply (forward_logits_defined _ _ _ _ _ b n ids types mask (Some f)
                 Henc Hinit Hids Hmask Htypes).
        right. eauto.
    + intros labels.
      apply init_Ok_inv in Hinit as (_ & Hbert & _ & Hproc & Hcls).
      unfold forward, forward_logits. rewrite Hproc, Hcls, Hbert.
      rewrite (Henc b (S n) ids mask types Hids Hmask Htypes).
      cbn [bind]. unfold Torch.select_first.
      cbn [Torch.shape Torch.elt bind].
      rewrite (bert_processor_shape dropout (hidden_size checkpoint) b _
                 {| Torch.shape := [b; hidden_size checkpoint];
                    Torch.elt := Torch.float32 |} eq_refl eq_refl).
      cbn [bind].
      destruct (Nat.eqb_spec n_features 0) as [|Hne]; [lia|]. reflexivity.
Qed.

Lemma forward_requires_features_witness :
  (0 < 6)%nat /\
  ViralityClassifier_init tiny_bert 6 4 (1 # 5) = Ok model /\
  forward model (int_tensor [8; 128]%nat) (int_tensor [8; 128]%nat)
          (int_tensor [8; 128]%nat) (int_tensor [8%nat]) None
  = Raise TypeError.
Proof.
  assert (Hnf : (0 < 6)%nat) by lia.
  split; [exact Hnf|]. split; [reflexivity|].
  exact (proj2 (proj2 (forward_requires_features tiny_bert 6 4 (1 # 5) model
                         Hnf eq_refl)
                 tiny_bert_contract 8%nat 127%nat
                 (int_tensor [8; 128]%nat) (int_tensor [8; 128]%nat)
                 (int_tensor [8; 128]%nat) eq_refl eq_refl eq_refl)
               (int_tensor [8%nat])).
Defined.

(** ** The evaluation metric *)

Lemma argmax_from_spec (row pre : list Q) (best : Q) (best_pos pos : nat) :
  best = nth best_pos pre 0%Q ->
  pos = length pre ->
  is_argmax pre best_pos ->
  is_argmax (pre ++ row) (Numpy.argmax_from best best_pos pos row).
Proof.
  revert pre best best_pos pos.
  induction row as [|x row IH];
    intros pre best bp pos -> -> (Hlt & Hmax & Hfirst).
  - simpl. rewrite app_nil_r. repeat split; assumption.
  - cbn [Numpy.argmax_from].
    replace (pre ++ x :: row) with ((pre ++ [x]) ++ row)
      by (rewrite <- app_assoc; reflexivity).
    assert (Hlen : length (pre ++ [x]) = S (length pre))
      by (rewrite length_app; simpl; lia).
    assert (Hold : forall i, (i < length pre)%nat ->
                             nth i (pre ++ [x]) 0%Q = nth i pre 0%Q)
      by (intros i Hi; now apply app_nth1).
    assert (Hnew : nth (length pre) (pre ++ [x]) 0%Q = x)
      by (rewrite app_nth2, Nat.sub_diag by lia; reflexivity).
    destruct (Qlt_le_dec (nth bp pre 0%Q) x) as [Hx|Hx].
    + apply IH; [now rewrite Hnew | now rewrite Hlen |].
      split; [lia|]. rewrite Hnew. split.
      * intros i Hi. rewrite Hlen in Hi.
        destruct (Nat.eq_dec i (length pre)) as [->|Hne].
        -- rewrite Hnew. lra.
        -- rewrite Hold by lia. specialize (Hmax i ltac:(lia)). lra.
      * intros i Hi. rewrite Hold by lia. specialize (Hmax i Hi). lra.
    + apply IH; [now rewrite (Hold bp Hlt) | now rewrite Hlen |].
      split; [lia|]. rewrite (Hold bp Hlt). split.
      * intros i Hi. rewrite Hlen in Hi.
        destruct (Nat.eq_dec i (length pre)) as [->|Hne].
        -- now rewrite Hnew.
        -- rewrite Hold by lia. apply Hmax. lia.
      * intros i Hi. rewrite Hold by lia. now apply Hfirst.
Qed.

Lemma argmax_spec (row : list Q) :
  row <> [] -> exists j, Numpy.argmax row = Ok j /\ is_argmax row j.
Proof.
  destruct row as [|x row]; [contradiction|]. intros _.
  eexists. split; [reflexivity|].
  apply (argmax_from_spec row [x] x 0 1); [reflexivity | reflexivity |].
  repeat split; simpl.
  - lia.
  - intros i Hi. assert (i = 0%nat) as -> by lia. lra.
  - intros i Hi. lia.
Qed.

Lemma is_argmax_unique (row : list Q) (j j' : nat) :
  is_argmax row j -> is_argmax row j' -> j = j'.
Proof.
  intros (Hj & Hmax & Hfirst) (Hj' & Hmax' & Hfirst').
  destruct (Nat.lt_trichotomy j j') as [Hlt|[Heq|Hgt]]; [|exact Heq|].
  - specialize (Hfirst' j Hlt). specialize (Hmax j' Hj'). lra.
  - specialize (Hfirst j' Hgt). specialize (Hmax' j Hj). lra.
Qed.

Lemma equal_same_length (a b : list Z) :
  length a = length b ->
  Numpy.equal a b = Ok (map (fun xy => fst xy =? snd xy) (combine a b)).
Proof.
  intros Hlen. unfold Numpy.equal.
  destruct a as [|x [|x' a]], b as [|y [|y' b]]; try discriminate;
    try reflexivity.
  rewrite Hlen, Nat.eqb_refl. reflexivity.
Qed.

Lemma argmax_last_spec (preds : list (list Q)) :
  Forall (fun row => row <> []) preds ->
  exists predicted,
    Numpy.argmax_last preds = Ok predicted /\
    length predicted = length preds /\
    forall i, (i < length preds)%nat ->
              is_argmax (nth i preds []) (nth i predicted 0%nat).
Proof.
  unfold Numpy.argmax_last.
  induction 1 as [|row preds Hrow _ IH].
  - exists []. split; [reflexivity|]. split; [reflexivity|].
    intros i Hi. simpl in Hi. lia.
  - destruct IH as (predicted & Hp & Hlen & Hall).
    destruct (argmax_spec row Hrow) as (j & Hj & Hmax).
    exists (j :: predicted). cbn [mapM]. rewrite Hj, Hp. cbn [bind].
    split; [reflexivity|]. split; [simpl; lia|].
    intros [|i] Hi; simpl in *; [exact Hmax | apply Hall; lia].
Qed.

(** C7. The metric is the fraction of the batch whose top-1 prediction,
    the first greatest logit of the row, is the true label; it is stored
    under the key [accuracy], the metric the training arguments select the
    best checkpoint by, with greater values counting as better. *)
Theorem accuracy_is_top1_fraction :
  (forall preds labels,
      preds <> [] ->
      Forall (fun row => row <> []) preds ->
      length labels = length preds ->
      exists hits,
        length hits = length preds /\
        (forall i, (i < length preds)%nat ->
                   nth i hits false = true <->
                   top1_hit (nth i preds []) (nth i labels 0)) /\
        compute_metric {| predictions := preds; label_ids := labels |} =
        Ok [("accuracy"%string,
             Numpy.Finite (inject_Z (Z.of_nat (count_occ bool_dec hits true))
                           / inject_Z (Z.of_nat (length preds))))]) /\
  metric_for_best_model training_args = "accuracy"%string /\
  greater_is_better training_args = true /\
  (forall metric best,
      improves training_args metric best = true <-> (best < metric)%Q).
Proof.
  split; [|split; [reflexivity|split; [reflexivity|]]].
  - intros preds labels Hne Hrows Hlen.
    destruct (argmax_last_spec preds Hrows) as (predicted & Hp & Hplen & Hmax).
    set (hits := map (fun xy : Z * Z => fst xy =? snd xy)
                     (combine labels (map Z.of_nat predicted))).
    assert (Hhlen : length hits = length preds).
    { unfold hits. rewrite length_map, length_combine, length_map. lia. }
    exists hits. split; [exact Hhlen|]. split.
    + intros i Hi.
      assert (Hnth : nth i hits false =
                     (nth i labels 0 =? Z.of_nat (nth i predicted 0%nat))).
      { etransitivity; [apply (nth_indep hits false (0 =? 0)); lia|].
        unfold hits.
        etransitivity;
          [apply (map_nth (fun xy : Z * Z => fst xy =? snd xy) _ (0, 0) i)|].
        rewrite combine_nth by (rewrite length_map; lia).
        cbn [fst snd]. f_equal.
        apply (map_nth Z.of_nat predicted 0%nat i). }
      rewrite Hnth, Z.eqb_eq. split.
      * intros Heq. exists (nth i predicted 0%nat). split; [now apply Hmax | lia].
      * intros (j & Hj & Hlabel).
        rewrite (is_argmax_unique _ _ _ (Hmax i Hi) Hj). lia.
    + unfold compute_metric. cbn [predictions label_ids].
      rewrite Hp. cbn [bind].
      rewrite equal_same_length by (rewrite length_map; lia).
      cbn [bind]. fold hits. rewrite <- Hhlen.
      destruct hits; [|reflexivity].
      destruct preds; [contradiction | discriminate].
  - intros metric best. unfold improves. cbn [greater_is_better training_args].
    destruct (Qlt_le_dec best metric) as [Hlt|Hle].
    + tauto.
    + split; [discriminate | intros Hlt; lra].
Qed.

Lemma accuracy_is_top1_fraction_witness :
  [[1 # 2; 3 # 2]; [2; 1]; [0; 0]]%Q <> [] /\
  exists hits,
    length hits = 3%nat /\
    compute_metric {| predictions := [[1 # 2; 3 # 2]; [2; 1]; [0; 0]]%Q;
                      label_ids := [1; 0; 1] |} =
    Ok [("accuracy"%string,
         Numpy.Finite (inject_Z (Z.of_nat (count_occ bool_dec hits true))
                       / inject_Z (Z.of_nat 3)))].
Proof.
  assert (Hne : [[1 # 2; 3 # 2]; [2; 1]; [0; 0]]%Q <> []) by discriminate.
  split; [exact Hne|].
  destruct (proj1 accuracy_is_top1_fraction
                  [[1 # 2; 3 # 2]; [2; 1]; [0; 0]]%Q [1; 0; 1] Hne)
    as (hits & Hlen & _ & Hmetric).
  - repeat constructor; discriminate.
  - reflexivity.
  - exists hits. split; assumption.
Defined.

Example accuracy_two_of_three :
  compute_metric {| predictions := [[1 # 2; 3 # 2]; [2; 1]; [0; 0]]%Q;
                    label_ids := [1; 0; 1] |} =
  Ok [("accuracy"%string, Numpy.Finite (2 # 3))].
Proof. reflexivity. Qed.

(** ** Sums and finite distributions *)

Section Sampling.

Local Open Scope Q_scope.

Lemma Qsum_app (l1 l2 : list Q) : Qsum (l1 ++ l2) == Qsum l1 + Qsum l2.
Proof.
  induction l1 as [|x l1 IH]; simpl; [ring|]. rewrite IH. ring.
Qed.

Lemma Qsum_map_ext {A : Type} (f g : A -> Q) (l : list A) :
  (forall x, In x l -> f x == g x) -> Qsum (map f l) == Qsum (map g l).
Proof.
  induction l as [|x l IH]; intros H; simpl; [reflexivity|].
  rewrite (H x (or_introl eq_refl)), IH; [reflexivity|].
  intros y Hy. apply H. now right.
Qed.

Lemma Qsum_map_scale {A : Type} (c : Q) (f : A -> Q) (l : list A) :
  Qsum (map (fun x => c * f x) l) == c * Qsum (map f l).
Proof.
  induction l as [|x l IH]; simpl; [ring|]. rewrite IH. ring.
Qed.

Lemma Qsum_map_zero {A : Type} (l : list A) :
  Qsum (map (fun _ => 0) l) == 0.
Proof.
  induction l as [|x l IH]; simpl; [reflexivity|]. rewrite IH. ring.
Qed.

(** A sum in which only the term of index [i] is not zero. *)
Lemma Qsum_single (f : nat -> Q) (i : nat) (l : list nat) :
  NoDup l -> In i l ->
  Qsum (map (fun x => if (x =? i)%nat then f x else 0) l) == f i.
Proof.
  induction 1 as [|x l Hx Hnd IH]; intros Hin; [destruct Hin|].
  simpl. destruct (Nat.eqb_spec x i) as [->|Hne].
  - rewrite (Qsum_map_ext _ (fun _ => 0)), Qsum_map_zero; [ring|].
    intros y Hy. destruct (Nat.eqb_spec y i) as [->|]; [contradiction|reflexivity].
  - destruct Hin as [Heq|Hin]; [contradiction|]. rewrite (IH Hin). ring.
Qed.

Lemma Qsum_nth (w : list Q) :
  Qsum (map (fun i => nth i w 0) (seq 0 (length w))) == Qsum w.
Proof.
  induction w as [|x w IH]; [reflexivity|].
  cbn [length seq map nth Qsum].
  rewrite <- seq_shift, map_map. cbn [nth]. now rewrite IH.
Qed.

Lemma Qsum_pos (w : list Q) :
  w <> [] -> Forall (fun x => 0 < x) w -> 0 < Qsum w.
Proof.
  intros Hne H. induction H as [|x w Hx Hw IH]; [contradiction|].
  simpl. destruct w as [|y w].
  - simpl. lra.
  - assert (0 < Qsum (y :: w)) by (apply IH; discriminate). lra.
Qed.

Lemma Pr_ext {A : Type} (d : dist A) (ev ev' : A -> bool) :
  (forall a, ev a = ev' a) -> Pr d ev = Pr d ev'.
Proof.
  intros H. unfold Pr. f_equal. apply map_ext. intros a. now rewrite H.
Qed.

Lemma Pr_never {A : Type} (d : dist A) : Pr d (fun _ => false) == 0.
Proof. unfold Pr. apply Qsum_map_zero. Qed.

Lemma Pr_app {A : Type} (d1 d2 : dist A) (ev : A -> bool) :
  Pr (d1 ++ d2) ev == Pr d1 ev + Pr d2 ev.
Proof. unfold Pr. rewrite map_app. apply Qsum_app. Qed.

(** Drawing [i] first and then an epoch from [d]. *)
Lemma Pr_prefixed (d : dist (list nat)) (i : nat) (c : Q)
      (ev : list nat -> bool) :
  Pr (map (fun sp => (i :: fst sp, c * snd sp)) d) ev ==
  c * Pr d (fun s => ev (i :: s)).
Proof.
  unfold Pr. rewrite map_map. cbn [fst snd].
  rewrite <- Qsum_map_scale. apply Qsum_map_ext.
  intros sp _. destruct (ev (i :: fst sp)); ring.
Qed.

(** The first draw is independent of the rest of the epoch. *)
Lemma Pr_multinomial_step (w : list Q) (n : nat) (ev : list nat -> bool) :
  Pr (multinomial_with_replacement w (S n)) ev ==
  Qsum (map (fun i => draw_probability w i *
                      Pr (multinomial_with_replacement w n)
                         (fun s => ev (i :: s)))
            (seq 0 (length w))).
Proof.
  cbn [multinomial_with_replacement].
  induction (seq 0 (length w)) as [|i l IH]; [reflexivity|].
  cbn [flat_map map Qsum]. rewrite Pr_app, IH, Pr_prefixed. reflexivity.
Qed.

Lemma draw_probabilities_sum (w : list Q) :
  ~ Qsum w == 0 ->
  Qsum (map (draw_probability w) (seq 0 (length w))) == 1.
Proof.
  intros HW. unfold draw_probability.
  rewrite (Qsum_map_ext _ (fun i => / Qsum w * nth i w 0))
    by (intros; unfold Qdiv; ring).
  rewrite Qsum_map_scale, Qsum_nth. now field.
Qed.

Lemma multinomial_total (w : list Q) (n : nat) :
  ~ Qsum w == 0 ->
  Pr (multinomial_with_replacement w n) (fun _ => true) == 1.
Proof.
  intros HW. induction n as [|n IH].
  - unfold Pr. simpl. ring.
  - rewrite Pr_multinomial_step.
    rewrite (Qsum_map_ext _ (draw_probability w))
      by (intros; rewrite IH; ring).
    now apply draw_probabilities_sum.
Qed.

Lemma multinomial_outcomes (w : list Q) (n : nat) (s : list nat) (p : Q) :
  In (s, p) (multinomial_with_replacement w n) ->
  length s = n /\ Forall (fun i => (i < length w)%nat) s.
Proof.
  revert s p. induction n as [|n IH]; intros s p Hin.
  - simpl in Hin. destruct Hin as [Heq|[]]. inversion Heq. auto.
  - cbn [multinomial_with_replacement] in Hin.
    apply in_flat_map in Hin as (i & Hi & Hin).
    apply in_map_iff in Hin as ([s' p'] & Heq & Hin').
    inversion Heq; subst. destruct (IH s' p' Hin') as [Hlen Hall].
    apply in_seq in Hi. split; [simpl; now rewrite Hlen|].
    constructor; [lia | exact Hall].
Qed.

(** Every epoch has the product of the draw probabilities of its
    entries. *)
Lemma multinomial_epoch (w : list Q) (s : list nat) :
  Forall (fun i => (i < length w)%nat) s ->
  Pr (multinomial_with_replacement w (length s)) (is_epoch s) ==
  Qprod (map (draw_probability w) s).
Proof.
  induction 1 as [|i s Hi Hs IH].
  - unfold Pr. simpl. ring.
  - cbn [length map Qprod]. rewrite Pr_multinomial_step.
    rewrite (Qsum_map_ext _
               (fun i' => if (i' =? i)%nat
                          then draw_probability w i' *
                               Pr (multinomial_with_replacement w (length s))
                                  (is_epoch s)
                          else 0)).
    + rewrite Qsum_single; [now rewrite IH | apply seq_NoDup |].
      apply in_seq. lia.
    + intros i' _. destruct (Nat.eqb_spec i' i) as [->|Hne].
      * rewrite (Pr_ext _ (fun t => is_epoch (i :: s) (i :: t)) (is_epoch s));
          [reflexivity|].
        intros t. unfold is_epoch.
        destruct (list_eq_dec Nat.eq_dec (i :: s) (i :: t)) as [Heq|Hneq],
                 (list_eq_dec Nat.eq_dec s t) as [Heq'|Hneq'];
          try reflexivity; [inversion Heq; contradiction | subst; contradiction].
      * rewrite (Pr_ext _ (fun t => is_epoch (i :: s) (i' :: t)) (fun _ => false)).
        -- rewrite Pr_never. ring.
        -- intros t. unfold is_epoch.
           destruct (list_eq_dec Nat.eq_dec (i :: s) (i' :: t)) as [Heq|];
             [inversion Heq; congruence | reflexivity].
Qed.

(** Each single draw of an epoch has the draw probabilities as its
    distribution. *)
Lemma multinomial_marginal (w : list Q) (n j i : nat) :
  ~ Qsum w == 0 ->
  (j < n)%nat -> (i < length w)%nat ->
  Pr (multinomial_with_replacement w n) (draw_is j i) ==
  draw_probability w i.
Proof.
  intros HW. revert j. induction n as [|n IH]; intros j Hj Hi; [lia|].
  rewrite Pr_multinomial_step. destruct j as [|j].
  - rewrite (Qsum_map_ext _
               (fun i' => if (i' =? i)%nat then draw_probability w i' else 0)).
    + apply Qsum_single; [apply seq_NoDup | apply in_seq; lia].
    + intros i' _. unfold draw_is. cbn [nth_error].
      destruct (i' =? i)%nat.
      * rewrite multinomial_total by exact HW. ring.
      * rewrite Pr_never. ring.
  - rewrite (Qsum_map_ext _
               (fun i' => draw_probability w i * draw_probability w i')).
    + rewrite Qsum_map_scale.
      change (fun x => draw_probability w x) with (draw_probability w).
      rewrite draw_probabilities_sum by exact HW. ring.
    + intros i' _.
      rewrite (Pr_ext _ (fun s => draw_is (S j) i (i' :: s)) (draw_is j i))
        by reflexivity.
      rewrite IH by lia. ring.
Qed.

(** Two different draws of an epoch are independent. *)
Lemma multinomial_pairwise (w : list Q) (n j j' i i' : nat) :
  ~ Qsum w == 0 ->
  (j < j')%nat -> (j' < n)%nat ->
  (i < length w)%nat -> (i' < length w)%nat ->
  Pr (multinomial_with_replacement w n)
     (fun s => draw_is j i s && draw_is j' i' s) ==
  draw_probability w i * draw_probability w i'.
Proof.
  intros HW. revert j j'.
  induction n as [|n IH]; intros j j' Hjj' Hj' Hi Hi'; [lia|].
  rewrite Pr_multinomial_step.
  destruct j' as [|j']; [lia|]. destruct j as [|j].
  - rewrite (Qsum_map_ext _
               (fun k => if (k =? i)%nat
                         then draw_probability w k * draw_probability w i'
                         else 0)).
    + apply Qsum_single; [apply seq_NoDup | apply in_seq; lia].
    + intros k _. unfold draw_is at 1. cbn [nth_error].
      destruct (k =? i)%nat.
      * rewrite (Pr_ext _ _ (draw_is j' i')) by reflexivity.
        rewrite multinomial_marginal by (assumption || lia). reflexivity.
      * rewrite (Pr_ext _ _ (fun _ => false)) by reflexivity.
        rewrite Pr_never. ring.
  - rewrite (Qsum_map_ext _
               (fun k => (draw_probability w i * draw_probability w i')
                         * draw_probability w k)).
    + rewrite Qsum_map_scale.
      change (fun x => draw_probability w x) with (draw_probability w).
      rewrite draw_probabilities_sum by exact HW. ring.
    + intros k _.
      rewrite (Pr_ext _ _ (fun s => draw_is j i s && draw_is j' i' s))
        by reflexivity.
      rewrite IH by (assumption || lia). ring.
Qed.

Lemma Qprod_pos (l : list Q) : Forall (fun x => 0 < x) l -> 0 < Qprod l.
Proof.
  induction 1 as [|x l Hx _ IH]; simpl; [lra|].
  now apply Qmult_lt_0_compat.
Qed.

Lemma draw_probability_pos (w : list Q) (i : nat) :
  Forall (fun x => 0 < x) w -> (i < length w)%nat ->
  0 < draw_probability w i.
Proof.
  intros Hpos Hi.
  assert (HW : 0 < Qsum w).
  { apply Qsum_pos; [|exact Hpos]. destruct w; [simpl in Hi; lia | discriminate]. }
  assert (Hwi : 0 < nth i w 0).
  { rewrite Forall_forall in Hpos. apply Hpos. now apply nth_In. }
  unfold draw_probability, Qdiv.
  apply Qmult_lt_0_compat; [exact Hwi | now apply Qinv_lt_0_compat].
Qed.

Example two_draws_of_two :
  Pr (multinomial_with_replacement [1; 3] 2) (is_epoch [1; 1]%nat) == 9 # 16 /\
  Pr (multinomial_with_replacement [1; 3] 2) (is_epoch [0; 1]%nat) == 3 # 16 /\
  Pr (multinomial_without_replacement [1; 3] 2) (is_epoch [1; 1]%nat) == 0.
Proof. repeat split. Qed.

(** C4. The train dataloader of the custom trainer samples with a
    [WeightedRandomSampler] over the dataset's sample weights [w] that
    draws [N = len(w)] indices with replacement. An epoch is a sequence of
    exactly [N] indices below [N]; its probability is the product of
    [w_i / sum(w)] over its entries, every single draw has probability
    [w_i / sum(w)] for index [i], and two different draws are independent.
    For [N > 1] some epoch of positive probability repeats an index and
    leaves another one out. *)
Theorem train_dataloader_samples_with_replacement
        (targs : TrainingArguments) (train_ds : TweetDataset)
        (eval_ds : option TweetDataset) :
  sample_weights train_ds <> [] ->
  Forall (fun x => 0 < x) (sample_weights train_ds) ->
  exists dl epoch,
    get_train_dataloader {| args := targs; train_dataset := Some train_ds;
                            eval_dataset := eval_ds |} = Ok dl /\
    dataset dl = train_ds /\
    sampler dl = {| weights := sample_weights train_ds;
                    num_samples := length (sample_weights train_ds);
                    replacement := true |} /\
    WeightedRandomSampler_iter (sampler dl) = Ok epoch /\
    (forall s p,
        In (s, p) epoch ->
        length s = length (sample_weights train_ds) /\
        Forall (fun i => (i < length (sample_weights train_ds))%nat) s) /\
    Pr epoch (fun _ => true) == 1 /\
    (forall s,
        length s = length (sample_weights train_ds) ->
        Forall (fun i => (i < length (sample_weights train_ds))%nat) s ->
        Pr epoch (is_epoch s) ==
        Qprod (map (draw_probability (sample_weights train_ds)) s)) /\
    (forall j i,
        (j < length (sample_weights train_ds))%nat ->
        (i < length (sample_weights train_ds))%nat ->
        Pr epoch (draw_is j i) ==
        draw_probability (sample_weights train_ds) i) /\
    (forall j j' i i',
        (j < j')%nat ->
        (j' < length (sample_weights train_ds))%nat ->
        (i < length (sample_weights train_ds))%nat ->
        (i' < length (sample_weights train_ds))%nat ->
        Pr epoch (fun s => draw_is j i s && draw_is j' i' s) ==
        Pr epoch (draw_is j i) * Pr epoch (draw_is j' i')) /\
    ((1 < length (sample_weights train_ds))%nat ->
     exists s,
       0 < Pr epoch (is_epoch s) /\
       ~ NoDup s /\
       ~ In 1%nat s).
Proof.
  intros Hne Hpos.
  set (w := sample_weights train_ds) in *.
  assert (HW : ~ Qsum w == 0).
  { pose proof (Qsum_pos w Hne Hpos). lra. }
  assert (Hlen : (length w =? 0)%nat = false).
  { destruct w; [contradiction | reflexivity]. }
  assert (Hvalid : valid_weights w = true).
  { unfold valid_weights. apply andb_true_iff. split.
    - apply forallb_forall. intros x Hx. apply Qle_bool_iff.
      rewrite Forall_forall in Hpos. specialize (Hpos x Hx). lra.
    - apply negb_true_iff. destruct (Qeq_bool (Qsum w) 0) eqn:E; [|reflexivity].
      apply Qeq_bool_iff in E. contradiction. }
  eexists. eexists. split.
  { unfold get_train_dataloader, WeightedRandomSampler_init.
    cbn [train_dataset]. fold w. rewrite Hlen. cbn [bind]. reflexivity. }
  cbn [dataset sampler]. split; [reflexivity|]. split; [reflexivity|].
  unfold WeightedRandomSampler_iter. cbn [replacement weights num_samples].
  rewrite Hvalid. split; [reflexivity|].
  split; [intros s p; apply multinomial_outcomes|].
  split; [now apply multinomial_total|].
  split; [intros s Hs Hall; rewrite <- Hs; now apply multinomial_epoch|].
  split; [intros j i Hj Hi; now apply multinomial_marginal|].
  split.
  - intros j j' i i' Hjj' Hj' Hi Hi'.
    rewrite multinomial_pairwise, !multinomial_marginal
      by (assumption || lia).
    reflexivity.
  - intros HN. exists (repeat 0%nat (length w)). split; [|split].
    + rewrite <- (repeat_length 0%nat (length w)) at 1.
      rewrite multinomial_epoch.
      * apply Qprod_pos. apply Forall_forall. intros x Hx.
        apply in_map_iff in Hx as (i & <- & Hi).
        apply repeat_spec in Hi as ->.
        apply draw_probability_pos; [exact Hpos | lia].
      * apply Forall_forall. intros i Hi. apply repeat_spec in Hi as ->. lia.
    + destruct (length w) as [|[|n]]; [lia | lia |].
      simpl. intros Hnd. inversion Hnd as [|? ? Hnin _]; subst.
      apply Hnin. now left.
    + intros Hin. apply repeat_spec in Hin. discriminate.
Qed.

Lemma item_In {A : Type} (a : list A) (i : Z) (v : A) :
  Numpy.item a i = Ok v -> In v a.
Proof.
  unfold Numpy.item. destruct (_ && _); [|discriminate].
  destruct (nth_error a _) as [v'|] eqn:E; [|discriminate].
  intros H; inversion H; subst. eapply nth_error_In; eassumption.
Qed.

Lemma mapM_Ok_Forall {A B : Type} (f : A -> result B) (P : B -> Prop)
      (l : list A) (bs : list B) :
  (forall a b, In a l -> f a = Ok b -> P b) ->
  mapM f l = Ok bs -> Forall P bs.
Proof.
  revert bs. induction l as [|a l IH]; intros bs HP H; simpl in H.
  - inversion H. constructor.
  - destruct (f a) as [b|] eqn:Ea; [|discriminate]. cbn [bind] in H.
    destruct (mapM f l) as [bs'|] eqn:El; [|discriminate]. cbn [bind] in H.
    inversion H; subst. constructor.
    + eapply HP; [now left | exact Ea].
    + apply IH; [|reflexivity]. intros a' b' Ha'. apply HP. now right.
Qed.

(** The weights of a dataset the script builds: one positive weight per
    example. *)
Lemma dataset_weights_positive (txts : list string) (lbls : list Z)
      (feats : option (list (list Z))) (ds : TweetDataset) :
  TweetDataset_init txts lbls feats = Ok ds ->
  length (sample_weights ds) = length lbls /\
  Forall (fun x => 0 < x) (sample_weights ds).
Proof.
  unfold TweetDataset_init.
  destruct (compute_sample_weights lbls) as [w|] eqn:Hw; [|discriminate].
  cbn [bind]. intros H; inversion H; subst; clear H. cbn [sample_weights].
  unfold compute_sample_weights, Numpy.take in Hw. split.
  - now apply mapM_Ok_inv in Hw.
  - eapply mapM_Ok_Forall; [|exact Hw].
    intros l x _ Hx. apply item_In in Hx.
    cbn [Numpy.unique_counts snd] in Hx. rewrite map_map in Hx.
    apply in_map_iff in Hx as (u & <- & Hu).
    apply (proj1 (unique_In lbls u)) in Hu. apply count_pos in Hu.
    assert (0 < inject_Z (Numpy.count lbls u)).
    { change 0 with (inject_Z 0). now rewrite <- Zlt_Qlt. }
    unfold Qdiv. rewrite Qmult_1_l. now apply Qinv_lt_0_compat.
Qed.

Example toy_dataset_init :
  TweetDataset_init (texts toy_dataset) toy_labels None = Ok toy_dataset.
Proof. reflexivity. Qed.

Lemma train_dataloader_samples_with_replacement_witness :
  sample_weights toy_dataset <> [] /\
  Forall (fun x => 0 < x) (sample_weights toy_dataset) /\
  exists dl epoch,
    get_train_dataloader {| args := training_args;
                            train_dataset := Some toy_dataset;
                            eval_dataset := None |} = Ok dl /\
    sampler dl = {| weights := sample_weights toy_dataset;
                    num_samples := 8;
                    replacement := true |} /\
    WeightedRandomSampler_iter (sampler dl) = Ok epoch /\
    Pr epoch (fun _ => true) == 1.
Proof.
  assert (Hne : sample_weights toy_dataset <> []) by discriminate.
  assert (Hpos : Forall (fun x => 0 < x) (sample_weights toy_dataset))
    by (repeat constructor).
  split; [exact Hne|]. split; [exact Hpos|].
  destruct (train_dataloader_samples_with_replacement
              training_args toy_dataset None Hne Hpos)
    as (dl & epoch & Hdl & _ & Hs & Hiter & _ & Htotal & _).
  exists dl, epoch. repeat split; assumption.
Defined.

End Sampling.

(** ** A missing training dataset *)

(** Constructing the trainer without a training dataset succeeds, and the
    script gets as far as evaluating before it stops. *)
Lemma trainer_construction_accepts_missing_train_dataset :
  exists trainer,
    CustomTrainer_init training_args None (Some toy_dataset) = Ok trainer /\
    train_dataset trainer = None /\
    evaluate trainer = Ok tt /\
    fst (run_trainer training_args None (Some toy_dataset))
    = [Constructed; Evaluated].
Proof. eexists. repeat split. Qed.

(** C8, amended. Without a training dataset the trainer is still
    constructed; the [ValueError] is raised when the train dataloader is
    asked for, which [train] does before its first step, so the script
    stops there and never trains. *)
Theorem missing_train_dataset_fails_at_train
        (targs : TrainingArguments) (eval_ds : option TweetDataset) :
  exists trainer,
    CustomTrainer_init targs None eval_ds = Ok trainer /\
    get_train_dataloader trainer =
    Raise (ValueError "Trainer: training requires a train_dataset.") /\
    train trainer =
    Raise (ValueError "Trainer: training requires a train_dataset.") /\
    snd (run_trainer targs None eval_ds) <> None /\
    ~ In Trained (fst (run_trainer targs None eval_ds)).
Proof.
  eexists. split; [reflexivity|]. split; [reflexivity|].
  split; [reflexivity|].
  unfold run_trainer, CustomTrainer_init, Trainer_init, evaluate.
  cbn [eval_dataset].
  destruct eval_ds; cbn; split; try discriminate; intuition discriminate.
Qed.

(** * Further properties of the script *)

(** ** More on computations that may raise *)

Lemma mapM_Ok_nth {A B : Type} (f : A -> result B) (l : list A) (bs : list B)
      (da : A) (db : B) :
  mapM f l = Ok bs ->
  forall i, (i < length l)%nat -> f (nth i l da) = Ok (nth i bs db).
Proof.
  revert bs. induction l as [|a l IH]; intros bs H i Hi; simpl in Hi; [lia|].
  simpl in H.
  destruct (f a) as [b|] eqn:Ea; [|discriminate]. cbn [bind] in H.
  destruct (mapM f l) as [bs'|] eqn:El; [|discriminate]. cbn [bind] in H.
  inversion H; subst. destruct i as [|i]; simpl; [exact Ea|].
  apply IH; [reflexivity | lia].
Qed.

Lemma mapM_Raise_inv {A B : Type} (f : A -> result B) (l : list A) (e : exn) :
  mapM f l = Raise e -> exists a, In a l /\ f a = Raise e.
Proof.
  induction l as [|a l IH]; simpl; [discriminate|].
  destruct (f a) as [b|e'] eqn:Ea; cbn [bind].
  - destruct (mapM f l) as [bs|e'] eqn:El; cbn [bind]; [discriminate|].
    intros H; inversion H; subst.
    destruct (IH eq_refl) as (a' & Hin & Ha'). eauto.
  - intros H; inversion H; subst. eauto.
Qed.

Lemma mapM_Raise {A B : Type} (f : A -> result B) (l : list A) (a : A)
      (e : exn) :
  In a l -> f a = Raise e -> exists e', mapM f l = Raise e'.
Proof.
  induction l as [|a' l IH]; intros Hin Ha; [destruct Hin|].
  simpl. destruct (f a') as [b|e'] eqn:Ea'; cbn [bind]; [|eauto].
  destruct Hin as [->|Hin]; [congruence|].
  destruct (IH Hin Ha) as [e'' ->]. cbn [bind]. eauto.
Qed.

Lemma item_Raise {A : Type} (a : list A) (i : Z) (e : exn) :
  Numpy.item a i = Raise e -> e = IndexError.
Proof.
  unfold Numpy.item. destruct (_ && _).
  - destruct (nth_error a _); [discriminate | congruence].
  - congruence.
Qed.

Lemma item_nonneg_Raise {A : Type} (a : list A) (i : Z) :
  0 <= i ->
  ((exists e, Numpy.item a i = Raise e) <-> Z.of_nat (length a) <= i).
Proof.
  intros Hi. unfold Numpy.item.
  destruct (Z.ltb_spec i 0); [lia|].
  destruct (Z.leb_spec 0 i); [|lia].
  destruct (Z.ltb_spec i (Z.of_nat (length a))) as [Hlt|Hge]; simpl.
  - destruct (nth_error a (Z.to_nat i)) eqn:E.
    + split; [intros [e He]; discriminate | lia].
    + apply nth_error_None in E. lia.
  - split; [lia | eauto].
Qed.

(** ** Sample weights on arbitrary labels *)

(** X1. Whatever the labels are, when [compute_sample_weights] returns it
    returns one weight per example; every weight is one over the count of
    a class that occurs, hence positive and at most 1, and examples with
    the same label get the same weight. *)
Theorem sample_weights_envelope (labels : list Z) (w : list Q) :
  compute_sample_weights labels = Ok w ->
  length w = length labels /\
  Forall (fun x => exists c, In c labels /\
                             x = (1 / inject_Z (Numpy.count labels c))%Q) w /\
  Forall (fun x => (0 < x /\ x <= 1)%Q) w /\
  (forall i j, (i < length labels)%nat -> (j < length labels)%nat ->
               nth i labels 0 = nth j labels 0 ->
               nth i w 0%Q = nth j w 0%Q).
Proof.
  intros Hw. unfold compute_sample_weights, Numpy.take in Hw.
  assert (Hcls : Forall (fun x => exists c, In c labels /\
                   x = (1 / inject_Z (Numpy.count labels c))%Q) w).
  { eapply mapM_Ok_Forall; [|exact Hw].
    intros l x _ Hx. apply item_In in Hx.
    cbn [Numpy.unique_counts snd] in Hx. rewrite map_map in Hx.
    apply in_map_iff in Hx as (u & <- & Hu).
    apply (proj1 (unique_In labels u)) in Hu. eauto. }
  split; [now apply mapM_Ok_inv in Hw|]. split; [exact Hcls|]. split.
  - eapply Forall_impl; [|exact Hcls].
    intros x (c & Hc & ->). apply count_pos in Hc.
    assert (H1 : (inject_Z 1 <= inject_Z (Numpy.count labels c))%Q)
      by (rewrite <- Zle_Qle; lia).
    change (inject_Z 1) with 1%Q in H1.
    unfold Qdiv. rewrite Qmult_1_l. split.
    + apply Qinv_lt_0_compat. lra.
    + apply Qle_shift_inv_r; lra.
  - intros i j Hi Hj Heq.
    pose proof (mapM_Ok_nth _ _ _ 0 0%Q Hw i Hi) as Hwi.
    pose proof (mapM_Ok_nth _ _ _ 0 0%Q Hw j Hj) as Hwj.
    rewrite Heq in Hwi. congruence.
Qed.

Lemma sample_weights_envelope_witness :
  compute_sample_weights [0; 0; -1] = Ok [1; 1; 1 # 2]%Q /\
  Forall (fun x => (0 < x /\ x <= 1)%Q) [1; 1; 1 # 2]%Q.
Proof.
  split; [reflexivity|].
  exact (proj1 (proj2 (proj2 (sample_weights_envelope
                                [0; 0; -1] [1; 1; 1 # 2]%Q eq_refl)))).
Defined.

(** X2. On labels that are class numbers (not negative) the weights are
    never wrong: the function returns the inverse class frequencies or
    raises [IndexError], and it raises exactly when some label is not below
    the number of distinct labels. *)
Theorem sample_weights_right_or_IndexError (labels : list Z) :
  Forall (fun l => 0 <= l) labels ->
  (compute_sample_weights labels = Ok (inverse_class_frequency labels) \/
   compute_sample_weights labels = Raise IndexError) /\
  (compute_sample_weights labels = Raise IndexError <->
   exists l, In l labels /\
             Z.of_nat (length (Numpy.unique labels)) <= l).
Proof.
  intros Hnn.
  assert (Hlen : length (map (fun c => (1 / inject_Z c)%Q)
                             (snd (Numpy.unique_counts labels)))
                 = length (Numpy.unique labels)).
  { cbn [Numpy.unique_counts snd]. now rewrite !length_map. }
  assert (Hraise : forall e, compute_sample_weights labels = Raise e ->
                             e = IndexError /\
                             exists l, In l labels /\
                                       Z.of_nat (length (Numpy.unique labels)) <= l).
  { intros e He. unfold compute_sample_weights, Numpy.take in He.
    apply mapM_Raise_inv in He as (l & Hl & Hitem).
    split; [now apply item_Raise in Hitem|].
    exists l. split; [exact Hl|]. rewrite <- Hlen.
    rewrite Forall_forall in Hnn.
    apply (item_nonneg_Raise _ l (Hnn l Hl)). eauto. }
  split.
  - destruct (compute_sample_weights labels) as [w|e] eqn:E.
    + left. rewrite <- E. apply counted_sample_weights.
      apply classes_contiguous_counted.
      eapply sample_weights_Ok_contiguous; eassumption.
    + right. f_equal. now apply Hraise.
  - split.
    + intros He. now apply Hraise in He.
    + intros (l & Hl & Hge).
      rewrite Forall_forall in Hnn.
      assert (Hitem : exists e, Numpy.item
                 (map (fun c => (1 / inject_Z c)%Q)
                      (snd (Numpy.unique_counts labels))) l = Raise e).
      { apply item_nonneg_Raise; [now apply Hnn | now rewrite Hlen]. }
      destruct Hitem as [e He].
      destruct (mapM_Raise _ labels l e Hl He) as [e' He'].
      assert (Hcsw : compute_sample_weights labels = Raise e') by exact He'.
      rewrite Hcsw. f_equal. now apply Hraise in Hcsw.
Qed.

Lemma sample_weights_right_or_IndexError_witness :
  Forall (fun l => 0 <= l) [0; 3; 3] /\
  compute_sample_weights [0; 3; 3] = Raise IndexError /\
  exists l, In l [0; 3; 3] /\ Z.of_nat (length (Numpy.unique [0; 3; 3])) <= l.
Proof.
  assert (Hnn : Forall (fun l => 0 <= l) [0; 3; 3])
    by (repeat constructor; lia).
  split; [exact Hnn|]. split; [reflexivity|].
  exact (proj1 (proj2 (sample_weights_right_or_IndexError [0; 3; 3] Hnn))
               eq_refl).
Defined.

(** ** Class balance under the sampler *)

Section ClassBalance.

Local Open Scope Q_scope.

Lemma Qsum_single_Z (x : Q) (l : Z) (cs : list Z) :
  NoDup cs -> In l cs ->
  Qsum (map (fun c => if (l =? c)%Z then x else 0) cs) == x.
Proof.
  induction 1 as [|c cs Hc Hnd IH]; intros Hin; [destruct Hin|].
  simpl. destruct (Z.eqb_spec l c) as [->|Hne].
  - rewrite (Qsum_map_ext _ (fun _ => 0)), Qsum_map_zero; [ring|].
    intros y Hy. destruct (Z.eqb_spec c y) as [->|]; [contradiction|reflexivity].
  - destruct Hin as [Heq|Hin]; [congruence|]. rewrite (IH Hin). ring.
Qed.

Lemma Qsum_map_plus {A : Type} (f g : A -> Q) (l : list A) :
  Qsum (map (fun x => f x + g x) l) == Qsum (map f l) + Qsum (map g l).
Proof.
  induction l as [|x l IH]; simpl; [ring|]. rewrite IH. ring.
Qed.

Lemma class_mass_cons (l : Z) (ls : list Z) (x : Q) (ws : list Q) (c : Z) :
  class_mass (l :: ls) (x :: ws) c ==
  (if (l =? c)%Z then x else 0) + class_mass ls ws c.
Proof.
  unfold class_mass. cbn [combine filter fst].
  destruct (l =? c)%Z; cbn [map snd Qsum]; ring.
Qed.

(** The weights add up to the sum of the class masses. *)
Lemma Qsum_by_class (labels : list Z) (w : list Q) (cs : list Z) :
  length w = length labels ->
  NoDup cs ->
  (forall l, In l labels -> In l cs) ->
  Qsum (map (class_mass labels w) cs) == Qsum w.
Proof.
  revert w. induction labels as [|l ls IH]; intros [|x ws] Hlen Hnd Hcs;
    try discriminate.
  - unfold class_mass. simpl. apply Qsum_map_zero.
  - rewrite (Qsum_map_ext _ (fun c => (if (l =? c)%Z then x else 0)
                                      + class_mass ls ws c))
      by (intros; apply class_mass_cons).
    rewrite Qsum_map_plus, Qsum_single_Z, IH; simpl in *;
      auto; try lia; reflexivity.
Qed.

Lemma class_mass_as_index_sum (labels : list Z) (w : list Q) (c : Z) :
  length w = length labels ->
  Qsum (map (fun i => if match nth_error labels i with
                         | Some l => (l =? c)%Z
                         | None => false
                         end
                      then nth i w 0 else 0)
            (seq 0 (length w))) == class_mass labels w c.
Proof.
  revert w. induction labels as [|l ls IH]; intros [|x ws] Hlen;
    try discriminate; [reflexivity|].
  rewrite class_mass_cons. cbn [length seq map Qsum nth_error nth].
  rewrite <- seq_shift, map_map. cbn [nth_error nth].
  rewrite IH by (simpl in Hlen; lia). reflexivity.
Qed.

(** The distribution of one draw, for any property of the drawn index. *)
Lemma multinomial_marginal_event (w : list Q) (P : nat -> bool) (n j : nat) :
  ~ Qsum w == 0 ->
  (j < n)%nat ->
  Pr (multinomial_with_replacement w n)
     (fun s => match nth_error s j with Some i => P i | None => false end) ==
  Qsum (map (fun i => if P i then draw_probability w i else 0)
            (seq 0 (length w))).
Proof.
  intros HW. revert j. induction n as [|n IH]; intros j Hj; [lia|].
  rewrite Pr_multinomial_step. destruct j as [|j].
  - apply Qsum_map_ext. intros i _. cbn [nth_error].
    destruct (P i).
    + rewrite multinomial_total by exact HW. ring.
    + rewrite Pr_never. ring.
  - rewrite (Qsum_map_ext _
               (fun i' => Qsum (map (fun i => if P i then draw_probability w i
                                              else 0)
                                    (seq 0 (length w)))
                          * draw_probability w i')).
    + rewrite Qsum_map_scale.
      change (fun x => draw_probability w x) with (draw_probability w).
      rewrite draw_probabilities_sum by exact HW. ring.
    + intros i' _. cbn [nth_error]. rewrite IH by lia. ring.
Qed.

Lemma contiguous_total_weight (labels : list Z) (k : Z) :
  (forall c, In c labels <-> (0 <= c < k)%Z) ->
  Qsum (inverse_class_frequency labels) == inject_Z (Z.max 0 k).
Proof.
  intros Hk.
  set (cs := map Z.of_nat (seq 0 (Z.to_nat k))).
  assert (Hcs : forall c, In c cs <-> (0 <= c < k)%Z).
  { intros c. unfold cs. rewrite in_map_iff. split.
    - intros (i & <- & Hi). apply in_seq in Hi. lia.
    - intros Hc. exists (Z.to_nat c). split; [lia|]. apply in_seq. lia. }
  assert (Hnd : NoDup cs).
  { unfold cs. apply sorted_NoDup.
    rewrite <- (classes_contiguous_unique labels k Hk). apply unique_sorted. }
  rewrite <- (Qsum_by_class labels (inverse_class_frequency labels) cs);
    [|unfold inverse_class_frequency; apply length_map | exact Hnd
     |intros l Hl; apply Hcs, Hk, Hl].
  rewrite (Qsum_map_ext _ (fun _ => 1)).
  - unfold cs. clear. rewrite map_map.
    replace (Z.max 0 k) with (Z.of_nat (Z.to_nat k)) by lia.
    generalize 0%nat. induction (Z.to_nat k) as [|n IH]; intros a;
      [reflexivity|].
    cbn [seq map Qsum]. rewrite IH, Nat2Z.inj_succ. unfold Z.succ.
    rewrite inject_Z_plus. ring.
  - intros c Hc. apply inverse_class_frequency_mass. apply Hk, Hcs, Hc.
Qed.

(** X3. When the classes of the training labels are [0, ..., k-1], the
    sample weights add up to [k], and every draw of the train sampler
    falls on an example of class [c] with probability [1/k], the same for
    every class, however unequal the class counts are. *)
Theorem each_class_drawn_equally_often
        (targs : TrainingArguments) (txts : list string) (lbls : list Z)
        (feats : option (list (list Z))) (eval_ds : option TweetDataset)
        (k : Z) :
  lbls <> [] ->
  (forall c, In c lbls <-> (0 <= c < k)%Z) ->
  exists ds dl epoch,
    TweetDataset_init txts lbls feats = Ok ds /\
    get_train_dataloader {| args := targs; train_dataset := Some ds;
                            eval_dataset := eval_ds |} = Ok dl /\
    WeightedRandomSampler_iter (sampler dl) = Ok epoch /\
    Qsum (sample_weights ds) == inject_Z k /\
    forall j c,
      (j < length lbls)%nat -> (0 <= c < k)%Z ->
      Pr epoch (draw_in_class lbls j c) == 1 / inject_Z k.
Proof.
  intros Hne Hk.
  set (w := inverse_class_frequency lbls).
  assert (Hcsw : compute_sample_weights lbls = Ok w).
  { apply counted_sample_weights, classes_contiguous_counted. now exists k. }
  assert (Hinit : TweetDataset_init txts lbls feats =
                  Ok {| texts := txts; features := feats; labels := lbls;
                        sample_weights := w |}).
  { unfold TweetDataset_init. now rewrite Hcsw. }
  destruct (dataset_weights_positive _ _ _ _ Hinit) as [Hlen Hpos].
  cbn [sample_weights] in Hlen, Hpos.
  assert (Hkpos : (0 < k)%Z).
  { destruct lbls as [|l ?]; [contradiction|].
    assert (0 <= l < k)%Z by (apply Hk; now left). lia. }
  assert (Htotal : Qsum w == inject_Z k).
  { unfold w. rewrite (contiguous_total_weight lbls k Hk).
    now rewrite Z.max_r by lia. }
  assert (HW : ~ Qsum w == 0).
  { rewrite Htotal. intros H0.
    assert (inject_Z 0 < inject_Z k) as Hlt by (rewrite <- Zlt_Qlt; exact Hkpos).
    rewrite H0 in Hlt. now apply Qlt_irrefl in Hlt. }
  assert (Hwne : (length w =? 0)%nat = false).
  { rewrite Hlen. destruct lbls; [contradiction | reflexivity]. }
  assert (Hvalid : valid_weights w = true).
  { unfold valid_weights. apply andb_true_iff. split.
    - apply forallb_forall. intros x Hx. apply Qle_bool_iff.
      rewrite Forall_forall in Hpos. specialize (Hpos x Hx). lra.
    - apply negb_true_iff. destruct (Qeq_bool (Qsum w) 0) eqn:E; [|reflexivity].
      apply Qeq_bool_iff in E. contradiction. }
  eexists. eexists. eexists. split; [exact Hinit|]. split.
  { unfold get_train_dataloader, WeightedRandomSampler_init.
    cbn [train_dataset sample_weights]. rewrite Hwne. cbn [bind]. reflexivity. }
  cbn [sampler]. unfold WeightedRandomSampler_iter.
  cbn [replacement weights num_samples]. rewrite Hvalid.
  split; [reflexivity|]. cbn [sample_weights]. split; [exact Htotal|].
  intros j c Hj Hc.
  rewrite (Pr_ext _ (draw_in_class lbls j c)
             (fun s => match nth_error s j with
                       | Some i => match nth_error lbls i with
                                   | Some l => (l =? c)%Z
                                   | None => false
                                   end
                       | None => false
                       end)) by reflexivity.
  rewrite multinomial_marginal_event by (assumption || lia).
  rewrite (Qsum_map_ext _
             (fun i => / Qsum w *
                       (if match nth_error lbls i with
                           | Some l => (l =? c)%Z
                           | None => false
                           end
                        then nth i w 0 else 0))).
  - rewrite Qsum_map_scale, class_mass_as_index_sum by exact Hlen.
    unfold w at 2. rewrite inverse_class_frequency_mass by (now apply Hk).
    rewrite Htotal. unfold Qdiv. ring.
  - intros i _. unfold draw_probability, Qdiv.
    destruct (match nth_error lbls i with
              | Some l => (l =? c)%Z
              | None => false
              end); ring.
Qed.

Lemma each_class_drawn_equally_often_witness :
  toy_labels <> [] /\
  (forall c, In c toy_labels <-> (0 <= c < 4)%Z) /\
  exists ds dl epoch,
    TweetDataset_init [] toy_labels None = Ok ds /\
    get_train_dataloader {| args := training_args; train_dataset := Some ds;
                            eval_dataset := None |} = Ok dl /\
    WeightedRandomSampler_iter (sampler dl) = Ok epoch /\
    Pr epoch (draw_in_class toy_labels 0 3) == 1 / inject_Z 4.
Proof.
  assert (Hne : toy_labels <> []) by discriminate.
  assert (Hk : forall c, In c toy_labels <-> (0 <= c < 4)%Z).
  { intros c. unfold toy_labels. simpl. split; [intuition lia|].
    intros Hc.
    assert (Hcase : (c = 0 \/ c = 1 \/ c = 2 \/ c = 3)%Z) by lia.
    destruct Hcase as [Hc0|[Hc0|[Hc0|Hc0]]]; subst c; auto 10. }
  split; [exact Hne|]. split; [exact Hk|].
  destruct (each_class_drawn_equally_often training_args [] toy_labels None
              None 4 Hne Hk)
    as (ds & dl & epoch & Hds & Hdl & Hit & _ & Hpr).
  exists ds, dl, epoch. repeat split; try assumption.
  apply Hpr; [simpl; lia | lia].
Defined.

End ClassBalance.

(** ** Labels of a whole column *)

Lemma label_value (r : Z) :
  (0 <= r ->
   label r = Some (if r <? 1 then 0 else if r <? 10 then 1
                   else if r <? 100 then 2 else 3)) /\
  (r < 0 -> label r = None).
Proof.
  unfold label, Pandas.cut, bins. cbn -[Z.leb Z.eqb Z.ltb].
  destruct (Z.eqb_spec 0 r) as [<-|Hne]; [split; [reflexivity | lia]|].
  cbn -[Z.leb Z.ltb].
  destruct (Z.leb_spec 0 r), (Z.leb_spec 1 r), (Z.leb_spec 10 r),
    (Z.leb_spec 100 r), (Z.ltb_spec r 1), (Z.ltb_spec r 10),
    (Z.ltb_spec r 100); try lia; split; intros; try lia; reflexivity.
Qed.

(** X4. A retweet count has no label (pandas gives NaN) exactly when it is
    negative; a label that exists is one of 0, 1, 2, 3, and a greater
    count never gets a smaller label. *)
Theorem label_missing_iff_negative :
  (forall r, label r = None <-> r < 0) /\
  (forall r a, label r = Some a -> 0 <= a <= 3) /\
  (forall r r' a a',
      r <= r' -> label r = Some a -> label r' = Some a' -> a <= a').
Proof.
  assert (Hval : forall r a, label r = Some a ->
                   0 <= r /\
                   a = (if r <? 1 then 0 else if r <? 10 then 1
                        else if r <? 100 then 2 else 3)).
  { intros r a Ha. destruct (Z.lt_ge_cases r 0) as [Hneg|Hnn].
    - rewrite (proj2 (label_value r) Hneg) in Ha. discriminate.
    - rewrite (proj1 (label_value r) Hnn) in Ha. inversion Ha. auto. }
  split; [|split].
  - intros r. split.
    + intros Hnone. destruct (Z.lt_ge_cases r 0) as [Hneg|Hnn]; [exact Hneg|].
      rewrite (proj1 (label_value r) Hnn) in Hnone. discriminate.
    + apply label_value.
  - intros r a Ha. apply Hval in Ha as [_ ->].
    destruct (r <? 1), (r <? 10), (r <? 100); lia.
  - intros r r' a a' Hle Ha Ha'.
    apply Hval in Ha as [_ ->]. apply Hval in Ha' as [_ ->].
    destruct (Z.ltb_spec r 1), (Z.ltb_spec r 10), (Z.ltb_spec r 100),
      (Z.ltb_spec r' 1), (Z.ltb_spec r' 10), (Z.ltb_spec r' 100); lia.
Qed.

Lemma labels_of_counts (rs : list Z) (ls : list Z) (c : Z) :
  map label rs = map Some ls ->
  (In c ls <-> exists r, In r rs /\ label r = Some c).
Proof.
  intros Hmap. split.
  - intros Hc. apply (in_map Some) in Hc. rewrite <- Hmap in Hc.
    apply in_map_iff in Hc as (r & Hr & Hin). eauto.
  - intros (r & Hin & Hr). apply (in_map label) in Hin.
    rewrite Hmap, Hr in Hin. apply in_map_iff in Hin as (c' & Hc' & Hin).
    now inversion Hc'; subst.
Qed.

(** X5. For a column of retweet counts that are not negative, the sample
    weights of the derived labels can be computed exactly when no bin is
    empty below an occupied one: counts of 100 or more need a count in
    [10,100), counts of 10 or more need one in [1,10), and counts of 1 or
    more need a zero. Otherwise building the dataset raises
    [IndexError]. *)
Theorem dataset_needs_lower_bins_occupied (txts : list string)
        (rs : list Z) (ls : list Z) (feats : option (list (list Z))) :
  Forall (fun r => 0 <= r) rs ->
  map label rs = map Some ls ->
  let filled :=
    ((exists r, In r rs /\ 100 <= r) -> exists r, In r rs /\ 10 <= r < 100) /\
    ((exists r, In r rs /\ 10 <= r) -> exists r, In r rs /\ 1 <= r < 10) /\
    ((exists r, In r rs /\ 1 <= r) -> In 0 rs) in
  ((exists ds, TweetDataset_init txts ls feats = Ok ds) <-> filled) /\
  (~ filled -> TweetDataset_init txts ls feats = Raise IndexError).
Proof.
  intros Hnn Hmap filled.
  assert (Hin : forall c, In c ls <->
                  exists r, In r rs /\
                    c = (if r <? 1 then 0 else if r <? 10 then 1
                         else if r <? 100 then 2 else 3)).
  { intros c. rewrite (labels_of_counts rs ls c Hmap).
    rewrite Forall_forall in Hnn.
    split; intros (r & Hr & Hc); exists r; (split; [exact Hr|]).
    - rewrite (proj1 (label_value r) (Hnn r Hr)) in Hc. now inversion Hc.
    - rewrite (proj1 (label_value r) (Hnn r Hr)). now f_equal. }
  assert (Hls : Forall (fun l => 0 <= l) ls).
  { apply Forall_forall. intros l Hl. apply Hin in Hl as (r & _ & ->).
    destruct (r <? 1), (r <? 10), (r <? 100); lia. }
  assert (Hbin : forall c, In c ls -> 0 <= c <= 3).
  { intros c Hc. apply Hin in Hc as (r & _ & ->).
    destruct (r <? 1), (r <? 10), (r <? 100); lia. }
  assert (H0 : In 0 ls <-> In 0 rs).
  { rewrite Hin. split.
    - intros (r & Hr & Hc). rewrite Forall_forall in Hnn.
      specialize (Hnn r Hr).
      destruct (Z.ltb_spec r 1), (Z.ltb_spec r 10), (Z.ltb_spec r 100);
        try lia. now replace 0 with r by lia.
    - intros Hr. exists 0. auto. }
  assert (H1 : In 1 ls <-> exists r, In r rs /\ 1 <= r < 10).
  { rewrite Hin. split; intros (r & Hr & Hc); exists r; (split; [exact Hr|]);
      destruct (Z.ltb_spec r 1), (Z.ltb_spec r 10), (Z.ltb_spec r 100); lia. }
  assert (H2 : In 2 ls <-> exists r, In r rs /\ 10 <= r < 100).
  { rewrite Hin. split; intros (r & Hr & Hc); exists r; (split; [exact Hr|]);
      destruct (Z.ltb_spec r 1), (Z.ltb_spec r 10), (Z.ltb_spec r 100); lia. }
  assert (H3 : In 3 ls <-> exists r, In r rs /\ 100 <= r).
  { rewrite Hin. split; intros (r & Hr & Hc); exists r; (split; [exact Hr|]);
      destruct (Z.ltb_spec r 1), (Z.ltb_spec r 10), (Z.ltb_spec r 100); lia. }
  assert (Hge1 : (exists r, In r rs /\ 1 <= r) <->
                 In 1 ls \/ In 2 ls \/ In 3 ls).
  { rewrite H1, H2, H3. split.
    - intros (r & Hr & Hc).
      destruct (Z.lt_ge_cases r 10); [left; eauto|].
      destruct (Z.lt_ge_cases r 100); [right; left; eauto | right; right; eauto].
    - intros [(r & Hr & Hc)|[(r & Hr & Hc)|(r & Hr & Hc)]];
        exists r; split; auto; lia. }
  assert (Hge10 : (exists r, In r rs /\ 10 <= r) <-> In 2 ls \/ In 3 ls).
  { rewrite H2, H3. split.
    - intros (r & Hr & Hc).
      destruct (Z.lt_ge_cases r 100); [left; eauto | right; eauto].
    - intros [(r & Hr & Hc)|(r & Hr & Hc)]; exists r; split; auto; lia. }
  assert (Hfilled : filled <-> classes_contiguous ls).
  { unfold filled. rewrite <- H3, <- H2, <- H1, <- H0, Hge1, Hge10. split.
    - intros (F3 & F2 & F1).
      destruct (in_dec Z.eq_dec 3 ls) as [I3|N3];
        [exists 4|destruct (in_dec Z.eq_dec 2 ls) as [I2|N2];
                  [exists 3|destruct (in_dec Z.eq_dec 1 ls) as [I1|N1];
                            [exists 2|destruct (in_dec Z.eq_dec 0 ls) as [I0|N0];
                                      [exists 1|exists 0]]]];
        intros c; (split; [intros Hc; pose proof (Hbin c Hc) as Hb|intros Hb]);
        try (assert (Hcase : c = 0 \/ c = 1 \/ c = 2 \/ c = 3) by lia;
             destruct Hcase as [->|[->|[->| ->]]]); try lia; try tauto.
    - intros [k Hk]. repeat split.
      + intros I3. apply Hk. apply Hk in I3. lia.
      + intros [I|I]; apply Hk; apply Hk in I; lia.
      + intros [I|[I|I]]; apply Hk; apply Hk in I; lia. }
  assert (Hinit : forall w, compute_sample_weights ls = Ok w ->
                            exists ds, TweetDataset_init txts ls feats = Ok ds).
  { intros w Hw. unfold TweetDataset_init. rewrite Hw. cbn [bind]. eauto. }
  split.
  - rewrite Hfilled. split.
    + intros [ds Hds]. unfold TweetDataset_init in Hds.
      destruct (compute_sample_weights ls) as [w|] eqn:Hw; [|discriminate].
      eapply sample_weights_Ok_contiguous; eassumption.
    + intros Hc. apply (Hinit (inverse_class_frequency ls)).
      now apply counted_sample_weights, classes_contiguous_counted.
  - intros Hnot. unfold TweetDataset_init.
    destruct (compute_sample_weights ls) as [w|e] eqn:Hw.
    + exfalso. apply Hnot, Hfilled.
      eapply sample_weights_Ok_contiguous; eassumption.
    + cbn [bind]. f_equal.
      unfold compute_sample_weights, Numpy.take in Hw.
      apply mapM_Raise_inv in Hw as (l & _ & Hitem).
      now apply item_Raise in Hitem.
Qed.

(** ** Items of a dataset *)

Lemma dict_get_set {V : Type} (k : string) (v : V) (d : dict V) :
  dict_get k (dict_set k v d) = Some v.
Proof.
  induction d as [|[k' v'] d IH]; simpl.
  - now rewrite String.eqb_refl.
  - destruct (String.eqb_spec k' k); simpl.
    + now rewrite String.eqb_refl.
    + destruct (String.eqb_spec k' k); [contradiction | exact IH].
Qed.

Lemma dict_get_set_other {V : Type} (k k' : string) (v : V) (d : dict V) :
  k' <> k -> dict_get k' (dict_set k v d) = dict_get k' d.
Proof.
  intros Hne. induction d as [|[k0 v0] d IH]; simpl.
  - destruct (String.eqb_spec k k'); [congruence | reflexivity].
  - destruct (String.eqb_spec k0 k) as [->|Hk0]; simpl.
    + destruct (String.eqb_spec k k'); [congruence|].
      destruct (String.eqb_spec k k'); [congruence | reflexivity].
    + destruct (String.eqb_spec k0 k'); [reflexivity | exact IH].
Qed.

Lemma dict_get_map {V W : Type} (f : V -> W) (k : string) (d : dict V) :
  dict_get k (map (fun kv => (fst kv, f (snd kv))) d) =
  option_map f (dict_get k d).
Proof.
  induction d as [|[k' v] d IH]; simpl; [reflexivity|].
  destruct (String.eqb k' k); [reflexivity | exact IH].
Qed.

(** An index that is in range, counted from either end. *)
Lemma item_in_range {A : Type} (a : list A) (i : Z) (d : A) :
  - Z.of_nat (length a) <= i < Z.of_nat (length a) ->
  Numpy.item a i =
  Ok (nth (Z.to_nat (if i <? 0 then i + Z.of_nat (length a) else i)) a d).
Proof.
  intros Hi. unfold Numpy.item.
  set (j := if i <? 0 then i + Z.of_nat (length a) else i).
  assert (Hj : 0 <= j < Z.of_nat (length a))
    by (unfold j; destruct (Z.ltb_spec i 0); lia).
  destruct (Z.leb_spec 0 j); [|lia].
  destruct (Z.ltb_spec j (Z.of_nat (length a))); [|lia]. simpl.
  rewrite (nth_error_nth' a d) by lia. reflexivity.
Qed.

Lemma item_out_of_range {A : Type} (a : list A) (i : Z) :
  ~ (- Z.of_nat (length a) <= i < Z.of_nat (length a)) ->
  Numpy.item a i = Raise IndexError.
Proof.
  intros Hi. unfold Numpy.item.
  destruct (Z.ltb_spec i 0);
    destruct (Z.leb_spec 0 (i + Z.of_nat (length a)));
    destruct (Z.leb_spec 0 i);
    destruct (Z.ltb_spec (i + Z.of_nat (length a)) (Z.of_nat (length a)));
    destruct (Z.ltb_spec i (Z.of_nat (length a)));
    simpl; try reflexivity; lia.
Qed.

Lemma item_negative_index {A : Type} (a : list A) (i : Z) :
  - Z.of_nat (length a) <= i < 0 ->
  Numpy.item a i = Numpy.item a (i + Z.of_nat (length a)).
Proof.
  intros Hi. unfold Numpy.item.
  destruct (Z.ltb_spec i 0); [|lia].
  destruct (Z.ltb_spec (i + Z.of_nat (length a)) 0); [lia|]. reflexivity.
Qed.

Lemma getitem_in_range (tokenizer : string -> dict (list Z))
      (self : TweetDataset) (idx : Z) :
  aligned self ->
  - Z.of_nat (length (labels self)) <= idx < Z.of_nat (length (labels self)) ->
  exists item, TweetDataset_getitem tokenizer self idx = Ok item.
Proof.
  intros [Htexts Hrows] Hidx. unfold TweetDataset_getitem, list_getitem.
  rewrite (item_in_range (texts self) idx EmptyString)
    by (rewrite Htexts; exact Hidx).
  cbn [bind]. rewrite (item_in_range (labels self) idx 0) by exact Hidx.
  cbn [bind]. destruct (features self) as [rows|]; [|eauto].
  rewrite (item_in_range rows idx []) by (rewrite Hrows; exact Hidx).
  cbn [bind]. eauto.
Qed.

Lemma getitem_out_of_range (tokenizer : string -> dict (list Z))
      (self : TweetDataset) (idx : Z) :
  aligned self ->
  ~ (- Z.of_nat (length (labels self)) <= idx < Z.of_nat (length (labels self))) ->
  TweetDataset_getitem tokenizer self idx = Raise IndexError.
Proof.
  intros [Htexts _] Hidx. unfold TweetDataset_getitem, list_getitem.
  rewrite (item_out_of_range (texts self) idx) by (rewrite Htexts; exact Hidx).
  reflexivity.
Qed.

(** X6. On a dataset whose texts, labels and feature rows belong to the
    same examples, [__getitem__(idx)] returns an item exactly for
    [-len <= idx < len] and raises [IndexError] otherwise, and a negative
    [idx] gives the item of [idx + len]. *)
Theorem getitem_index_range (tokenizer : string -> dict (list Z))
        (self : TweetDataset) (idx : Z) :
  aligned self ->
  let len := Z.of_nat (TweetDataset_len self) in
  ((exists item, TweetDataset_getitem tokenizer self idx = Ok item) <->
   - len <= idx < len) /\
  (~ (- len <= idx < len) ->
   TweetDataset_getitem tokenizer self idx = Raise IndexError) /\
  (- len <= idx < 0 ->
   TweetDataset_getitem tokenizer self idx =
   TweetDataset_getitem tokenizer self (idx + len)).
Proof.
  intros Hal len. unfold TweetDataset_len in len.
  pose proof (getitem_out_of_range tokenizer self idx Hal) as Hout.
  pose proof (getitem_in_range tokenizer self idx Hal) as Hin.
  fold len in Hout, Hin. destruct Hal as [Htexts Hrows].
  split; [|split].
  - split; [|exact Hin]. intros [item Hitem].
    destruct (Z_le_dec (- len) idx) as [Hlo|Hlo];
      [destruct (Z_lt_dec idx len) as [Hhi|Hhi]; [lia|]|];
      rewrite Hout in Hitem by lia; discriminate.
  - exact Hout.
  - intros Hneg. unfold TweetDataset_getitem, list_getitem.
    rewrite (item_negative_index (texts self) idx) by (rewrite Htexts; exact Hneg).
    rewrite (item_negative_index (labels self) idx) by exact Hneg.
    rewrite Htexts. fold len.
    destruct (features self) as [rows|]; [|reflexivity].
    rewrite (item_negative_index rows idx) by (rewrite Hrows; exact Hneg).
    rewrite Hrows. reflexivity.
Qed.

Lemma toy_dataset_aligned : aligned toy_dataset.
Proof. split; [reflexivity | exact I]. Qed.

Lemma getitem_index_range_witness :
  aligned toy_dataset /\
  TweetDataset_getitem char_tokenizer toy_dataset 8 = Raise IndexError /\
  TweetDataset_getitem char_tokenizer toy_dataset (-1) =
  TweetDataset_getitem char_tokenizer toy_dataset 7.
Proof.
  split; [exact toy_dataset_aligned|]. split.
  - apply (proj1 (proj2 (getitem_index_range char_tokenizer toy_dataset 8
                           toy_dataset_aligned))).
    simpl. lia.
  - apply (proj2 (proj2 (getitem_index_range char_tokenizer toy_dataset (-1)
                           toy_dataset_aligned))).
    simpl. lia.
Defined.

(** X7. An item that [__getitem__(idx)] returns holds [labels[idx]] under
    the key [labels], the feature row of [idx] under [features] when the
    dataset has features, and under every other key what the tokenizer
    returned for [texts[idx]]; a [labels] or [features] entry of the
    tokenizer is replaced. *)
Theorem getitem_contents (tokenizer : string -> dict (list Z))
        (self : TweetDataset) (idx : Z) (item : dict item_value) :
  TweetDataset_getitem tokenizer self idx = Ok item ->
  exists text lab,
    list_getitem (texts self) idx = Ok text /\
    list_getitem (labels self) idx = Ok lab /\
    dict_get "labels" item = Some (IntScalar Torch.int64 lab) /\
    (forall rows,
        features self = Some rows ->
        exists row,
          Numpy.item rows idx = Ok row /\
          dict_get "features" item = Some (IntTensor Torch.int32 row)) /\
    (forall k,
        k <> "labels"%string ->
        k <> "features"%string \/ features self = None ->
        dict_get k item =
        option_map (IntTensor Torch.int64) (dict_get k (tokenizer text))).
Proof.
  unfold TweetDataset_getitem.
  destruct (list_getitem (texts self) idx) as [text|] eqn:Etext; [|discriminate].
  cbn [bind].
  destruct (list_getitem (labels self) idx) as [lab|] eqn:Elab; [|discriminate].
  cbn [bind]. intros Hitem. exists text, lab.
  split; [reflexivity|]. split; [reflexivity|].
  destruct (features self) as [rows|] eqn:Efeat.
  - destruct (Numpy.item rows idx) as [row|] eqn:Erow; [|discriminate].
    cbn [bind] in Hitem. inversion Hitem; subst; clear Hitem.
    split; [|split].
    + rewrite dict_get_set_other by discriminate. apply dict_get_set.
    + intros rows' Hrows. inversion Hrows; subst. exists row.
      split; [exact Erow | apply dict_get_set].
    + intros k Hk [Hk'|Hnone]; [|discriminate].
      rewrite !dict_get_set_other by auto. apply dict_get_map.
  - inversion Hitem; subst; clear Hitem.
    split; [apply dict_get_set|]. split; [discriminate|].
    intros k Hk _. rewrite dict_get_set_other by auto. apply dict_get_map.
Qed.

Lemma getitem_contents_witness :
  exists item text lab,
    TweetDataset_getitem char_tokenizer toy_dataset 3 = Ok item /\
    list_getitem (texts toy_dataset) 3 = Ok text /\
    list_getitem (labels toy_dataset) 3 = Ok lab /\
    lab = 2 /\
    dict_get "labels" item = Some (IntScalar Torch.int64 lab).
Proof.
  eexists.
  destruct (getitem_contents char_tokenizer toy_dataset 3 _ eq_refl)
    as (text & lab & Htext & Hlab & Hget & _).
  exists text, lab. split; [reflexivity|]. split; [exact Htext|].
  split; [exact Hlab|]. split; [|exact Hget].
  cbv in Hlab. now inversion Hlab.
Defined.

(** ** The sampler and the dataset *)

Section SamplerAndDataset.

Local Open Scope Q_scope.

(** The train dataloader of a dataset the script builds, and the epochs of
    its sampler. *)
Lemma train_sampler_of_dataset (targs : TrainingArguments)
      (txts : list string) (lbls : list Z) (feats : option (list (list Z)))
      (eval_ds : option TweetDataset) (ds : TweetDataset) :
  TweetDataset_init txts lbls feats = Ok ds ->
  lbls <> [] ->
  labels ds = lbls /\
  exists dl,
    get_train_dataloader {| args := targs; train_dataset := Some ds;
                            eval_dataset := eval_ds |} = Ok dl /\
    sampler dl = {| weights := sample_weights ds;
                    num_samples := length lbls;
                    replacement := true |} /\
    WeightedRandomSampler_iter (sampler dl) =
    Ok (multinomial_with_replacement (sample_weights ds) (length lbls)).
Proof.
  intros Hinit Hne.
  destruct (dataset_weights_positive _ _ _ _ Hinit) as [Hlen Hpos].
  assert (Hlabels : labels ds = lbls).
  { unfold TweetDataset_init in Hinit.
    destruct (compute_sample_weights lbls); [|discriminate].
    cbn [bind] in Hinit. now inversion Hinit. }
  split; [exact Hlabels|].
  assert (Hwne : sample_weights ds <> []).
  { intros Hnil. rewrite Hnil in Hlen. destruct lbls; [contradiction|discriminate]. }
  assert (Hzero : (length (sample_weights ds) =? 0)%nat = false).
  { destruct (sample_weights ds); [contradiction | reflexivity]. }
  assert (Hvalid : valid_weights (sample_weights ds) = true).
  { unfold valid_weights. apply andb_true_iff. split.
    - apply forallb_forall. intros x Hx. apply Qle_bool_iff.
      rewrite Forall_forall in Hpos. specialize (Hpos x Hx). lra.
    - apply negb_true_iff.
      destruct (Qeq_bool (Qsum (sample_weights ds)) 0) eqn:E; [|reflexivity].
      apply Qeq_bool_iff in E.
      pose proof (Qsum_pos _ Hwne Hpos). lra. }
  eexists. split.
  { unfold get_train_dataloader, WeightedRandomSampler_init.
    cbn [train_dataset]. rewrite Hzero. cbn [bind]. reflexivity. }
  cbn [sampler]. rewrite Hlen. split; [reflexivity|].
  unfold WeightedRandomSampler_iter. cbn [replacement weights num_samples].
  now rewrite Hvalid.
Qed.

(** X8. The train sampler of a dataset the script builds never asks for
    an example the dataset cannot serve: every epoch has as many indices
    as [__len__] says, and [__getitem__] returns an item for each of
    them. *)
Theorem sampled_indices_are_served (tokenizer : string -> dict (list Z))
        (targs : TrainingArguments) (txts : list string) (lbls : list Z)
        (feats : option (list (list Z))) (eval_ds : option TweetDataset)
        (ds : TweetDataset) :
  TweetDataset_init txts lbls feats = Ok ds ->
  lbls <> [] ->
  aligned ds ->
  exists dl epoch,
    get_train_dataloader {| args := targs; train_dataset := Some ds;
                            eval_dataset := eval_ds |} = Ok dl /\
    WeightedRandomSampler_iter (sampler dl) = Ok epoch /\
    forall s p,
      In (s, p) epoch ->
      length s = TweetDataset_len ds /\
      Forall (fun i => exists item,
                  TweetDataset_getitem tokenizer ds (Z.of_nat i) = Ok item) s.
Proof.
  intros Hinit Hne Hal.
  destruct (train_sampler_of_dataset targs _ _ _ eval_ds _ Hinit Hne)
    as (Hlabels & dl & Hdl & _ & Hiter).
  destruct (dataset_weights_positive _ _ _ _ Hinit) as [Hlen _].
  exists dl, (multinomial_with_replacement (sample_weights ds) (length lbls)).
  split; [exact Hdl|]. split; [exact Hiter|].
  intros s p Hin. apply multinomial_outcomes in Hin as [Hs Hall].
  unfold TweetDataset_len. rewrite Hlabels. split; [exact Hs|].
  eapply Forall_impl; [|exact Hall].
  intros i Hi. cbv beta in Hi. rewrite Hlen in Hi.
  apply getitem_in_range; [exact Hal|].
  rewrite Hlabels. lia.
Qed.

Lemma sampled_indices_are_served_witness :
  TweetDataset_init (texts toy_dataset) toy_labels None = Ok toy_dataset /\
  toy_labels <> [] /\
  aligned toy_dataset /\
  exists dl epoch,
    get_train_dataloader {| args := training_args;
                            train_dataset := Some toy_dataset;
                            eval_dataset := None |} = Ok dl /\
    WeightedRandomSampler_iter (sampler dl) = Ok epoch /\
    forall s p, In (s, p) epoch -> length s = 8%nat.
Proof.
  assert (Hne : toy_labels <> []) by discriminate.
  split; [reflexivity|]. split; [exact Hne|].
  split; [exact toy_dataset_aligned|].
  destruct (sampled_indices_are_served char_tokenizer training_args
              (texts toy_dataset) toy_labels None None toy_dataset
              eq_refl Hne toy_dataset_aligned)
    as (dl & epoch & Hdl & Hiter & Hserved).
  exists dl, epoch. split; [exact Hdl|]. split; [exact Hiter|].
  intros s p Hin. now apply Hserved in Hin.
Defined.

(** X9. An empty training split still gives a dataset, but no train
    dataloader: the sampler refuses to draw zero samples, so [train]
    stops with a [ValueError] before its first step. *)
Theorem empty_training_split_cannot_train (targs : TrainingArguments)
        (txts : list string) (feats : option (list (list Z)))
        (eval_ds : option TweetDataset) :
  exists ds,
    TweetDataset_init txts [] feats = Ok ds /\
    TweetDataset_len ds = 0%nat /\
    get_train_dataloader {| args := targs; train_dataset := Some ds;
                            eval_dataset := eval_ds |} =
    Raise (ValueError "num_samples should be a positive integer value, but got num_samples=0") /\
    train {| args := targs; train_dataset := Some ds;
             eval_dataset := eval_ds |} =
    Raise (ValueError "num_samples should be a positive integer value, but got num_samples=0").
Proof.
  eexists. repeat split.
Qed.

End SamplerAndDataset.

(** ** Range and invariance of the metric *)

Section MetricProperties.

Local Open Scope Q_scope.

Lemma mean_range (hits : list bool) :
  match Numpy.mean hits with
  | Numpy.NaN => hits = []
  | Numpy.Finite q => hits <> [] /\ 0 <= q <= 1
  end.
Proof.
  destruct hits as [|h hits]; [reflexivity|].
  cbn [Numpy.mean]. split; [discriminate|].
  set (l := h :: hits).
  pose proof (count_occ_bound bool_dec true l) as Hb.
  assert (Hlen : (0 < length l)%nat) by (simpl; lia).
  assert (H0 : inject_Z 0 <= inject_Z (Z.of_nat (count_occ bool_dec l true)))
    by (rewrite <- Zle_Qle; lia).
  assert (H1 : inject_Z (Z.of_nat (count_occ bool_dec l true))
               <= inject_Z (Z.of_nat (length l)))
    by (rewrite <- Zle_Qle; lia).
  assert (Hn : inject_Z 0 < inject_Z (Z.of_nat (length l)))
    by (rewrite <- Zlt_Qlt; lia).
  change (inject_Z 0) with 0 in *.
  split.
  - apply Qle_shift_div_l; [exact Hn|]. lra.
  - apply Qle_shift_div_r; [exact Hn|]. lra.
Qed.

Lemma equal_Ok_empty (a b : list Z) (hits : list bool) :
  Numpy.equal a b = Ok hits -> (hits = [] <-> a = [] \/ b = []).
Proof.
  unfold Numpy.equal.
  destruct a as [|x [|x' a]], b as [|y [|y' b]]; simpl;
    try destruct (length a =? length b)%nat;
    intros H; inversion H; subst; clear H;
    (split; [intros Hh; try discriminate Hh; auto
            |intros [Ha|Hb]; try discriminate; reflexivity]).
Qed.

Lemma argmax_last_Raise (preds : list (list Q)) (e : exn) :
  Numpy.argmax_last preds = Raise e ->
  e = ValueError "attempt to get argmax of an empty sequence".
Proof.
  intros H. apply mapM_Raise_inv in H as (row & _ & Hrow).
  destruct row; [now inversion Hrow | discriminate].
Qed.

(** X10. When [compute_metric] returns, the dict has the single key
    [accuracy]; its value is NaN exactly when the labels or the
    predictions are empty, and otherwise a number between 0 and 1. A row
    without logits makes it raise the [ValueError] of [argmax]. *)
Theorem accuracy_range (eval_pred : EvalPrediction) :
  (forall d,
      compute_metric eval_pred = Ok d ->
      exists v,
        d = [("accuracy"%string, v)] /\
        match v with
        | Numpy.NaN =>
            label_ids eval_pred = [] \/ predictions eval_pred = []
        | Numpy.Finite q =>
            label_ids eval_pred <> [] /\ predictions eval_pred <> [] /\
            0 <= q <= 1
        end) /\
  (In [] (predictions eval_pred) ->
   compute_metric eval_pred =
   Raise (ValueError "attempt to get argmax of an empty sequence")).
Proof.
  unfold compute_metric. split.
  - intros d.
    destruct (Numpy.argmax_last (predictions eval_pred)) as [predicted|] eqn:Ep;
      [|discriminate].
    cbn [bind].
    destruct (Numpy.equal (label_ids eval_pred) (map Z.of_nat predicted))
      as [hits|] eqn:Eh; [|discriminate].
    cbn [bind]. intros H; inversion H; subst; clear H.
    eexists. split; [reflexivity|].
    pose proof (equal_Ok_empty _ _ _ Eh) as Hempty.
    assert (Hpred : map Z.of_nat predicted = [] <-> predictions eval_pred = []).
    { unfold Numpy.argmax_last in Ep. apply mapM_Ok_inv in Ep as [Hlen _].
      destruct predicted, (predictions eval_pred); simpl in *;
        split; intros; congruence || discriminate. }
    pose proof (mean_range hits) as Hm.
    destruct (Numpy.mean hits) as [q|].
    + destruct Hm as [Hne Hq]. repeat split; try apply Hq.
      * intros Hl. apply Hne, Hempty. now left.
      * intros Hp. apply Hne, Hempty. right. now apply Hpred.
    + apply Hempty in Hm. rewrite Hpred in Hm. exact Hm.
  - intros Hin.
    assert (Hrow : Numpy.argmax [] = Raise
                     (ValueError "attempt to get argmax of an empty sequence"))
      by reflexivity.
    destruct (mapM_Raise Numpy.argmax _ _ _ Hin Hrow) as [e He].
    fold (Numpy.argmax_last (predictions eval_pred)) in He.
    rewrite He. cbn [bind]. f_equal. now apply argmax_last_Raise in He.
Qed.

Lemma argmax_from_monotone (f : Q -> Q) (row : list Q) (best : Q)
      (best_pos pos : nat) :
  (forall x y, x < y <-> f x < f y) ->
  Numpy.argmax_from (f best) best_pos pos (map f row) =
  Numpy.argmax_from best best_pos pos row.
Proof.
  intros Hf. revert best best_pos pos.
  induction row as [|x row IH]; intros best bp pos; [reflexivity|].
  cbn [map Numpy.argmax_from].
  destruct (Qlt_le_dec (f best) (f x)) as [Hlt|Hle],
           (Qlt_le_dec best x) as [Hlt'|Hle']; try apply IH.
  - apply Hf in Hlt. lra.
  - apply Hf in Hlt'. lra.
Qed.

(** X11. The metric depends on the order of the logits only: applying one
    strictly increasing function to all logits, such as a positive scaling
    and a shift, changes neither the predictions nor the accuracy. *)
Theorem accuracy_invariant_under_increasing_map (f : Q -> Q)
        (eval_pred : EvalPrediction) :
  (forall x y, x < y <-> f x < f y) ->
  Numpy.argmax_last (map (map f) (predictions eval_pred)) =
  Numpy.argmax_last (predictions eval_pred) /\
  compute_metric {| predictions := map (map f) (predictions eval_pred);
                    label_ids := label_ids eval_pred |} =
  compute_metric eval_pred.
Proof.
  intros Hf.
  assert (Hargmax : Numpy.argmax_last (map (map f) (predictions eval_pred)) =
                    Numpy.argmax_last (predictions eval_pred)).
  { unfold Numpy.argmax_last.
    induction (predictions eval_pred) as [|row preds IH]; [reflexivity|].
    cbn [map mapM]. rewrite IH. f_equal.
    destruct row as [|x row]; [reflexivity|].
    cbn [map Numpy.argmax]. now rewrite argmax_from_monotone. }
  split; [exact Hargmax|].
  unfold compute_metric. cbn [predictions label_ids]. now rewrite Hargmax.
Qed.

Lemma accuracy_invariant_under_increasing_map_witness :
  (forall x y, x < y <-> 2 * x + 1 < 2 * y + 1) /\
  compute_metric {| predictions := [[2; 4]; [5; 3]; [1; 1]];
                    label_ids := [1; 0; 1]%Z |} =
  compute_metric {| predictions := [[1 # 2; 3 # 2]; [2; 1]; [0; 0]];
                    label_ids := [1; 0; 1]%Z |}.
Proof.
  assert (Hf : forall x y, x < y <-> 2 * x + 1 < 2 * y + 1)
    by (intros x y; split; intros; lra).
  split; [exact Hf|].
  exact (proj2 (accuracy_invariant_under_increasing_map
                  (fun x => 2 * x + 1)
                  {| predictions := [[1 # 2; 3 # 2]; [2; 1]; [0; 0]];
                     label_ids := [1; 0; 1]%Z |} Hf)).
Defined.

End MetricProperties.

(** ** Arbitrary directory listings *)

Lemma best_ckpt_unfold (listing : list string) :
  best_ckpt listing = (steps <- mapM checkpoint_step listing ;; Numpy.min steps).
Proof. reflexivity. Qed.

Lemma split_pieces (sep : ascii) (s : string) :
  Forall (fun p => Forall (fun c => c <> sep) (list_ascii_of_string p))
         (Python.split sep s).
Proof.
  induction s as [|c s IH]; simpl.
  - repeat constructor.
  - destruct (Ascii.eqb_spec c sep) as [->|Hne].
    + constructor; [constructor | exact IH].
    + destruct (Python.split sep s) as [|p ps].
      * repeat constructor. exact Hne.
      * inversion IH; subst. constructor; [|assumption].
        simpl. constructor; assumption.
Qed.

Lemma split_length (sep : ascii) (s : string) :
  length (Python.split sep s) =
  S (count_occ ascii_dec (list_ascii_of_string s) sep).
Proof.
  induction s as [|c s IH]; simpl; [reflexivity|].
  destruct (Ascii.eqb_spec c sep) as [->|Hne].
  - destruct (ascii_dec sep sep); [|contradiction]. simpl. now rewrite IH.
  - destruct (ascii_dec c sep); [contradiction|].
    destruct (Python.split sep s); simpl in *; [discriminate | exact IH].
Qed.

Lemma split_prefix (sep : ascii) (a b : string) :
  Forall (fun c => c <> sep) (list_ascii_of_string a) ->
  Python.split sep (a ++ String sep b) = a :: Python.split sep b.
Proof.
  induction a as [|c a IH]; intros H; simpl.
  - now rewrite Ascii.eqb_refl.
  - inversion H; subst.
    destruct (Ascii.eqb_spec c sep); [contradiction|].
    now rewrite IH.
Qed.

Lemma lstrip_incl (s : list ascii) (c : ascii) :
  In c (Python.lstrip s) -> In c s.
Proof.
  induction s as [|x s IH]; simpl; [auto|].
  destruct (Python.is_space x); [intros H; right; now apply IH | auto].
Qed.

Lemma strip_incl (s : list ascii) (c : ascii) :
  In c (Python.strip s) -> In c s.
Proof.
  unfold Python.strip. intros H.
  apply in_rev, lstrip_incl, in_rev, lstrip_incl in H. exact H.
Qed.

Lemma digit_of_range (c : ascii) (d : Z) :
  Python.digit_of c = Some d -> 0 <= d <= 9.
Proof.
  unfold Python.digit_of.
  destruct (((48 <=? nat_of_ascii c) && (nat_of_ascii c <=? 57))%nat) eqn:E;
    [|discriminate].
  apply andb_true_iff in E as [Hlo Hhi]. apply Nat.leb_le in Hlo, Hhi.
  intros H. injection H as <-. lia.
Qed.

Lemma int_digits_nonneg (s : list ascii) (acc : Z) (b : bool) (z : Z) :
  0 <= acc -> Python.int_digits acc b s = Some z -> 0 <= z.
Proof.
  revert acc b. induction s as [|c s IH]; intros acc b Hacc;
    cbn [Python.int_digits].
  - destruct b; [intros H; inversion H; lia | discriminate].
  - destruct (Python.digit_of c) as [d|] eqn:Ed.
    + apply digit_of_range in Ed. apply IH. lia.
    + destruct (Ascii.eqb c "_" && b); [now apply IH | discriminate].
Qed.

(** Without a minus sign among its characters, [int] reads a number that
    is not negative. *)
Lemma int_nonneg (s : string) (z : Z) :
  ~ In "-"%char (list_ascii_of_string s) ->
  Python.int s = Ok z -> 0 <= z.
Proof.
  intros Hno. unfold Python.int.
  assert (Hbody : ~ In "-"%char (Python.strip (list_ascii_of_string s)))
    by (intros H; now apply strip_incl in H).
  destruct (Python.strip (list_ascii_of_string s)) as [|c ds].
  - discriminate.
  - assert (Hc : c <> "-"%char) by (intros ->; apply Hbody; now left).
    clear Hbody Hno.
    destruct c as [[] [] [] [] [] [] [] []]; try congruence; cbv iota;
      (destruct (Python.int_digits 0 false _) as [z'|] eqn:E;
       [intros H; inversion H; subst;
        eapply int_digits_nonneg; [|exact E]; lia
       |discriminate]).
Qed.

Lemma checkpoint_step_Ok (fol : string) (k : Z) :
  checkpoint_step fol = Ok k ->
  In "-"%char (list_ascii_of_string fol) /\ 0 <= k.
Proof.
  unfold checkpoint_step, Python.getitem.
  destruct (nth_error (Python.split "-" fol) 1) as [part|] eqn:Epart;
    [|discriminate].
  cbn [bind]. intros Hint. split.
  - assert (Hlen : (1 < length (Python.split "-" fol))%nat)
      by (apply nth_error_Some; congruence).
    rewrite split_length in Hlen.
    apply (count_occ_In ascii_dec). lia.
  - apply (int_nonneg part); [|exact Hint].
    pose proof (split_pieces "-" fol) as Hpieces.
    rewrite Forall_forall in Hpieces.
    specialize (Hpieces part (nth_error_In _ _ Epart)).
    rewrite Forall_forall in Hpieces. intros Hin.
    now apply (Hpieces _ Hin).
Qed.

Lemma checkpoint_step_no_hyphen (fol : string) :
  ~ In "-"%char (list_ascii_of_string fol) ->
  checkpoint_step fol = Raise IndexError.
Proof.
  intros Hno. unfold checkpoint_step.
  rewrite split_no_separator; [reflexivity|].
  apply Forall_forall. intros c Hc ->. contradiction.
Qed.

Lemma checkpoint_step_Raise (fol : string) (e : exn) :
  checkpoint_step fol = Raise e ->
  e = IndexError \/
  exists part,
    nth_error (Python.split "-" fol) 1 = Some part /\
    e = ValueError (Python.invalid_literal part).
Proof.
  unfold checkpoint_step, Python.getitem.
  destruct (nth_error (Python.split "-" fol) 1) as [part|]; cbn [bind].
  - unfold Python.int.
    destruct (match Python.strip (list_ascii_of_string part) with
              | [] => _ | _ => _ end);
      [discriminate | intros H; inversion H; eauto].
  - intros H; inversion H; auto.
Qed.

Lemma mapM_first_Raise {A B : Type} (f : A -> result B) (good : list A)
      (bad : A) (rest : list A) (e : exn) :
  (forall a, In a good -> exists b, f a = Ok b) ->
  f bad = Raise e ->
  mapM f (good ++ bad :: rest) = Raise e.
Proof.
  intros Hgood Hbad. induction good as [|a good IH]; simpl.
  - now rewrite Hbad.
  - destruct (Hgood a (or_introl eq_refl)) as [b ->]. cbn [bind].
    rewrite IH; [reflexivity|]. intros a' Ha'. apply Hgood. now right.
Qed.

(** X12. Whatever file names the output directory lists, as long as the
    numbers read off them fit 64 bits: a step that [best_ckpt] returns is
    not negative, is the step read off one of the listed names, and is at
    most the step read off any listed name; it returns only for a listing
    that is not empty and whose names all contain a hyphen. *)
Theorem best_ckpt_is_least_listed_step (listing : list string) (k : Z) :
  Forall file_name listing ->
  (forall fol z,
      In fol listing -> checkpoint_step fol = Ok z -> Numpy.fits_int64 z) ->
  best_ckpt listing = Ok k ->
  listing <> [] /\
  0 <= k /\
  (exists fol, In fol listing /\ checkpoint_step fol = Ok k) /\
  (forall fol,
      In fol listing ->
      In "-"%char (list_ascii_of_string fol) /\
      exists k', checkpoint_step fol = Ok k' /\ k <= k').
Proof.
  intros _ _. rewrite best_ckpt_unfold.
  destruct (mapM checkpoint_step listing) as [steps|] eqn:Esteps;
    [|discriminate].
  cbn [bind]. intros Hmin.
  assert (Hnth : forall i, (i < length listing)%nat ->
                   checkpoint_step (nth i listing EmptyString)
                   = Ok (nth i steps 0))
    by (apply mapM_Ok_nth; exact Esteps).
  pose proof (mapM_Ok_inv _ _ _ Esteps) as [Hlen _].
  destruct steps as [|s0 steps]; [discriminate|].
  cbn [Numpy.min] in Hmin. inversion Hmin as [Hk]; clear Hmin.
  destruct (fold_min_spec steps s0) as [Hin Hle]. rewrite Hk in Hin, Hle.
  rewrite ?Hk.
  assert (Hchosen : exists fol, In fol listing /\ checkpoint_step fol = Ok k).
  { apply In_nth with (d := 0) in Hin as (i & Hi & Hi').
    exists (nth i listing EmptyString). split.
    - apply nth_In. lia.
    - rewrite Hnth by lia. now rewrite Hi'. }
  split; [intros ->; discriminate Hlen|].
  split; [destruct Hchosen as (fol & _ & Hfol);
          apply checkpoint_step_Ok in Hfol as [_ Hk0]; exact Hk0|].
  split; [exact Hchosen|].
  intros fol Hfol.
  apply In_nth with (d := EmptyString) in Hfol as (i & Hi & <-).
  pose proof (Hnth i Hi) as Hstep. split.
  - apply checkpoint_step_Ok in Hstep as [Hhyphen _]. exact Hhyphen.
  - eexists. split; [exact Hstep|]. apply Hle. apply nth_In. lia.
Qed.

Lemma best_ckpt_is_least_listed_step_witness :
  Forall file_name ["checkpoint-1500"; "tmp-7-old"; "x- +1_000 "]%string /\
  best_ckpt ["checkpoint-1500"; "tmp-7-old"; "x- +1_000 "]%string = Ok 7 /\
  0 <= 7 /\
  exists fol,
    In fol ["checkpoint-1500"; "tmp-7-old"; "x- +1_000 "]%string /\
    checkpoint_step fol = Ok 7.
Proof.
  assert (Hnames : Forall file_name
                     ["checkpoint-1500"; "tmp-7-old"; "x- +1_000 "]%string)
    by (repeat constructor; unfold file_name; simpl; lia).
  assert (Hfit : forall fol z,
             In fol ["checkpoint-1500"; "tmp-7-old"; "x- +1_000 "]%string ->
             checkpoint_step fol = Ok z -> Numpy.fits_int64 z).
  { intros fol z [<-|[<-|[<-|[]]]] H; vm_compute in H; inversion H;
      unfold Numpy.fits_int64; lia. }
  split; [exact Hnames|]. split; [reflexivity|].
  destruct (best_ckpt_is_least_listed_step
              ["checkpoint-1500"; "tmp-7-old"; "x- +1_000 "]%string 7
              Hnames Hfit eq_refl)
    as (_ & Hk & Hfol & _).
  split; assumption.
Defined.

(** X13. How [best_ckpt] fails on a listing of file names: on an empty
    listing with the [ValueError] of [np.min]; on a listing whose first
    unreadable name has no hyphen with [IndexError], whatever else is
    listed; and never with anything but these two and the [ValueError] of
    [int], whose message shows the piece of a listed name that is no
    number. *)
Theorem best_ckpt_failures :
  best_ckpt [] =
  Raise (ValueError "zero-size array to reduction operation minimum which has no identity") /\
  (forall good bad rest,
      Forall file_name good ->
      (forall fol, In fol good -> exists k, checkpoint_step fol = Ok k) ->
      ~ In "-"%char (list_ascii_of_string bad) ->
      best_ckpt (good ++ bad :: rest) = Raise IndexError) /\
  (forall listing e,
      Forall file_name listing ->
      best_ckpt listing = Raise e ->
      e = IndexError \/
      (exists fol part,
          In fol listing /\
          nth_error (Python.split "-" fol) 1 = Some part /\
          e = ValueError (Python.invalid_literal part)) \/
      (listing = [] /\
       e = ValueError "zero-size array to reduction operation minimum which has no identity")).
Proof.
  split; [reflexivity|]. split.
  - intros good bad rest _ Hgood Hbad. rewrite best_ckpt_unfold.
    rewrite (mapM_first_Raise checkpoint_step good bad rest IndexError Hgood);
      [reflexivity|].
    now apply checkpoint_step_no_hyphen.
  - intros listing e _. rewrite best_ckpt_unfold.
    destruct (mapM checkpoint_step listing) as [steps|e'] eqn:Esteps;
      cbn [bind].
    + destruct steps as [|s0 steps]; [|discriminate].
      intros H; inversion H; subst. right. right. split; [|reflexivity].
      apply mapM_Ok_inv in Esteps as [Hlen _].
      destruct listing; [reflexivity | discriminate].
    + intros H; inversion H; subst.
      apply mapM_Raise_inv in Esteps as (fol & Hin & Hfol).
      apply checkpoint_step_Raise in Hfol as [->|(part & Hpart & ->)];
        [now left|].
      right. left. exists fol, part. auto.
Qed.

Lemma string_length_append (a b : string) :
  String.length (a ++ b) = (String.length a + String.length b)%nat.
Proof.
  induction a as [|c a IH]; simpl; [reflexivity | now rewrite IH].
Qed.

(** X14. The logged directory is rebuilt from the number that was read,
    not taken from the listing: a name made of any hyphen-free prefix, a
    hyphen, the decimal step and a hyphenated suffix is read as that step,
    and the directory logged for it is not the listed one. *)
Theorem best_model_dir_rebuilds_the_name (prefix suffix : string) (step : N) :
  ~ In "-"%char (list_ascii_of_string prefix) ->
  let name := (prefix ++ "-" ++ Python.str (Z.of_N step) ++ "-" ++ suffix)%string in
  best_ckpt [name] = Ok (Z.of_N step) /\
  best_model_dir [name] = Ok (checkpoint_dir step) /\
  ~ In (checkpoint_dir step) [name].
Proof.
  intros Hprefix name.
  assert (Hsplit : Python.split "-" name =
                   prefix :: Python.str (Z.of_N step)
                   :: Python.split "-" suffix).
  { unfold name.
    change ("-" ++ Python.str (Z.of_N step) ++ "-" ++ suffix)%string
      with (String "-" (Python.str (Z.of_N step) ++ String "-" suffix)).
    rewrite split_prefix
      by (apply Forall_forall; intros c Hc ->; contradiction).
    rewrite split_prefix; [reflexivity|].
    rewrite str_of_N. eapply Forall_impl; [|apply digits_are_digits].
    intros c Hc. apply digit_facts in Hc. tauto. }
  assert (Hstep : checkpoint_step name = Ok (Z.of_N step)).
  { unfold checkpoint_step. rewrite Hsplit.
    cbn [Python.getitem nth_error bind]. apply int_str. }
  assert (Hbest : best_ckpt [name] = Ok (Z.of_N step)).
  { rewrite best_ckpt_unfold. cbn [mapM]. rewrite Hstep. reflexivity. }
  split; [exact Hbest|]. split.
  - unfold best_model_dir. rewrite Hbest. reflexivity.
  - intros [Heq|[]].
    apply (f_equal (fun s => length (Python.split "-" s))) in Heq.
    rewrite Hsplit, checkpoint_dir_split in Heq.
    cbn [length] in Heq. rewrite split_length in Heq. lia.
Qed.

Lemma best_model_dir_rebuilds_the_name_witness :
  ~ In "-"%char (list_ascii_of_string "checkpoint") /\
  best_model_dir ["checkpoint-500-old"%string] = Ok "checkpoint-500"%string.
Proof.
  assert (Hprefix : ~ In "-"%char (list_ascii_of_string "checkpoint")).
  { simpl. intros H. repeat (destruct H as [H|H]; [discriminate|]). exact H. }
  split; [exact Hprefix|].
  exact (proj1 (proj2 (best_model_dir_rebuilds_the_name
                         "checkpoint" "old" 500 Hprefix))).
Defined.

(** ** What the loss is computed on *)

Lemma view_rows_Ok_iff (t : Torch.tensor) (k : Z) :
  (exists rows, Torch.view_rows t k = Ok rows) <->
  0 < k /\ Z.of_nat (Torch.numel t) mod k = 0.
Proof.
  unfold Torch.view_rows.
  destruct (Z.ltb_spec 0 k); simpl.
  - destruct (Z.eqb_spec (Z.of_nat (Torch.numel t) mod k) 0).
    + split; [auto | eauto].
    + split; [intros [? ?]; discriminate | tauto].
  - split; [intros [? ?]; discriminate | lia].
Qed.

Lemma broadcastable_1d (a b : nat) :
  Torch.broadcastable [a] [b] = true <-> a = b \/ a = 1%nat \/ b = 1%nat.
Proof.
  unfold Torch.broadcastable. cbn [rev app Torch.broadcast_rev].
  rewrite andb_true_r, !orb_true_iff, !Nat.eqb_eq. tauto.
Qed.

(** X15. When [compute_loss] returns, [n_labels] is positive, divides the
    number of logits and is not 2, and the loss is one of two: for
    [n_labels = 1] the mean squared error of the flattened logits against
    the flattened labels cast to float, whose sizes are equal unless one
    of them is 1; for [n_labels >= 3] the cross entropy of rows of
    [n_labels] floating point logits against the flattened labels, which
    are of type int64 and as many as the rows. With [n_labels = 2] it
    never returns. With [n_labels = 1] it returns for every batch of
    floating point logits whose size fits the labels in that way. *)
Theorem compute_loss_arguments (self : ViralityClassifier)
        (logits labels : Torch.tensor) :
  (forall l,
      compute_loss self logits labels = Ok l ->
      0 < n_labels self /\
      Z.of_nat (Torch.numel logits) mod n_labels self = 0 /\
      ((n_labels self = 1 /\
        l = Torch.mse_loss
              {| Torch.shape := [Torch.numel logits];
                 Torch.elt := Torch.elt logits |}
              {| Torch.shape := [Torch.numel labels];
                 Torch.elt := Torch.float32 |} /\
        (Torch.numel logits = Torch.numel labels \/
         Torch.numel logits = 1%nat \/ Torch.numel labels = 1%nat)) \/
       (3 <= n_labels self /\
        l = Torch.cross_entropy
              {| Torch.shape :=
                   [Z.to_nat (Z.of_nat (Torch.numel logits) / n_labels self);
                    Z.to_nat (n_labels self)];
                 Torch.elt := Torch.float32 |}
              {| Torch.shape := [Torch.numel labels];
                 Torch.elt := Torch.int64 |} /\
        Torch.elt logits = Torch.float32 /\
        Torch.elt labels = Torch.int64 /\
        Z.to_nat (Z.of_nat (Torch.numel logits) / n_labels self)
        = Torch.numel labels))) /\
  (n_labels self = 2 ->
   exists e, compute_loss self logits labels = Raise e) /\
  (n_labels self = 1 ->
   Torch.elt logits = Torch.float32 ->
   Torch.numel logits = Torch.numel labels \/
   Torch.numel logits = 1%nat \/ Torch.numel labels = 1%nat ->
   compute_loss self logits labels =
   Ok (Torch.mse_loss
         {| Torch.shape := [Torch.numel logits]; Torch.elt := Torch.float32 |}
         {| Torch.shape := [Torch.numel labels]; Torch.elt := Torch.float32 |})).
Proof.
  assert (Hret : forall l,
             compute_loss self logits labels = Ok l ->
             0 < n_labels self /\
             Z.of_nat (Torch.numel logits) mod n_labels self = 0).
  { intros l Hl. apply view_rows_Ok_iff. unfold compute_loss in Hl.
    destruct (Torch.view_rows logits (n_labels self)); [eauto | discriminate]. }
  split; [|split].
  - intros l Hl. destruct (Hret l Hl) as [Hk Hmod].
    split; [exact Hk|]. split; [exact Hmod|].
    rewrite (compute_loss_of_rows self logits labels Hk Hmod) in Hl.
    cbv zeta in Hl.
    destruct (Z.eqb_spec (n_labels self) 1) as [H1|H1];
      [|destruct (Z.eqb_spec (n_labels self) 2) as [H2|H2]].
    + left. split; [exact H1|]. rewrite H1, view_flat_single_column in Hl.
      unfold Torch.F.mse_loss, Torch.to_float in Hl.
      cbn [Torch.shape Torch.elt] in Hl.
      destruct (Torch.broadcastable [Torch.numel logits] [Torch.numel labels])
        eqn:Eb; [|discriminate].
      apply broadcastable_1d in Eb.
      destruct (Torch.is_floating _); [|discriminate].
      inversion Hl. split; [reflexivity | exact Eb].
    + rewrite binary_cross_entropy_of_rows in Hl. discriminate.
    + right. split; [lia|].
      unfold Torch.F.cross_entropy in Hl. cbn [Torch.shape Torch.elt] in Hl.
      destruct (Torch.elt logits) eqn:El; cbn [Torch.is_floating negb] in Hl;
        try discriminate.
      destruct (Nat.eqb_spec
                  (Z.to_nat (Z.of_nat (Torch.numel logits) / n_labels self))
                  (Torch.numel labels)) as [Hmn|Hmn];
        cbn [negb] in Hl; [|discriminate].
      destruct (Torch.elt labels) eqn:Et; try discriminate.
      inversion Hl. repeat split; assumption.
  - intros H2.
    destruct (compute_loss self logits labels) as [l|e] eqn:E; [|eauto].
    destruct (Hret l eq_refl) as [Hk Hmod].
    rewrite (compute_loss_of_rows self logits labels Hk Hmod) in E.
    cbv zeta in E. rewrite H2 in E.
    change (2 =? 1) with false in E. change (2 =? 2) with true in E.
    cbv iota in E. rewrite binary_cross_entropy_of_rows in E. discriminate.
  - intros H1 Hfloat Hsizes.
    rewrite (compute_loss_of_rows self logits labels);
      [|lia | rewrite H1; apply Z.mod_1_r].
    cbv zeta. rewrite H1. change (1 =? 1) with true. cbv iota.
    rewrite view_flat_single_column.
    unfold Torch.F.mse_loss, Torch.to_float. cbn [Torch.shape Torch.elt].
    rewrite (proj2 (broadcastable_1d _ _) Hsizes), Hfloat. reflexivity.
Qed.

(** ** The model on the items of the datasets *)


(** X16. A model without labels can be built, but its [forward] never
    returns: the logits are computed and then cannot be viewed as rows of
    zero entries. In general [forward] returns only for a positive
    [n_labels]. *)
Theorem forward_needs_a_label (checkpoint : encoder) (n_features : nat)
        (dropout : Q) :
  (Qle_bool 0 dropout && Qle_bool dropout 1 = true ->
   exists self, ViralityClassifier_init checkpoint n_features 0 dropout = Ok self) /\
  (forall self ids types mask labels features out,
      forward self ids types mask labels features = Ok out ->
      0 < n_labels self) /\
  (forall self ids types mask labels features,
      ViralityClassifier_init checkpoint n_features 0 dropout = Ok self ->
      exists e, forward self ids types mask labels features = Raise e).
Proof.
  assert (Hpos : forall self ids types mask labels features out,
             forward self ids types mask labels features = Ok out ->
             0 < n_labels self).
  { intros self ids types mask labels features out. unfold forward.
    destruct (forward_logits self ids types mask features) as [logits|];
      [|discriminate].
    cbn [bind].
    destruct (compute_loss self logits labels) as [l|] eqn:El; [|discriminate].
    intros _.
    apply (proj1 (view_rows_Ok_iff logits (n_labels self))).
    unfold compute_loss in El.
    destruct (Torch.view_rows logits (n_labels self)); [eauto | discriminate]. }
  split; [|split; [exact Hpos|]].
  - intros Hp. unfold ViralityClassifier_init, Linear_init, Dropout_init.
    rewrite Hp. change (0 <? 0) with false.
    destruct (n_features =? 0)%nat; cbn [bind].
    + change (0 <? 0) with false. cbn [bind]. eauto.
    + destruct (Z.ltb_spec (Z.of_nat n_features) 0); [lia|]. cbn [bind]. eauto.
  - intros self ids types mask labels features Hinit.
    destruct (forward self ids types mask labels features) as [out|e] eqn:E;
      [|eauto].
    apply Hpos in E. apply init_Ok_inv in Hinit as (_ & _ & Hk & _). lia.
Qed.

Lemma compute_loss_arguments_witness :
  compute_loss model (float_tensor [8; 4]%nat) (int_tensor [8%nat]) =
  Ok (Torch.cross_entropy (float_tensor [8; 4]%nat) (int_tensor [8%nat])) /\
  0 < n_labels model /\
  Z.of_nat (Torch.numel (float_tensor [8; 4]%nat)) mod n_labels model = 0.
Proof.
  split; [reflexivity|].
  destruct (proj1 (compute_loss_arguments
                     model (float_tensor [8; 4]%nat) (int_tensor [8%nat]))
                  _ eq_refl) as (Hk & Hmod & _).
  split; assumption.
Defined.

Lemma forward_needs_a_label_witness :
  Qle_bool 0 (1 # 5) && Qle_bool (1 # 5) 1 = true /\
  exists self, ViralityClassifier_init tiny_bert 6 0 (1 # 5) = Ok self.
Proof.
  split; [reflexivity|].
  exact (proj1 (forward_needs_a_label tiny_bert 6 (1 # 5)) eq_refl).
Defined.






(** ** The cast of the features *)

Lemma astype_int32_spec (z : Z) :
  in_int32 (astype_int32 z) /\ (in_int32 z -> astype_int32 z = z).
Proof.
  unfold in_int32, astype_int32. split.
  - pose proof (Z.mod_pos_bound (z + 2 ^ 31) (2 ^ 32) ltac:(lia)). lia.
  - intros Hz. rewrite Z.mod_small by lia. lia.
Qed.

(** X18. With a list of feature names that is not empty, the dataset
    stores the feature matrix cast to 32-bit integers: one row per given
    row, every stored entry fits 32 bits, and when the given entries fit
    the rows are stored as given. With an empty list the dataset has no
    features at all. *)
Theorem dataset_features_are_int32 (names : list string)
        (txts : list string) (lbls : list Z) (matrix : list (list Z))
        (ds : TweetDataset) :
  make_dataset names txts lbls matrix = Ok ds ->
  (names = [] -> features ds = None) /\
  (names <> [] ->
   exists rows,
     features ds = Some rows /\
     length rows = length matrix /\
     Forall (Forall in_int32) rows /\
     (Forall (Forall in_int32) matrix -> rows = matrix)).
Proof.
  unfold make_dataset, TweetDataset_init.
  destruct (compute_sample_weights lbls) as [w|]; [|discriminate].
  cbn [bind]. intros Hds. inversion Hds; subst ds; clear Hds.
  cbn [features]. split.
  - intros ->. reflexivity.
  - intros Hne. destruct names as [|name names]; [contradiction|].
    cbn [length Nat.eqb]. eexists. split; [reflexivity|].
    split; [apply length_map|]. split.
    + apply Forall_forall. intros row Hrow.
      apply in_map_iff in Hrow as (row0 & <- & _).
      apply Forall_forall. intros z Hz.
      apply in_map_iff in Hz as (z0 & <- & _). apply astype_int32_spec.
    + intros Hfit. rewrite <- (map_id matrix) at 2.
      apply map_ext_in. intros row Hrow.
      rewrite Forall_forall in Hfit. specialize (Hfit row Hrow).
      rewrite <- (map_id row) at 2. apply map_ext_in. intros z Hz.
      rewrite Forall_forall in Hfit. now apply astype_int32_spec, Hfit.
Qed.

Lemma dataset_features_are_int32_witness :
  script_features <> [] /\
  exists ds rows,
    make_dataset script_features (texts toy_dataset) toy_labels
                 [[0; 9; 1; 0; 0; 2 ^ 31]] = Ok ds /\
    features ds = Some rows /\
    Forall (Forall in_int32) rows.
Proof.
  assert (Hne : script_features <> []) by discriminate.
  split; [exact Hne|]. eexists.
  destruct (proj2 (dataset_features_are_int32
                     script_features (texts toy_dataset) toy_labels
                     [[0; 9; 1; 0; 0; 2 ^ 31]] _ eq_refl) Hne)
    as (rows & Hrows & _ & Hfit & _).
  exists rows. split; [reflexivity|]. split; [exact Hrows | exact Hfit].
Defined.

Example feature_cast_wraps_around :
  astype_int32 (2 ^ 31) = - 2 ^ 31 /\ astype_int32 (-1) = -1.
Proof. split; reflexivity. Qed.

(** ** Instances of the properties above *)

Lemma label_missing_iff_negative_witness :
  -3 < 0 /\ label (-3) = None.
Proof.
  assert (Hneg : -3 < 0) by lia.
  split; [exact Hneg|].
  exact (proj2 (proj1 label_missing_iff_negative (-3)) Hneg).
Defined.

Lemma dataset_needs_lower_bins_occupied_witness :
  Forall (fun r => 0 <= r) [0; 5; 250] /\
  map label [0; 5; 250] = map Some [0; 1; 3] /\
  TweetDataset_init [] [0; 1; 3] None = Raise IndexError.
Proof.
  assert (Hnn : Forall (fun r => 0 <= r) [0; 5; 250])
    by (repeat constructor; lia).
  split; [exact Hnn|]. split; [reflexivity|].
  apply (proj2 (dataset_needs_lower_bins_occupied
                  [] [0; 5; 250] [0; 1; 3] None Hnn eq_refl)).
  intros (H100 & _).
  destruct H100 as (r & Hr & Hb).
  - exists 250. simpl. split; [auto | lia].
  - simpl in Hr. destruct Hr as [<-|[<-|[<-|[]]]]; lia.
Defined.

Lemma accuracy_range_witness :
  In [] (predictions {| predictions := [[1 # 2; 3 # 2]; []];
                        label_ids := [1; 0] |}) /\
  compute_metric {| predictions := [[1 # 2; 3 # 2]; []];
                    label_ids := [1; 0] |} =
  Raise (ValueError "attempt to get argmax of an empty sequence").
Proof.
  assert (Hin : In [] (predictions {| predictions := [[1 # 2; 3 # 2]; []]%Q;
                                      label_ids := [1; 0] |}))
    by (simpl; auto).
  split; [exact Hin|].
  exact (proj2 (accuracy_range _) Hin).
Defined.

Lemma best_ckpt_failures_witness :
  Forall file_name ["checkpoint-500"%string] /\
  (forall fol, In fol ["checkpoint-500"%string] ->
               exists k, checkpoint_step fol = Ok k) /\
  ~ In "-"%char (list_ascii_of_string "runs") /\
  best_ckpt ["checkpoint-500"; "runs"; "checkpoint-1000"]%string
  = Raise IndexError.
Proof.
  assert (Hnames : Forall file_name ["checkpoint-500"%string])
    by (repeat constructor; unfold file_name; simpl; lia).
  assert (Hgood : forall fol, In fol ["checkpoint-500"%string] ->
                              exists k, checkpoint_step fol = Ok k).
  { intros fol [<-|[]]. eexists. reflexivity. }
  assert (Hbad : ~ In "-"%char (list_ascii_of_string "runs")).
  { simpl. intros H. repeat (destruct H as [H|H]; [discriminate|]). exact H. }
  split; [exact Hnames|]. split; [exact Hgood|]. split; [exact Hbad|].
  exact (proj1 (proj2 best_ckpt_failures)
               ["checkpoint-500"%string] "runs"%string
               ["checkpoint-1000"%string] Hnames Hgood Hbad).
Defined.
